(** * Checkpoint/restore for containers: image rewriter, registry, drivers

    A shallow embedding of the checkpoint/restore extension of the container
    runtime:

    - [patch_criu]: the image rewriter ([patch-criu.go]);
    - [daemon]: the checkpoint registry, the clone coordinator and the job
      handlers (package daemon, with [daemon/inspect.go]);
    - [native]: the checkpoint and restore drivers
      ([daemon/execdriver/native/driver.go]).

    Go values are embedded as follows.  A [[]byte] is a [list byte], a Go
    [string] is a [string], an [int] is a [Z], a [time.Time] is the [Z] of
    its instant, a Go map is a [gmap] together with the order in which a
    [range] loop visits it (Go leaves that order unspecified), an [error]
    is a value of [error], and a function returning [(T, error)] returns a
    [Result T].  The file system is an explicit state. *)

From Stdlib Require Import ZArith List String Ascii Lia Sorted Permutation DecimalString.
From Stdlib.Strings Require Import Byte.
From stdpp Require Import base gmap strings list sorting.

Open Scope Z_scope.

#[global] Instance byte_eq_dec : EqDecision byte := Byte.byte_eq_dec.

(** ** Errors and results *)

Inductive Errno := ENOENT | EEXIST | ENOTEMPTY | EROFS | EPERM.

Inductive error :=
| SysErr (e : Errno) (path : string)   (* *os.PathError / *os.LinkError *)
| Errorf (msg : string)                (* fmt.Errorf *)
| EOF                                  (* io.EOF *)
| ErrUnexpectedEOF                     (* io.ErrUnexpectedEOF *)
| ExternalErr (what : string).         (* an error of a library or tool outside the repository *)

Inductive Result (A : Type) :=
| Ok (a : A)
| Err (e : error).
Arguments Ok {A} a.
Arguments Err {A} e.

(** A computation that may loop: [Timeout] is the answer of a run whose
    fuel is exhausted, [Panic] a Go run-time panic. *)
Inductive Run (A : Type) :=
| Done (a : A)
| Panic
| Timeout.
Arguments Done {A} a.
Arguments Panic {A}.
Arguments Timeout {A}.

(** ** The file system

    A file is named by its directory and its entry name, which is what
    [filepath.Join(dir, name)] denotes for the paths of this program.
    [readonly] holds the directories in which the kernel refuses every
    change (creation of the directory itself, creation, removal or writing
    of an entry).  A hard link is a second name with the same content: the
    programs below never write through an existing name, they remove the
    name and create it again. *)
Module os.

Record FS := mkFS {
  files : gmap (string * string) (list byte);
  dirs : gset string;
  readonly : gset string
}.

Definition Join (dir name : string) : string := dir +:+ "/" +:+ name.

Definition with_files (fs : FS) (m : gmap (string * string) (list byte)) : FS :=
  mkFS m (dirs fs) (readonly fs).

(** [ioutil.ReadFile], and [os.Open] followed by reads to the end. *)
Definition ReadFile (dir name : string) (fs : FS) : Result (list byte) :=
  match files fs !! (dir, name) with
  | Some data => Ok data
  | None => Err (SysErr ENOENT (Join dir name))
  end.

(** [os.Remove] of a file. *)
Definition Remove (dir name : string) (fs : FS) : FS * option error :=
  if bool_decide (dir ∈ readonly fs) then (fs, Some (SysErr EROFS (Join dir name)))
  else match files fs !! (dir, name) with
       | Some _ => (with_files fs (delete (dir, name) (files fs)), None)
       | None => (fs, Some (SysErr ENOENT (Join dir name)))
       end.

(** Can an entry of [dir] be created or opened for writing? *)
Definition writable (dir name : string) (fs : FS) : option error :=
  if bool_decide (dir ∈ dirs fs) then
    if bool_decide (dir ∈ readonly fs) then Some (SysErr EROFS (Join dir name))
    else None
  else Some (SysErr ENOENT (Join dir name)).

(** [ioutil.WriteFile]: create or truncate, then write. *)
Definition WriteFile (dir name : string) (data : list byte) (fs : FS) : FS * option error :=
  match writable dir name fs with
  | Some e => (fs, Some e)
  | None => (with_files fs (<[(dir, name) := data]> (files fs)), None)
  end.

(** [os.MkdirAll]. *)
Definition MkdirAll (dir : string) (fs : FS) : FS * option error :=
  if bool_decide (dir ∈ dirs fs) then (fs, None)
  else if bool_decide (dir ∈ readonly fs) then (fs, Some (SysErr EROFS dir))
  else (mkFS (files fs) ({[dir]} ∪ dirs fs) (readonly fs), None).

(** [os.Open] of a directory followed by [Readdirnames(-1)]: the entry
    names, in directory order. *)
Definition Readdirnames (dir : string) (fs : FS) : Result (list string) :=
  if bool_decide (dir ∈ dirs fs) then
    Ok ((filter (λ k, k.1 = dir) (elements (dom (files fs)))).*2)
  else Err (SysErr ENOENT dir).

(** [os.Link]. *)
Definition Link (sdir sname ddir dname : string) (fs : FS) : FS * option error :=
  match files fs !! (sdir, sname) with
  | None => (fs, Some (SysErr ENOENT (Join sdir sname)))
  | Some data =>
      match writable ddir dname fs with
      | Some e => (fs, Some e)
      | None =>
          match files fs !! (ddir, dname) with
          | Some _ => (fs, Some (SysErr EEXIST (Join ddir dname)))
          | None => (with_files fs (<[(ddir, dname) := data]> (files fs)), None)
          end
      end
  end.

(** [os.Rename] of a file. *)
Definition Rename (sdir sname ddir dname : string) (fs : FS) : FS * option error :=
  match files fs !! (sdir, sname) with
  | None => (fs, Some (SysErr ENOENT (Join sdir sname)))
  | Some data =>
      if bool_decide (sdir ∈ readonly fs) then (fs, Some (SysErr EROFS (Join sdir sname)))
      else match writable ddir dname fs with
           | Some e => (fs, Some e)
           | None =>
               (with_files fs (<[(ddir, dname) := data]> (delete (sdir, sname) (files fs))), None)
           end
  end.

(** [os.Remove] of a directory: it must be empty. *)
Definition Rmdir (dir : string) (fs : FS) : FS * option error :=
  if bool_decide (dir ∈ dirs fs) then
    if bool_decide (dir ∈ readonly fs) then (fs, Some (SysErr EROFS dir))
    else match filter (λ k, k.1 = dir) (elements (dom (files fs))) with
         | [] => (mkFS (files fs) (dirs fs ∖ {[dir]}) (readonly fs), None)
         | _ :: _ => (fs, Some (SysErr ENOTEMPTY dir))
         end
  else (fs, Some (SysErr ENOENT dir)).

End os.

(** ** The Go library functions the program calls *)
Module golang.

Definition byte_of_Z (z : Z) : byte :=
  match Byte.of_N (Z.to_N (z mod 256)) with
  | Some b => b
  | None => x00
  end.

Definition Z_of_byte (b : byte) : Z := Z.of_N (Byte.to_N b).

Definition bytes_of_string (s : string) : list byte := list_byte_of_string s.
Definition string_of_bytes (l : list byte) : string := string_of_list_byte l.

(** *** package bytes *)

Fixpoint hasPrefix (s p : list byte) : bool :=
  match p, s with
  | [], _ => true
  | b :: p', c :: s' => bool_decide (b = c) && hasPrefix s' p'
  | _ :: _, [] => false
  end.

(** [bytes.Index]: the first position of [sep] in [s]; [None] is Go's -1. *)
Fixpoint bytes_Index (s sep : list byte) : option nat :=
  if hasPrefix s sep then Some 0%nat
  else match s with
       | [] => None
       | _ :: s' => S <$> bytes_Index s' sep
       end.

(** [copy(data[pos:pos+len(src)], src)] as seen through [data]: the slice
    may reach into the spare capacity of [data], where the bytes copied
    are not visible. *)
Definition copy_at (data : list byte) (pos : nat) (src : list byte) : list byte :=
  take pos data ++ take (length data - pos) src ++ drop (pos + length src) data.

(** *** package strings *)

Fixpoint string_index (s sep : string) : option nat :=
  if String.prefix sep s then Some 0%nat
  else match s with
       | EmptyString => None
       | String _ s' => S <$> string_index s' sep
       end.

Definition string_take (n : nat) (s : string) : string := String.substring 0 n s.
Definition string_drop (n : nat) (s : string) : string :=
  String.substring n (String.length s - n) s.

(** [strings.SplitN(s, sep, 2)] for a non-empty [sep]. *)
Definition strings_SplitN2 (s sep : string) : list string :=
  match string_index s sep with
  | Some i => [string_take i s; string_drop (i + String.length sep) s]
  | None => [s]
  end.

(** [strings.Replace(s, old, new, -1)] for a non-empty [old]: [skip]
    counts the bytes of a matched [old] still to be passed over. *)
Fixpoint replace_from (skip : nat) (s old new : string) : string :=
  match s with
  | EmptyString => EmptyString
  | String c s' =>
      match skip with
      | S k => replace_from k s' old new
      | O => if String.prefix old s
             then new +:+ replace_from (String.length old - 1) s' old new
             else String c (replace_from 0 s' old new)
      end
  end.

(** With an empty [old], [new] goes before every byte and at the end
    (Go inserts it around UTF-8 sequences, which are single bytes in the
    strings of this program). *)
Fixpoint intersperse_before (s new : string) : string :=
  match s with
  | EmptyString => new
  | String c s' => new +:+ String c (intersperse_before s' new)
  end.

Definition strings_Replace (s old new : string) : string :=
  match old with
  | EmptyString => intersperse_before s new
  | String _ _ => replace_from 0 s old new
  end.

(** *** package encoding/hex *)

Definition hex_value (c : ascii) : option Z :=
  let n := Z.of_nat (nat_of_ascii c) in
  if (48 <=? n) && (n <=? 57) then Some (n - 48)
  else if (97 <=? n) && (n <=? 102) then Some (n - 87)
  else if (65 <=? n) && (n <=? 70) then Some (n - 55)
  else None.

Fixpoint hex_pairs (s : string) : Result (list byte) :=
  match s with
  | String a (String b s') =>
      match hex_value a, hex_value b with
      | Some h, Some l =>
          match hex_pairs s' with
          | Ok bs => Ok (byte_of_Z (16 * h + l) :: bs)
          | Err e => Err e
          end
      | _, _ => Err (ExternalErr "encoding/hex: invalid byte")
      end
  | _ => Ok []
  end.

(** [hex.DecodeString]. *)
Definition hex_DecodeString (s : string) : Result (list byte) :=
  if Nat.odd (String.length s)
  then Err (ExternalErr "encoding/hex: odd length hex string")
  else hex_pairs s.

(** *** package encoding/binary: a [uint32] in the byte order of the host *)

Definition uint32_decode (bigEndian : bool) (b0 b1 b2 b3 : byte) : Z :=
  if bigEndian
  then Z.lor (Z.shiftl (Z_of_byte b0) 24) (Z.lor (Z.shiftl (Z_of_byte b1) 16)
         (Z.lor (Z.shiftl (Z_of_byte b2) 8) (Z_of_byte b3)))
  else Z.lor (Z.shiftl (Z_of_byte b3) 24) (Z.lor (Z.shiftl (Z_of_byte b2) 16)
         (Z.lor (Z.shiftl (Z_of_byte b1) 8) (Z_of_byte b0))).

Definition uint32_encode (bigEndian : bool) (v : Z) : list byte :=
  let le := [byte_of_Z v; byte_of_Z (Z.shiftr v 8);
             byte_of_Z (Z.shiftr v 16); byte_of_Z (Z.shiftr v 24)] in
  if bigEndian then rev le else le.

(** [binary.Read(r, native, &size)]: the value and the rest of the input. *)
Definition binary_Read_uint32 (bigEndian : bool) (r : list byte) : Result (Z * list byte) :=
  match r with
  | [] => Err EOF
  | b0 :: b1 :: b2 :: b3 :: r' => Ok (uint32_decode bigEndian b0 b1 b2 b3, r')
  | _ => Err ErrUnexpectedEOF
  end.

(** [io.ReadFull(r, buf)] with [len(buf) = n]. *)
Definition io_ReadFull (n : nat) (r : list byte) : Result (list byte * list byte) :=
  if (n <=? length r)%nat then Ok (take n r, drop n r)
  else match r with
       | [] => Err EOF
       | _ :: _ => Err ErrUnexpectedEOF
       end.

(** *** package net *)

Definition is_digit (c : ascii) : bool :=
  let n := nat_of_ascii c in (48 <=? n)%nat && (n <=? 57)%nat.

Definition digit_value (c : ascii) : Z := Z.of_nat (nat_of_ascii c) - 48.

(** [dtoi]: the value of the leading run of digits (seen so far: [acc],
    [seen]) and the rest; [None] when the run is empty. *)
Fixpoint dtoi (s : string) (acc : Z) (seen : bool) : option (Z * string) :=
  match s with
  | String c s' =>
      if is_digit c then dtoi s' (10 * acc + digit_value c) true
      else if seen then Some (acc, s) else None
  | EmptyString => if seen then Some (acc, s) else None
  end.

(** One octet of [parseIPv4], preceded by a dot unless it is the first. *)
Definition octet (first : bool) (s : string) : option (byte * string) :=
  match s with
  | EmptyString => None
  | String c s' =>
      let digits := if first then Some s
                    else if Ascii.eqb c "." then Some s' else None in
      match digits with
      | None => None
      | Some d =>
          match dtoi d 0 false with
          | Some (n, rest) => if n <=? 255 then Some (byte_of_Z n, rest) else None
          | None => None
          end
      end
  end.

Definition v4InV6Prefix : list byte :=
  [x00; x00; x00; x00; x00; x00; x00; x00; x00; x00; xff; xff].

(** [net.IPv4(a, b, c, d)]: the 16-byte form. *)
Definition IPv4 (a b c d : byte) : list byte := v4InV6Prefix ++ [a; b; c; d].

Definition parseIPv4 (s : string) : list byte :=
  match octet true s with
  | Some (a, s1) =>
      match octet false s1 with
      | Some (b, s2) =>
          match octet false s2 with
          | Some (c, s3) =>
              match octet false s3 with
              | Some (d, EmptyString) => IPv4 a b c d
              | _ => []
              end
          | None => []
          end
      | None => []
      end
  | None => []
  end.

(** [net.ParseIP]: the empty list is Go's [nil].  The parser of the
    IPv6 text forms is a parameter. *)
Definition net_ParseIP (parseIPv6 : string → list byte) (s : string) : list byte :=
  match parseIPv4 s with
  | [] => parseIPv6 s
  | ip => ip
  end.

(** [IP.To4]. *)
Definition To4 (ip : list byte) : list byte :=
  if bool_decide (length ip = 4%nat) then ip
  else if bool_decide (length ip = 16%nat) && bool_decide (take 12 ip = v4InV6Prefix)
       then drop 12 ip
       else [].

(** *** package strconv *)

Definition maxInt64 : Z := 2 ^ 63 - 1.
Definition minInt64 : Z := - 2 ^ 63.

Fixpoint all_digits (s : string) : bool :=
  match s with
  | EmptyString => true
  | String c s' => is_digit c && all_digits s'
  end.

Fixpoint digits_value (s : string) (acc : Z) : Z :=
  match s with
  | EmptyString => acc
  | String c s' => digits_value s' (10 * acc + digit_value c)
  end.

(** Is [s] an optional sign followed by at least one decimal digit? *)
Definition decimal_syntax (s : string) : bool :=
  match s with
  | EmptyString => false
  | String c s' =>
      if Ascii.eqb c "+" || Ascii.eqb c "-"
      then negb (String.eqb s' "") && all_digits s'
      else all_digits s
  end.

(** [strconv.Atoi] on a 64-bit host: the value and whether the error is
    nil.  A syntax error yields 0, a range error the nearest bound. *)
Definition strconv_Atoi (s : string) : Z * bool :=
  if decimal_syntax s then
    match s with
    | String c s' =>
        let v := if Ascii.eqb c "-" then - digits_value s' 0
                 else if Ascii.eqb c "+" then digits_value s' 0
                 else digits_value s 0 in
        if v <? minInt64 then (minInt64, false)
        else if maxInt64 <? v then (maxInt64, false)
        else (v, true)
    | EmptyString => (0, false)
    end
  else (0, false).

(** [fmt.Sprintf("%d", n)]. *)
Definition itoa (n : Z) : string := NilZero.string_of_int (Z.to_int n).

End golang.

(** ** The image rewriter ([patch-criu.go]) *)
Module patch_criu.
Import golang.

(** The messages of the freezer tool's schema that the rewriter decodes.
    Only the fields the rewriter touches are spelled out; [netOther] and
    [dirOther] stand for the remaining fields of a message. *)
Record NetDeviceEntry := mkNetDeviceEntry {
  Name : option string;          (* *string *)
  Address : list byte;
  netOther : list byte
}.

#[warnings="-register-all"]
Inductive CgroupDirEntry :=
| mkCgroupDirEntry (DirName : string) (Children : list CgroupDirEntry) (dirOther : list byte).

Record CgMemberEntry := mkCgMemberEntry { ctlName : string; Path : string }.
Record CgSetEntry := mkCgSetEntry { setId : Z; Ctls : list CgMemberEntry }.
Record ControllerEntry := mkControllerEntry { Cnames : list string; Dirs : list CgroupDirEntry }.
Record CgroupEntry := mkCgroupEntry {
  Sets : list CgSetEntry;
  Controllers : list ControllerEntry
}.

(** What the rewriter takes from outside the repository: the byte order
    of the host ([native]), the spare capacity of the buffers that
    [ioutil.ReadFile] returns, the [ip addr showdump] utility, the IPv6
    parser of package net, and the generated protobuf codecs. *)
Record Env := mkEnv {
  bigEndian : bool;
  slack : nat;
  ipAddrShowdump : list byte → Result (list byte);
  parseIPv6 : string → list byte;
  UnmarshalNetDevice : list byte → Result NetDeviceEntry;
  MarshalNetDevice : NetDeviceEntry → Result (list byte);
  UnmarshalCgroup : list byte → Result CgroupEntry;
  MarshalCgroup : CgroupEntry → Result (list byte)
}.

(** *** The record loop shared by [rewriteMacAddress] and
    [rewriteCgroupPaths]

    [rewriteRecords] is the body of the [for] loop: [r] is what is left
    of the source file, the first component of the result is what has
    been written to the destination.  Every iteration consumes four
    bytes or stops, so [length r] iterations are enough. *)
Fixpoint rewriteRecords (E : Env) (patch : list byte → Result (list byte))
    (fuel : nat) (r : list byte) : list byte * Run (option error) :=
  match binary_Read_uint32 (bigEndian E) r with
  | Err EOF => ([], Done None)
  | Err e => ([], Done (Some e))
  | Ok (size, r1) =>
      match io_ReadFull (Z.to_nat size) r1 with
      | Err e => ([], Done (Some e))
      | Ok (buf, r2) =>
          match patch buf with
          | Err e => ([], Done (Some e))
          | Ok data =>
              let rec := uint32_encode (bigEndian E) (Z.of_nat (length data) mod 2 ^ 32) ++ data in
              match fuel with
              | O => (rec, Timeout)
              | S fuel' =>
                  let (out, res) := rewriteRecords E patch fuel' r2 in
                  (rec ++ out, res)
              end
          end
      end
  end.

(** Open the source, remove and create the destination, copy the magic
    header ([io.CopyN(destFp, srcFp, 4)]), then run the record loop. *)
Definition rewriteFile (E : Env) (patch : list byte → Result (list byte))
    (srcPath destPath name : string) (fs : os.FS) : os.FS * Run (option error) :=
  match os.ReadFile srcPath name fs with
  | Err e => (fs, Done (Some e))
  | Ok src =>
      let fs1 := (os.Remove destPath name fs).1 in
      match os.writable destPath name fs1 with
      | Some e => (fs1, Done (Some e))
      | None =>
          let put out := os.with_files fs1 (<[(destPath, name) := out]> (os.files fs1)) in
          if (length src <? 4)%nat then (put src, Done (Some EOF))
          else
            let (out, res) := rewriteRecords E patch (length src) (drop 4 src) in
            (put (take 4 src ++ out), res)
      end
  end.

Definition patchMac (E : Env) (mac : string) (buf : list byte) : Result (list byte) :=
  match UnmarshalNetDevice E buf with
  | Err e => Err e
  | Ok device =>
      if bool_decide (Name device = Some "eth0"%string) then
        match hex_DecodeString mac with
        | Err e => Err e
        | Ok macHex => MarshalNetDevice E (mkNetDeviceEntry (Name device) macHex (netOther device))
        end
      else MarshalNetDevice E device
  end.

Definition rewriteMacAddress (E : Env) (srcPath destPath mac : string) (fs : os.FS)
    : os.FS * Run (option error) :=
  rewriteFile E (patchMac E mac) srcPath destPath "netdev-8.img" fs.

(** *** [rewriteBytes] *)
Fixpoint rewriteBytes (E : Env) (fuel : nat) (data from to : list byte) (replaced : Z)
    : Run (list byte * Z) :=
  match bytes_Index data from with
  | None => Done (data, replaced)
  | Some pos =>
      if (pos + length to <=? length data + slack E)%nat then
        match fuel with
        | O => Timeout
        | S fuel' => rewriteBytes E fuel' (copy_at data pos to) from to (replaced + 1)
        end
      else Panic
  end.

Definition replaceWrite (dir name : string) (data : list byte) (fs : os.FS)
    : os.FS * option error :=
  os.WriteFile dir name data (os.Remove dir name fs).1.

(** *** The regular expression of [rewriteIPAddress]

    [    inet ((?:[0-9]{0,3}\.){3}[0-9]{0,3})/[0-9]+ scope global eth0].
    Every repetition of digits is followed by a character that is not a
    digit, so at a given start the only way to match is to take the
    whole run of digits: no backtracking is needed. *)

Fixpoint take_digits (max : nat) (s : string) : string * string :=
  match max, s with
  | S m, String c s' =>
      if is_digit c then let (d, r) := take_digits m s' in (String c d, r)
      else (EmptyString, s)
  | _, _ => (EmptyString, s)
  end.

Fixpoint skip_digits (s : string) : string :=
  match s with
  | String c s' => if is_digit c then skip_digits s' else s
  | EmptyString => s
  end.

Definition strip_prefix (p s : string) : option string :=
  if String.prefix p s then Some (string_drop (String.length p) s) else None.

(** [[0-9]{0,3}] followed by the character [sep]. *)
Definition digits_then (sep : ascii) (s : string) : option (string * string) :=
  let (d, r) := take_digits 3 s in
  match r with
  | String c r' => if Ascii.eqb c sep then Some (d, r') else None
  | EmptyString => None
  end.

(** A match starting at the head of [s]: the text of group 1. *)
Definition match_inet (s : string) : option string :=
  s0 ← strip_prefix "    inet " s;
  '(p1, s1) ← digits_then "." s0;
  '(p2, s2) ← digits_then "." s1;
  '(p3, s3) ← digits_then "." s2;
  '(p4, s4) ← digits_then "/" s3;
  match s4 with
  | String c _ =>
      if is_digit c && String.prefix " scope global eth0" (skip_digits s4)
      then Some (p1 +:+ "." +:+ p2 +:+ "." +:+ p3 +:+ "." +:+ p4)
      else None
  | EmptyString => None
  end.

(** [FindSubmatch(dump)[1]], the leftmost match; [None] is [nil]. *)
Fixpoint FindSubmatch (dump : string) : option string :=
  match match_inet dump with
  | Some g => Some g
  | None =>
      match dump with
      | EmptyString => None
      | String _ d => FindSubmatch d
      end
  end.

(** *** [rewriteIPAddress] *)
Definition rewriteIPAddress (E : Env) (fuel : nat) (srcPath destPath ip : string)
    (fs : os.FS) : os.FS * Run (option error) :=
  match os.ReadFile srcPath "ifaddr-8.img" fs with
  | Err e => (fs, Done (Some e))
  | Ok data =>
  match ipAddrShowdump E data with
  | Err e => (fs, Done (Some e))
  | Ok dump =>
  match FindSubmatch (string_of_bytes dump) with
  | None => (fs, Done (Some (Errorf "can't find old inet address")))
  | Some found1 =>
  let oldAddress := To4 (net_ParseIP (parseIPv6 E) found1) in
  match net_ParseIP (parseIPv6 E) ip with
  | [] => (fs, Done (Some (Errorf ("can't parse " +:+ ip +:+ " as an IPv4 Address"))))
  | parsed =>
  let newAddress := To4 parsed in
  match rewriteBytes E fuel data oldAddress newAddress 0 with
  | Timeout => (fs, Timeout)
  | Panic => (fs, Panic)
  | Done (data', replaced) =>
  if replaced <? 1
  then (fs, Done (Some (Errorf "can't find old address pos in ip addr dump")))
  else
  match replaceWrite destPath "ifaddr-8.img" data' fs with
  | (fs1, Some e) => (fs1, Done (Some e))
  | (fs1, None) =>
  match os.ReadFile srcPath "route-8.img" fs1 with
  | Err e => (fs1, Done (Some e))
  | Ok routeData =>
  match rewriteBytes E fuel routeData oldAddress newAddress 0 with
  | Timeout => (fs1, Timeout)
  | Panic => (fs1, Panic)
  | Done (routeData', replaced') =>
  if replaced' <? 1
  then (fs1, Done (Some (Errorf "can't find old address pos in ip route dump")))
  else
    let (fs2, err) := replaceWrite destPath "route-8.img" routeData' fs1 in
    (fs2, Done err)
  end end end end end end end end.

(** *** [rewriteCgroupPaths] *)
Fixpoint rewriteCgroupDirEntry (dir : CgroupDirEntry) (fromPattern toPattern : string)
    : CgroupDirEntry :=
  match dir with
  | mkCgroupDirEntry name children other =>
      mkCgroupDirEntry (strings_Replace name fromPattern toPattern)
        (List.map (λ child, rewriteCgroupDirEntry child fromPattern toPattern) children)
        other
  end.

Definition patchCgroup (E : Env) (fromPattern toPattern : string) (buf : list byte)
    : Result (list byte) :=
  match UnmarshalCgroup E buf with
  | Err e => Err e
  | Ok cgroupEntry =>
      let sets :=
        List.map (λ set, mkCgSetEntry (setId set)
          (List.map (λ ctl, mkCgMemberEntry (ctlName ctl)
                      (strings_Replace (Path ctl) fromPattern toPattern)) (Ctls set)))
          (Sets cgroupEntry) in
      let controllers :=
        List.map (λ controller, mkControllerEntry (Cnames controller)
          (List.map (λ dir, rewriteCgroupDirEntry dir fromPattern toPattern) (Dirs controller)))
          (Controllers cgroupEntry) in
      MarshalCgroup E (mkCgroupEntry sets controllers)
  end.

Definition rewriteCgroupPaths (E : Env) (srcPath destPath fromPattern toPattern : string)
    (fs : os.FS) : os.FS * Run (option error) :=
  rewriteFile E (patchCgroup E fromPattern toPattern) srcPath destPath "cgroup.img" fs.

(** *** [main]

    One turn of the loop over [os.Args[3:]]: [kv[1]] panics when the
    directive has a known key and no [=]. *)
Definition directive (E : Env) (fuel : nat) (srcPath destPath spec : string) (fs : os.FS)
    : os.FS * Run (option error) :=
  match strings_SplitN2 spec "=" with
  | [] => (fs, Panic)
  | key :: value =>
      if String.eqb key "ip" then
        match value with
        | v :: _ => rewriteIPAddress E fuel srcPath destPath v fs
        | [] => (fs, Panic)
        end
      else if String.eqb key "mac" then
        match value with
        | v :: _ => rewriteMacAddress E srcPath destPath v fs
        | [] => (fs, Panic)
        end
      else if String.eqb key "cgroup" then
        match value with
        | v :: _ =>
            match strings_SplitN2 v ":" with
            | old :: new :: _ => rewriteCgroupPaths E srcPath destPath old new fs
            | _ => (fs, Done (Some (Errorf "invalid cgroup= parameter")))
            end
        | [] => (fs, Panic)
        end
      else (fs, Done (Some (Errorf ("unkown key: " +:+ key))))
  end.

(** The loop of [main]: the exit status, 1 at the first failing directive. *)
Fixpoint directives (E : Env) (fuel : nat) (srcPath destPath : string) (specs : list string)
    (fs : os.FS) : os.FS * Run Z :=
  match specs with
  | [] => (fs, Done 0)
  | spec :: specs' =>
      match directive E fuel srcPath destPath spec fs with
      | (fs1, Done None) => directives E fuel srcPath destPath specs' fs1
      | (fs1, Done (Some _)) => (fs1, Done 1)
      | (fs1, Panic) => (fs1, Panic)
      | (fs1, Timeout) => (fs1, Timeout)
      end
  end.

Definition main (E : Env) (fuel : nat) (Args : list string) (fs : os.FS) : os.FS * Run Z :=
  match Args with
  | _ :: srcPath :: destPath :: specs => directives E fuel srcPath destPath specs fs
  | _ => (fs, Done 1)
  end.

End patch_criu.

(** ** Package execdriver: the checkpoint context *)
Module execdriver.

(** [Command], with the fields the checkpoint and restore drivers read.
    The three pipes are those of [ProcessConfig]: the inode of the pipe
    when the caller attached one. *)
Record Command := mkCommand {
  ID : string;
  Rootfs : string;
  ContainerPid : Z;
  StdinPipe : option Z;
  StdoutPipe : option Z;
  StderrPipe : option Z
}.

(** [Checkpoint].  [Volumes] is the Go map as the list of its entries in
    the order a [range] loop visits them. *)
Record Checkpoint := mkCheckpoint {
  Command_ : Command;
  ImagePath : string;
  Volumes : list (string * string)
}.

Record ExitStatus := mkExitStatus { ExitCode : Z; OOMKilled : bool }.

End execdriver.

(** ** Package daemon: registry, clone coordinator, job handlers *)
Module daemon.
Import golang.

Record NetworkSettings := mkNetworkSettings {
  IPAddress : string;
  IPPrefixLen : Z;
  Gateway : string;
  Bridge : string;
  MacAddress : string
}.

(** A container, without its registry of checkpoints (kept in [Daemon],
    so that a checkpoint can hold its container). *)
Record Container := mkContainer {
  Container_ID : string;
  Container_root : string;
  Container_NetworkSettings : NetworkSettings;
  Container_Volumes : list (string * string);
  Container_command : execdriver.Command
}.

Record ContainerCheckpoint := mkContainerCheckpoint {
  ID : string;
  NetworkSettings_ : NetworkSettings;
  CreatedAt : Z;
  container : Container
}.

(** [t.Before(u)]. *)
Definition Before (t u : Z) : bool := t <? u.

Definition imagePath (cp : ContainerCheckpoint) : string :=
  os.Join (os.Join (Container_root (container cp)) "checkpoints") (ID cp).

Definition execdriverCheckpoint (cp : ContainerCheckpoint) : execdriver.Checkpoint :=
  execdriver.mkCheckpoint (Container_command (container cp)) (imagePath cp)
    (Container_Volumes (container cp)).

(** *** [clone] *)

(** The loop over [dirents]. *)
Fixpoint linkAll (imagePath newImagePath : string) (dirents : list string) (fs : os.FS)
    : os.FS * option error :=
  match dirents with
  | [] => (fs, None)
  | name :: rest =>
      if String.eqb name "restore.pid" then linkAll imagePath newImagePath rest fs
      else match os.Link imagePath name newImagePath name fs with
           | (fs1, Some e) => (fs1, Some e)
           | (fs1, None) => linkAll imagePath newImagePath rest fs1
           end
  end.

Definition clone (cp : ContainerCheckpoint) (forContainer : Container) (fs : os.FS)
    : os.FS * Result ContainerCheckpoint :=
  let newCheckpoint :=
    mkContainerCheckpoint (ID cp) (NetworkSettings_ cp) (CreatedAt cp) forContainer in
  let newImagePath := imagePath newCheckpoint in
  match os.MkdirAll newImagePath fs with
  | (fs1, Some e) => (fs1, Err e)
  | (fs1, None) =>
      match os.Readdirnames (imagePath cp) fs1 with
      | Err e => (fs1, Err e)
      | Ok dirents =>
          match linkAll (imagePath cp) newImagePath dirents fs1 with
          | (fs2, Some e) => (fs2, Err e)
          | (fs2, None) => (fs2, Ok newCheckpoint)
          end
      end
  end.

(** *** [patchImage] *)

(** The arguments of [exec.Command("patch-criu", ...)], after the name of
    the program. *)
Definition patchImage_args (cp : ContainerCheckpoint) (tmpdir : string) : list string :=
  [ imagePath cp; tmpdir;
    "ip=" +:+ IPAddress (Container_NetworkSettings (container cp));
    "mac=" +:+ strings_Replace (MacAddress (Container_NetworkSettings (container cp))) ":" "" ].

(** The directives among them. *)
Definition patchImage_directives (cp : ContainerCheckpoint) : list string :=
  drop 2 (patchImage_args cp "").

Fixpoint renameAll (tmpdir imagePath : string) (dirents : list string) (fs : os.FS)
    : os.FS * option error :=
  match dirents with
  | [] => (fs, None)
  | name :: rest =>
      match os.Rename tmpdir name imagePath name fs with
      | (fs1, Some e) => (fs1, Some e)
      | (fs1, None) => renameAll tmpdir imagePath rest fs1
      end
  end.

(** [tmpdir] is the name [ioutil.TempDir] picks.  The command run is the
    image rewriter of this repository; the text of its error is not
    kept.  The deferred [os.Remove(tmpdir)] runs on every return after
    the directory was made. *)
Definition patchImage (E : patch_criu.Env) (fuel : nat) (tmpdir : string)
    (cp : ContainerCheckpoint) (fs : os.FS) : os.FS * Run (option error) :=
  match os.MkdirAll tmpdir fs with
  | (fs1, Some e) => (fs1, Done (Some e))
  | (fs1, None) =>
      let finish (r : os.FS * option error) : os.FS * Run (option error) :=
        ((os.Rmdir tmpdir r.1).1, Done r.2) in
      match patch_criu.main E fuel ("patch-criu"%string :: patchImage_args cp tmpdir) fs1 with
      | (fs2, Timeout) => (fs2, Timeout)
      | (fs2, Panic) => finish (fs2, Some (Errorf "patch-criu exit status 2"))
      | (fs2, Done status) =>
          if status =? 0 then
            match os.Readdirnames tmpdir fs2 with
            | Err e => finish (fs2, Some e)
            | Ok dirents => finish (renameAll tmpdir (imagePath cp) dirents fs2)
            end
          else finish (fs2, Some (Errorf "patch-criu exit status 1"))
      end
  end.

(** *** The job handlers *)

Definition error_text (e : error) : string :=
  match e with
  | SysErr ENOENT path => path +:+ ": no such file or directory"
  | SysErr EEXIST path => path +:+ ": file exists"
  | SysErr ENOTEMPTY path => path +:+ ": directory not empty"
  | SysErr EROFS path => path +:+ ": read-only file system"
  | SysErr EPERM path => path +:+ ": operation not permitted"
  | Errorf msg => msg
  | EOF => "EOF"
  | ErrUnexpectedEOF => "unexpected EOF"
  | ExternalErr what => what
  end.

(** [engine.Status]; [StatusErr] carries the message of [job.Errorf]. *)
Inductive Status :=
| StatusOK
| StatusErr (msg : string).

Record Job := mkJob {
  Name : string;
  Args : list string;
  GetenvBool_clone : bool      (* job.GetenvBool("clone") *)
}.

(** The methods of the runtime whose code lies outside these files, and
    the registry [container.Checkpoints] of every container. *)
Record Daemon := mkDaemon {
  Get : string → option Container;
  Checkpoints : Container → gmap string ContainerCheckpoint;
  Create : Container → Result Container;
  Container_Checkpoint : Container → bool → option error;
  Container_Restore : Container → ContainerCheckpoint → bool → os.FS → os.FS * option error
}.

(** What a handler asks of a container, in order. *)
Inductive Call :=
| CallCheckpoint (c : Container) (stop : bool)
| CallRestore (c : Container) (cp : ContainerCheckpoint) (clone : bool)
| LogEvent (c : Container) (action : string).

Definition ContainerCheckpoint_job (d : Daemon) (job : Job) : Status * list Call :=
  match Args job with
  | [name; arg1] =>
      match Get d name with
      | None => (StatusErr ("No such container: " +:+ name), [])
      | Some c =>
          let stop := String.eqb arg1 "1" in
          match Container_Checkpoint d c stop with
          | Some err =>
              (StatusErr ("Cannot checkpoint container " +:+ name +:+ ": " +:+ error_text err),
               [CallCheckpoint c stop])
          | None => (StatusOK, [CallCheckpoint c stop; LogEvent c "checkpoint"])
          end
      end
  | _ => (StatusErr ("Usage: " +:+ Name job +:+ " CONTAINER"), [])
  end.

Definition cloneContainer (d : Daemon) (c : Container) : Result Container :=
  match Create d c with
  | Err err =>
      Err (Errorf ("Failed to create cloned container of " +:+ Container_ID c +:+ ": "
                   +:+ error_text err))
  | Ok clonedContainer => Ok clonedContainer
  end.

Definition ContainerRestore (d : Daemon) (job : Job) (fs : os.FS)
    : os.FS * Status * list Call :=
  match Args job with
  | [name; checkpointID] =>
      match Get d name with
      | None => (fs, StatusErr ("No such container: " +:+ name), [])
      | Some c =>
          match Checkpoints d c !! checkpointID with
          | None =>
              (fs, StatusErr ("No such checkpoint " +:+ checkpointID +:+ " for container "
                              +:+ Container_ID c), [])
          | Some checkpoint =>
              let clone_ := GetenvBool_clone job in
              let restore (c' : Container) (cp : ContainerCheckpoint) (fs' : os.FS) :=
                match Container_Restore d c' cp clone_ fs' with
                | (fs'', Some err) =>
                    (fs'', StatusErr ("Cannot restore container " +:+ name +:+ ": "
                                      +:+ error_text err), [CallRestore c' cp clone_])
                | (fs'', None) =>
                    (fs'', StatusOK, [CallRestore c' cp clone_; LogEvent c' "restore"])
                end in
              if clone_ then
                match cloneContainer d c with
                | Err err => (fs, StatusErr (error_text err), [])
                | Ok cloned =>
                    match clone checkpoint cloned fs with
                    | (fs1, Err err) => (fs1, StatusErr (error_text err), [])
                    | (fs1, Ok checkpoint') => restore cloned checkpoint' fs1
                    end
                end
              else restore c checkpoint fs
          end
      end
  | _ => (fs, StatusErr ("Usage: " +:+ Name job +:+ " CONTAINER CHECKPOINT_ID"), [])
  end.

(** *** The list of checkpoints of [ContainerInspect]

    [sift checkpoint checkpoints i] is the inner loop
    [for i := len(checkpoints)-1; i > 0; i--], entered with the new
    checkpoint at index [i]. *)
Fixpoint sift (checkpoint : ContainerCheckpoint) (checkpoints : list ContainerCheckpoint)
    (i : nat) : list ContainerCheckpoint :=
  match i with
  | O => checkpoints
  | S j =>
      match checkpoints !! j with
      | Some prev =>
          if Before (CreatedAt prev) (CreatedAt checkpoint) then checkpoints
          else sift checkpoint (<[j := checkpoint]> (<[S j := prev]> checkpoints)) j
      | None => checkpoints
      end
  end.

(** The outer loop, over the registry in the order [visit] in which
    [range container.Checkpoints] yields its values. *)
Definition ContainerInspect_checkpoints (visit : list ContainerCheckpoint)
    : list ContainerCheckpoint :=
  fold_left
    (λ checkpoints checkpoint,
       sift checkpoint (checkpoints ++ [checkpoint]) (length checkpoints))
    visit [].

End daemon.

(** ** The native driver: [Checkpoint] and [execRestore] *)
Module native.
Import golang execdriver.

(** What the driver does to the host, in order. *)
Inductive Event :=
| EvExec (path : string) (args : list string)     (* a command is run to its end *)
| EvSetInterfaceMaster (name master : string)
| EvInterfaceUp (name : string)
| EvCloseWaitForStart
| EvReadFile (path : string)
| EvFindProcess (pid : Z)
| EvStartCallback (pid : Z)
| EvWait (pid : Z)
| EvStat (path : string)
| EvRemove (path : string)
| EvKill (pid sig : Z).

Inductive RunOutcome :=
| RunOk
| RunExitError (status : Z)      (* *exec.ExitError *)
| RunError (e : error).

Inductive WaitOutcome :=
| WaitState (status : Z)         (* a process state and a nil error *)
| WaitExitError                  (* no state and an *exec.ExitError *)
| WaitError (e : error).

(** The answers of the host: the kernel, the freezer tool and the
    libraries outside the repository. *)
Record Host := mkHost {
  GenerateRandomName : string;                       (* utils.GenerateRandomName("veth", 7) *)
  Run_ : string → list string → RunOutcome;          (* exec.Cmd.Run *)
  CombinedOutput : string → list string → string * option error;
  SetInterfaceMaster : string → string → option error;
  InterfaceUp : string → option error;
  ReadFile : string → Result string;
  FindProcess : Z → option error;
  Wait : Z → WaitOutcome;
  Stat : string → option error;
  Remove : string → option error;
  Kill_ : Z → Z → option error
}.

Record driver := mkDriver {
  root : string;
  initPath : string;
  activeContainers : gset string      (* the keys of the map *)
}.

Definition Kill (H : Host) (pid sig : Z) : option error * list Event :=
  (Kill_ H pid sig, [EvKill pid sig]).

(** *** [Checkpoint] *)

Definition Checkpoint_cmdArgs (checkpoint : execdriver.Checkpoint) : list string :=
  let c := Command_ checkpoint in
  [ "dump"; "-v4"; "-o"; "/dev/stdout"; "--manage-cgroups"; "--evasive-devices";
    "--ext-mount-map"; "/etc/resolv.conf:/etc/resolv.conf";
    "--ext-mount-map"; "/etc/hosts:/etc/hosts";
    "--ext-mount-map"; "/etc/hostname:/etc/hostname";
    "--ext-mount-map"; "/.dockerinit:/.dockerinit";
    "-D"; ImagePath checkpoint;
    "-t"; itoa (ContainerPid c);
    "--root"; Rootfs c ]%string
  ++ flat_map (λ v : string * string, ["--ext-mount-map"%string; v.1 +:+ ":" +:+ v.2])
       (Volumes checkpoint).

Definition Checkpoint (H : Host) (d : driver) (checkpoint : execdriver.Checkpoint)
    (stop : bool) : option error * list Event :=
  let c := Command_ checkpoint in
  if bool_decide (ID c ∈ activeContainers d) then
    let cmdArgs := Checkpoint_cmdArgs checkpoint in
    match CombinedOutput H "criu" cmdArgs with
    | (output, Some err) =>
        (Some (Errorf ("failed checkpointing container " +:+ ID c +:+ ": "
                       +:+ daemon.error_text err +:+ "; " +:+ output)),
         [EvExec "criu" cmdArgs])
    | (_, None) => (None, [EvExec "criu" cmdArgs])
    end
  else (Some (Errorf ("active container for " +:+ ID c +:+ " does not exist")), []).

(** *** [execRestore] *)

Definition subsystems : list string :=
  [ "devices"; "memory"; "cpu"; "cpuset"; "cpuacct"; "blkio"; "perf_event"; "freezer" ]%string.

Definition cgroupPath (subsys id : string) : string :=
  "/sys/fs/cgroup/" +:+ subsys +:+ "/docker/" +:+ id.

(** The deferred function over the subsystems. *)
Definition cleanCgroups (H : Host) (id : string) : list Event :=
  flat_map
    (λ subsys,
       let path := cgroupPath subsys id in
       match Stat H path with
       | None => [EvStat path; EvRemove path]
       | Some _ => [EvStat path]
       end)
    subsystems.

Definition inheritFd (fd : Z) (pipe : option Z) : list string :=
  match pipe with
  | Some ino => ["--inherit-fd"%string; "fd[" +:+ itoa fd +:+ "]:pipe:[" +:+ itoa ino +:+ "]"]
  | None => []
  end.

Definition execRestore_Args (vethName pidFile : string) (checkpoint : execdriver.Checkpoint)
    : list string :=
  let c := Command_ checkpoint in
  [ "criu"; "restore"; "-v4";
    "-o"; "/tmp/restore.log";
    "--restore-detached";
    "--restore-sibling";
    "--manage-cgroups";
    "--evasive-devices";
    "--ext-mount-map"; "/etc/resolv.conf:/var/lib/docker/containers/" +:+ ID c +:+ "/resolv.conf";
    "--ext-mount-map"; "/etc/hosts:/var/lib/docker/containers/" +:+ ID c +:+ "/hosts";
    "--ext-mount-map"; "/etc/hostname:/var/lib/docker/containers/" +:+ ID c +:+ "/hostname";
    "--ext-mount-map"; "/.dockerinit:/var/lib/docker/init/dockerinit-1.0.1";
    "--veth-pair"; "eth0=" +:+ vethName;
    "--pidfile"; pidFile;
    "-D"; ImagePath checkpoint;
    "--root"; Rootfs c ]%string
  ++ inheritFd 0 (StdinPipe c) ++ inheritFd 1 (StdoutPipe c) ++ inheritFd 2 (StderrPipe c).

(** The body of [execRestore], before its deferred calls.
    [startCallback] tells whether the callback is not nil. *)
Definition execRestore_body (H : Host) (checkpoint : execdriver.Checkpoint) (startCallback : bool)
    (vethName pidFile : string) : Run (Z * option error) * list Event :=
  let Args := execRestore_Args vethName pidFile checkpoint in
  let ev0 := [EvExec "/usr/local/sbin/criu" Args] in
  match Run_ H "/usr/local/sbin/criu" Args with
  | RunExitError status => (Done (status, Some (ExternalErr "exit status")), ev0)
  | RunError e => (Done (-1, Some e), ev0)
  | RunOk =>
  let ev1 := ev0 ++ [EvSetInterfaceMaster vethName "docker0"] in
  match SetInterfaceMaster H vethName "docker0" with
  | Some err => (Done (-1, Some err), ev1)
  | None =>
  let ev2 := ev1 ++ [EvInterfaceUp vethName] in
  match InterfaceUp H vethName with
  | Some err => (Done (-1, Some err), ev2)
  | None =>
  let ev3 := ev2 ++ [EvCloseWaitForStart; EvReadFile pidFile] in
  match ReadFile H pidFile with
  | Err err => (Done (-1, Some err), ev3)
  | Ok sPid =>
  let pid := (strconv_Atoi sPid).1 in
  let ev4 := ev3 ++ [EvFindProcess pid] in
  match FindProcess H pid with
  | Some err => (Done (-1, Some err), ev4)
  | None =>
  let ev5 := ev4 ++ (if startCallback then [EvStartCallback pid] else []) ++ [EvWait pid] in
  match Wait H pid with
  | WaitError err => (Done (-1, Some err), ev5)
  | WaitExitError => (Panic, ev5)
  | WaitState exitCode => (Done (exitCode, None), ev5)
  end end end end end end.

(** [execRestore]: the body, then the deferred calls, last deferred
    first. *)
Definition execRestore (H : Host) (checkpoint : execdriver.Checkpoint) (startCallback : bool)
    : Run (Z * option error) * list Event :=
  let c := Command_ checkpoint in
  let pidFile := os.Join (ImagePath checkpoint) "restore.pid" in
  let vethName := GenerateRandomName H in
  let (res, events) := execRestore_body H checkpoint startCallback vethName pidFile in
  (res, events ++ cleanCgroups H (ID c) ++ [EvRemove pidFile]).

End native.

(** ** Auxiliary notions used in the statements *)
Module notions.
Import golang daemon native.

(** Orders on checkpoints, and the checkpoints created at instant [t]. *)
Definition older_first (a b : ContainerCheckpoint) : Prop := CreatedAt a <= CreatedAt b.
Definition newer_first (a b : ContainerCheckpoint) : Prop := CreatedAt b <= CreatedAt a.
Definition created_at (t : Z) (c : ContainerCheckpoint) : Prop := CreatedAt c = t.

#[global] Instance created_at_dec t c : Decision (created_at t c).
Proof. unfold created_at. apply _. Defined.

(** Insertion into a list kept newest first, after the checkpoints that
    are not older: the mirror image of [sift]. *)
Fixpoint insert_desc (x : ContainerCheckpoint) (r : list ContainerCheckpoint)
    : list ContainerCheckpoint :=
  match r with
  | [] => [x]
  | y :: r' =>
      if Before (CreatedAt y) (CreatedAt x) then x :: y :: r'
      else y :: insert_desc x r'
  end.

(** A string without its colons. *)
Fixpoint without_colons (s : string) : string :=
  match s with
  | EmptyString => EmptyString
  | String c s' => if Ascii.eqb c ":" then without_colons s' else String c (without_colons s')
  end.

(** Every [--ext-mount-map] stands before [-D] in an argument list. *)
Definition maps_before_D (args : list string) : Prop :=
  ∀ i j : nat, args !! i = Some "--ext-mount-map"%string → args !! j = Some "-D"%string →
               (i < j)%nat.

(** Events that signal or reap a process. *)
Definition is_teardown (e : Event) : bool :=
  match e with
  | EvKill _ _ | EvWait _ => true
  | _ => false
  end.

(** Events of the cleanup of cgroup directories. *)
Definition is_cgroup_cleanup (id : string) (e : Event) : bool :=
  match e with
  | EvStat p | EvRemove p =>
      bool_decide (p ∈ List.map (λ subsys, cgroupPath subsys id) subsystems)
  | _ => false
  end.

(** A host that differs from [H] in the answers of [os.Remove] only. *)
Definition with_Remove (H : Host) (remove : string → option error) : Host :=
  mkHost (GenerateRandomName H) (Run_ H) (CombinedOutput H) (SetInterfaceMaster H)
    (InterfaceUp H) (ReadFile H) (FindProcess H) (Wait H) (Stat H) remove (Kill_ H).

End notions.

(** ** Concrete inputs *)
Module examples.
Import golang execdriver daemon native.
Open Scope string_scope.
Open Scope list_scope.

(** Containers [abcd] (172.17.0.2) and [ef01] (172.17.0.3). *)
Definition net_abcd : NetworkSettings :=
  mkNetworkSettings "172.17.0.2" 16 "172.17.42.1" "docker0" "02:42:ac:11:00:02".
Definition net_ef01 : NetworkSettings :=
  mkNetworkSettings "172.17.0.3" 16 "172.17.42.1" "docker0" "02:42:ac:11:00:03".

Definition command_abcd : Command := mkCommand "abcd" "/rootfs/abcd" 1234 None None None.
Definition command_ef01 : Command := mkCommand "ef01" "/rootfs/ef01" 0 None None None.

Definition abcd : Container :=
  mkContainer "abcd" "/var/lib/docker/containers/abcd" net_abcd [("/srv/data", "/data")]
    command_abcd.
Definition ef01 : Container :=
  mkContainer "ef01" "/var/lib/docker/containers/ef01" net_ef01 [("/srv/data", "/data")]
    command_ef01.

(** Checkpoints of [abcd]: [cp1] older than [cp2], [cp3] as old as [cp2]. *)
Definition cp1 : ContainerCheckpoint := mkContainerCheckpoint "cp1" net_abcd 100 abcd.
Definition cp2 : ContainerCheckpoint := mkContainerCheckpoint "cp2" net_abcd 200 abcd.
Definition cp3 : ContainerCheckpoint := mkContainerCheckpoint "cp3" net_abcd 200 abcd.

(** [cp1] cloned for [ef01]. *)
Definition cp1_ef01 : ContainerCheckpoint := mkContainerCheckpoint "cp1" net_abcd 100 ef01.

(** *** A host for the image rewriter

    The address-dump utility of the example prints the four bytes that
    follow the magic header; there are no protobuf codecs. *)
Definition magic : list byte := [x54; x13; x16; x21].

Definition showdump (data : list byte) : Result (list byte) :=
  match drop 4 data with
  | a :: b :: c :: d :: _ =>
      Ok (bytes_of_string
            ("2: eth0    inet " +:+ itoa (Z_of_byte a) +:+ "." +:+ itoa (Z_of_byte b) +:+ "."
             +:+ itoa (Z_of_byte c) +:+ "." +:+ itoa (Z_of_byte d)
             +:+ "/16 scope global eth0"))
  | _ => Err (ExternalErr "ip: exit status 1")
  end.

Definition rewriter_env : patch_criu.Env :=
  patch_criu.mkEnv false 0 showdump (λ _, [])
    (λ _, Err (ExternalErr "proto: no codec")) (λ _, Err (ExternalErr "proto: no codec"))
    (λ _, Err (ExternalErr "proto: no codec")) (λ _, Err (ExternalErr "proto: no codec")).

(** Source [/src]: the address 172.17.0.2 is in [ifaddr-8.img] and not in
    [route-8.img].  Destination [/dst] holds files of an earlier run. *)
Definition fs_route_miss : os.FS :=
  os.mkFS
    (list_to_map
       [ (("/src", "ifaddr-8.img"), magic ++ [xac; x11; x00; x02; x10]);
         (("/src", "route-8.img"), magic ++ [x0a; x01; x01; x01]);
         (("/dst", "ifaddr-8.img"), magic ++ [xc0; xa8; x00; x07; x10]);
         (("/dst", "route-8.img"), magic ++ [xc0; xa8; x00; x01]) ])
    {[ "/src"; "/dst" ]} ∅.

(** A utility that reports 172.17.0.2 whatever it reads. *)
Definition stale_env : patch_criu.Env :=
  patch_criu.mkEnv false 0
    (λ _, Ok (bytes_of_string "2: eth0    inet 172.17.0.2/16 scope global eth0"))
    (λ _, [])
    (λ _, Err (ExternalErr "proto: no codec")) (λ _, Err (ExternalErr "proto: no codec"))
    (λ _, Err (ExternalErr "proto: no codec")) (λ _, Err (ExternalErr "proto: no codec")).

(** Source [/src] whose [ifaddr-8.img] does not hold the bytes of
    172.17.0.2, and no [netdev-8.img]. *)
Definition fs_ifaddr_miss : os.FS :=
  os.mkFS
    (list_to_map
       [ (("/src", "ifaddr-8.img"), magic ++ [xac; x11; x00; x03; x10]);
         (("/src", "route-8.img"), magic ++ [xac; x11; x00; x02]);
         (("/dst", "ifaddr-8.img"), magic ++ [xc0; xa8; x00; x07; x10]);
         (("/dst", "route-8.img"), magic ++ [xc0; xa8; x00; x01]) ])
    {[ "/src"; "/dst" ]} ∅.

(** A stand-in for the protobuf codec: every record is the device [eth0],
    and the body of the record is its address. *)
Definition eth0_env : patch_criu.Env :=
  patch_criu.mkEnv false 0 showdump (λ _, [])
    (λ buf, Ok (patch_criu.mkNetDeviceEntry (Some "eth0") buf []))
    (λ device, Ok (patch_criu.Address device))
    (λ _, Err (ExternalErr "proto: no codec")) (λ _, Err (ExternalErr "proto: no codec")).

(** Source [/src] with one device of address 02:42:ac:11:00:02;
    destination [/dst] with the file of an earlier run. *)
Definition fs_netdev : os.FS :=
  os.mkFS
    (list_to_map
       [ (("/src", "netdev-8.img"), magic ++ [x06; x00; x00; x00; x02; x42; xac; x11; x00; x02]);
         (("/dst", "netdev-8.img"), magic ++ [x06; x00; x00; x00; x02; x42; xac; x11; x00; x01]) ])
    {[ "/src"; "/dst" ]} ∅.

(** An image directory already rewritten for 10.0.0.5. *)
Definition fs_rewritten : os.FS :=
  os.mkFS
    (list_to_map
       [ (("/img", "ifaddr-8.img"), magic ++ [x0a; x00; x00; x05; x10]);
         (("/img", "route-8.img"), magic ++ [x0a; x00; x00; x05]) ])
    {[ "/img" ]} ∅.

(** *** Hosts for the restore driver *)

Definition checkpoint_abcd : execdriver.Checkpoint := execdriverCheckpoint cp1.

Definition cgroup_devices_abcd : string := "/sys/fs/cgroup/devices/docker/abcd".

(** A host on which everything succeeds and the restored process, PID
    4321, exits with status 0.  Of the cgroup directories only that of
    [devices] exists, and its removal is refused with EPERM. *)
Definition host_eperm : Host :=
  mkHost "veth1a2b3c4"
    (λ _ _, RunOk) (λ _ _, ("", None))
    (λ _ _, None) (λ _, None)
    (λ _, Ok "4321") (λ _, None) (λ _, WaitState 0)
    (λ p, if String.eqb p cgroup_devices_abcd then None else Some (SysErr ENOENT p))
    (λ p, Some (SysErr EPERM p))
    (λ _ _, None).

(** The same host, on which the bridge refuses the veth endpoint. *)
Definition host_bridge_fails : Host :=
  mkHost "veth1a2b3c4"
    (λ _ _, RunOk) (λ _ _, ("", None))
    (λ _ _, Some (ExternalErr "no such device")) (λ _, None)
    (λ _, Ok "4321") (λ _, None) (λ _, WaitState 0)
    (λ p, if String.eqb p cgroup_devices_abcd then None else Some (SysErr ENOENT p))
    (λ p, Some (SysErr EPERM p))
    (λ _ _, None).

(** The same host, on which the veth endpoint cannot be brought up. *)
Definition host_up_fails : Host :=
  mkHost "veth1a2b3c4"
    (λ _ _, RunOk) (λ _ _, ("", None))
    (λ _ _, None) (λ _, Some (ExternalErr "no such device"))
    (λ _, Ok "4321") (λ _, None) (λ _, WaitState 0)
    (λ p, if String.eqb p cgroup_devices_abcd then None else Some (SysErr ENOENT p))
    (λ p, Some (SysErr EPERM p))
    (λ _ _, None).



Definition driver_abcd : driver := mkDriver "/var/run/docker/execdriver/native" "/dockerinit" {[ "abcd" ]}.

(** *** A runtime for the job handlers

    Container [abcd] with the registry [cp1], [cp2]; a clone of [abcd] is
    [ef01]; checkpointing and restoring succeed. *)
Definition daemon_abcd : Daemon :=
  mkDaemon
    (λ name, if String.eqb name "abcd" then Some abcd else None)
    (λ _, list_to_map [("cp1", cp1); ("cp2", cp2)])
    (λ _, Ok ef01)
    (λ _ _, None)
    (λ _ _ _ fs, (fs, None)).

(** A file system in which the image directory of [cp1] is gone. *)
Definition fs_no_image : os.FS :=
  os.mkFS ∅ {[ "/var/lib/docker/containers/abcd"; "/var/lib/docker/containers/ef01" ]} ∅.

(** A file system in which the image directory of [cp1] holds three files
    and the image directory for the clone already holds [netdev-8.img]. *)
Definition fs_link_conflict : os.FS :=
  os.mkFS
    (list_to_map
       [ (("/var/lib/docker/containers/abcd/checkpoints/cp1", "cgroup.img"), magic);
         (("/var/lib/docker/containers/abcd/checkpoints/cp1", "netdev-8.img"), magic);
         (("/var/lib/docker/containers/abcd/checkpoints/cp1", "restore.pid"),
          bytes_of_string "4321");
         (("/var/lib/docker/containers/ef01/checkpoints/cp1", "netdev-8.img"), magic) ])
    {[ "/var/lib/docker/containers/abcd/checkpoints/cp1";
       "/var/lib/docker/containers/ef01/checkpoints/cp1" ]} ∅.

End examples.

(** ** Measures and shapes used in the statements *)
Module measures.
(** The positions of [l] that hold the byte [c], read as a binary number,
    first position most significant. *)
Fixpoint weight (c : byte) (l : list byte) : nat :=
  match l with
  | [] => 0
  | x :: l' => (if bool_decide (x = c) then 2 ^ length l' else 0) + weight c l'
  end.
End measures.

(** ** Image files as sequences of records, and what a run may change *)
Module framing.
Import golang.
(** A record of an image file: the length of the body as a [uint32] in the
    byte order of the host, then the body. *)
Definition frame (bigEndian : bool) (body : list byte) : list byte :=
  uint32_encode bigEndian (Z.of_nat (length body) mod 2 ^ 32) ++ body.

Definition frames (bigEndian : bool) (bodies : list (list byte)) : list byte :=
  concat (List.map (frame bigEndian) bodies).

(** A source that ends inside a record: one to three bytes where a length
    is expected, or a length that announces more bytes than are left. *)
Definition cut_short (bigEndian : bool) (tail : list byte) : Prop :=
  (0 < length tail < 4)%nat
  ∨ ∃ n part, tail = uint32_encode bigEndian n ++ part
              ∧ 0 ≤ n < 2 ^ 32 ∧ Z.of_nat (length part) < n.

(** [fs] with the file [name] of [dir] holding [data]. *)
Definition written (dir name : string) (data : list byte) (fs : os.FS) : os.FS :=
  os.with_files fs (<[(dir, name) := data]> (os.files fs)).

(** The files a directive may write. *)
Definition image_files : list string :=
  [ "netdev-8.img"; "ifaddr-8.img"; "route-8.img"; "cgroup.img" ]%string.

(** [fs'] differs from [fs] at most in the files [names] of [dir]. *)
Definition confined (dir : string) (names : list string) (fs fs' : os.FS) : Prop :=
  os.dirs fs' = os.dirs fs
  ∧ os.readonly fs' = os.readonly fs
  ∧ ∀ d n, d ≠ dir ∨ n ∉ names → os.files fs' !! (d, n) = os.files fs !! (d, n).
End framing.

(** ** The names held by a control-group entry *)
Module cgroup_tree.
Import patch_criu.

(** The directory names of a tree, a directory before its children. *)
Fixpoint dir_names (dir : CgroupDirEntry) : list string :=
  match dir with
  | mkCgroupDirEntry name children _ => name :: flat_map dir_names children
  end.

(** The paths of the sets, then the directory names of the controllers,
    in the order of the two loops of [rewriteCgroupPaths]. *)
Definition entry_names (entry : CgroupEntry) : list string :=
  flat_map (λ set, List.map Path (Ctls set)) (Sets entry)
  ++ flat_map (λ controller, flat_map dir_names (Dirs controller)) (Controllers entry).
End cgroup_tree.

(** ** The native driver: the map of active containers, [Terminate], [getEnv] *)
Module native_lifecycle.
Import golang execdriver native.

(** [d.activeContainers[c.ID] = ...] in [run]. *)
Definition activate (d : driver) (id : string) : driver :=
  mkDriver (root d) (initPath d) ({[id]} ∪ activeContainers d).

(** [cleanContainer]: the container leaves the map, then [container.json]
    is removed; [removeAll] is the answer of [os.RemoveAll]. *)
Definition cleanContainer (removeAll : string → option error) (d : driver) (id : string)
    : driver * option error :=
  (mkDriver (root d) (initPath d) (activeContainers d ∖ {[id]}),
   removeAll (os.Join (os.Join (root d) id) "container.json")).

(** *** [Terminate] *)

(** The answer of a read: the content, an error for which
    [os.IsNotExist] holds, or another error. *)
Inductive Lookup :=
| Found (content : string)
| NotExist
| Failed (e : error).

(** What [Terminate] asks of the host: the start time recorded by
    [libcontainer.GetState], the file [start] of older versions, and
    [system.GetProcessStartTime]. *)
Record ProcessTable := mkProcessTable {
  GetState_InitStartTime : string → Lookup;
  ReadFile_start : string → Lookup;
  GetProcessStartTime : Z → Result string
}.

Inductive TerminateStep :=
| StepKill (pid sig : Z)
| StepWait4 (pid : Z)
| StepRemoveAll (path : string).

(** [Terminate]; [pid] is [p.ProcessConfig.Process.Pid].  The error of
    [cleanContainer] is dropped. *)
Definition Terminate (T : ProcessTable) (H : Host) (removeAll : string → option error)
    (d : driver) (id : string) (pid : Z) : driver * option error * list TerminateStep :=
  let state : string + option error :=
    match GetState_InitStartTime T (os.Join (root d) id) with
    | Found initStartTime => inl initStartTime
    | Failed e => inr (Some e)
    | NotExist =>
        match ReadFile_start T (os.Join (os.Join (root d) id) "start") with
        | Found data => inl data
        | NotExist => inr None
        | Failed e => inr (Some e)
        end
    end in
  match state with
  | inr res => (d, res, [])
  | inl initStartTime =>
      match GetProcessStartTime T pid with
      | Err e => (d, Some e, [])
      | Ok currentStartTime =>
          let cleaned := (cleanContainer removeAll d id).1 in
          let path := os.Join (os.Join (root d) id) "container.json" in
          if String.eqb initStartTime currentStartTime
          then (cleaned, Kill_ H pid 9, [StepKill pid 9; StepWait4 pid; StepRemoveAll path])
          else (cleaned, None, [StepRemoveAll path])
      end
  end.

(** The start time on record for a container, if one can be read. *)
Definition recorded_start (T : ProcessTable) (d : driver) (id : string) : option string :=
  match GetState_InitStartTime T (os.Join (root d) id) with
  | Found initStartTime => Some initStartTime
  | Failed _ => None
  | NotExist =>
      match ReadFile_start T (os.Join (os.Join (root d) id) "start") with
      | Found data => Some data
      | _ => None
      end
  end.

(** [strings.Split(s, sep)] for a separator of one byte. *)
Fixpoint strings_Split (s : string) (sep : ascii) : list string :=
  match s with
  | EmptyString => [EmptyString]
  | String c s' =>
      if Ascii.eqb c sep then EmptyString :: strings_Split s' sep
      else match strings_Split s' sep with
           | first :: rest => String c first :: rest
           | [] => [String c EmptyString]
           end
  end.

(** [getEnv]: [parts[1]] panics when the pair has no [=]. *)
Fixpoint getEnv (key : string) (env : list string) : Run string :=
  match env with
  | [] => Done EmptyString
  | kv :: env' =>
      match strings_Split kv "=" with
      | part0 :: parts =>
          if String.eqb part0 key then
            match parts with
            | part1 :: _ => Done part1
            | [] => Panic
            end
          else getEnv key env'
      | [] => Panic
      end
  end.

(** The name of a pair: its text before the first [=]. *)
Definition pair_name (kv : string) : string :=
  match strings_Split kv "=" with
  | part0 :: _ => part0
  | [] => EmptyString
  end.

(** A string without the byte [=]. *)
Fixpoint no_equals (s : string) : bool :=
  match s with
  | EmptyString => true
  | String c s' => negb (Ascii.eqb c "=") && no_equals s'
  end.

(** The first event of [execRestore]: the freezer tool is run. *)
Definition restoreCommand (H : Host) (checkpoint : execdriver.Checkpoint) : Event :=
  EvExec "/usr/local/sbin/criu"
    (execRestore_Args (GenerateRandomName H)
       (os.Join (ImagePath checkpoint) "restore.pid") checkpoint).
End native_lifecycle.

(** ** Further concrete inputs *)
Module scenarios.
Import golang execdriver daemon native examples framing.
Open Scope string_scope.
Open Scope list_scope.

(** A utility that prints an address no host has. *)
Definition odd_env : patch_criu.Env :=
  patch_criu.mkEnv false 0
    (λ _, Ok (bytes_of_string "2: eth0    inet 999.17.0.2/16 scope global eth0"))
    (λ _, [])
    (λ _, Err (ExternalErr "proto: no codec")) (λ _, Err (ExternalErr "proto: no codec"))
    (λ _, Err (ExternalErr "proto: no codec")) (λ _, Err (ExternalErr "proto: no codec")).

(** The host of [rewriter_env] with a parser that knows the loopback
    address of IPv6. *)
Definition loopback6 : list byte :=
  [x00; x00; x00; x00; x00; x00; x00; x00; x00; x00; x00; x00; x00; x00; x00; x01].

Definition v6_env : patch_criu.Env :=
  patch_criu.mkEnv false 0 showdump (λ s, if String.eqb s "::1" then loopback6 else [])
    (λ _, Err (ExternalErr "proto: no codec")) (λ _, Err (ExternalErr "proto: no codec"))
    (λ _, Err (ExternalErr "proto: no codec")) (λ _, Err (ExternalErr "proto: no codec")).

(** A stand-in for the protobuf codec: every record is the device [lo],
    and the body of the record is its address. *)
Definition lo_env : patch_criu.Env :=
  patch_criu.mkEnv false 0 showdump (λ _, [])
    (λ buf, Ok (patch_criu.mkNetDeviceEntry (Some "lo") buf []))
    (λ device, Ok (patch_criu.Address device))
    (λ _, Err (ExternalErr "proto: no codec")) (λ _, Err (ExternalErr "proto: no codec")).

(** An image [/img] taken at 172.17.0.2, and an empty directory [/out]. *)
Definition fs_taken : os.FS :=
  os.mkFS
    (list_to_map
       [ (("/img", "ifaddr-8.img"), magic ++ [xac; x11; x00; x02; x10]);
         (("/img", "route-8.img"), magic ++ [xac; x11; x00; x02]) ])
    {[ "/img"; "/out" ]} ∅.

(** Source [/src] whose [netdev-8.img] ends after three of the six bytes
    its record announces. *)
Definition fs_truncated : os.FS :=
  os.mkFS
    (list_to_map
       [ (("/src", "netdev-8.img"), magic ++ [x06; x00; x00; x00; x02; x42; xac]) ])
    {[ "/src"; "/dst" ]} ∅.

(** The image of [cp1] as [clone] leaves it for [ef01]. *)
Definition image_ef01 : string := "/var/lib/docker/containers/ef01/checkpoints/cp1".

Definition fs_cloned : os.FS :=
  os.mkFS
    (list_to_map
       [ ((image_ef01, "ifaddr-8.img"), magic ++ [xac; x11; x00; x02; x10]);
         ((image_ef01, "route-8.img"), magic ++ [xac; x11; x00; x02]);
         ((image_ef01, "netdev-8.img"),
          magic ++ [x06; x00; x00; x00; x02; x42; xac; x11; x00; x02]);
         ((image_ef01, "pages-1.img"), [x00; x01]) ])
    {[ image_ef01 ]} ∅.

(** The image directory of [cp1] with three files, and no directory for
    the clone. *)
Definition fs_image : os.FS :=
  os.mkFS
    (list_to_map
       [ (("/var/lib/docker/containers/abcd/checkpoints/cp1", "cgroup.img"), magic);
         (("/var/lib/docker/containers/abcd/checkpoints/cp1", "netdev-8.img"), magic);
         (("/var/lib/docker/containers/abcd/checkpoints/cp1", "restore.pid"),
          bytes_of_string "4321") ])
    {[ "/var/lib/docker/containers/abcd/checkpoints/cp1" ]} ∅.

(** A runtime in which every container has checkpoints [cp1] and [cp2] of
    its own. *)
Definition daemon_own : Daemon :=
  mkDaemon
    (λ name, if String.eqb name "abcd" then Some abcd else None)
    (λ c, list_to_map [("cp1", mkContainerCheckpoint "cp1" net_abcd 100 c);
                       ("cp2", mkContainerCheckpoint "cp2" net_abcd 200 c)])
    (λ _, Ok ef01)
    (λ _ _, None)
    (λ _ _ _ fs, (fs, None)).

(** A stand-in for the control-group codec: a record holds the path of
    one set, which is also the name of the one directory of the one
    controller, and that directory has the child [tasks].  An entry is
    encoded as its names, separated by semicolons. *)
Definition entry_of (path : string) : patch_criu.CgroupEntry :=
  patch_criu.mkCgroupEntry
    [patch_criu.mkCgSetEntry 1 [patch_criu.mkCgMemberEntry "devices" path]]
    [patch_criu.mkControllerEntry ["devices"]
       [patch_criu.mkCgroupDirEntry path [patch_criu.mkCgroupDirEntry "tasks" [] []] []]].

Definition cgroup_env : patch_criu.Env :=
  patch_criu.mkEnv false 0 showdump (λ _, [])
    (λ _, Err (ExternalErr "proto: no codec")) (λ _, Err (ExternalErr "proto: no codec"))
    (λ buf, Ok (entry_of (string_of_bytes buf)))
    (λ entry, Ok (bytes_of_string (String.concat ";" (cgroup_tree.entry_names entry)))).

(** A host on which the freezer tool exits with status 1. *)
Definition host_criu_fails : Host :=
  mkHost "veth1a2b3c4"
    (λ _ _, RunExitError 1) (λ _ _, ("", None))
    (λ _ _, None) (λ _, None)
    (λ _, Ok "4321") (λ _, None) (λ _, WaitState 0)
    (λ p, Some (SysErr ENOENT p))
    (λ p, Some (SysErr ENOENT p))
    (λ _ _, None).
End scenarios.

(** * Properties *)

(** ** The registry as listed by container inspection *)
Section registry.
Import daemon notions.
Implicit Types (x y : ContainerCheckpoint) (r pre post visit : list ContainerCheckpoint).

Lemma sift_insert_desc x pre post :
  sift x (pre ++ x :: post) (length pre) = rev (insert_desc x (rev pre)) ++ post.
Proof.
  revert post. induction pre as [|y pre IH] using rev_ind; intros post.
  - reflexivity.
  - rewrite length_app, Nat.add_1_r. simpl sift.
    rewrite <- app_assoc. simpl app.
    rewrite (list_lookup_middle pre (x :: post) y (length pre) eq_refl).
    rewrite rev_unit. simpl insert_desc.
    destruct (Before (CreatedAt y) (CreatedAt x)).
    + simpl. rewrite rev_involutive, <- !app_assoc. reflexivity.
    + replace (<[S (length pre) := y]> (pre ++ y :: x :: post)) with (pre ++ y :: y :: post).
      2:{ rewrite insert_app_r_alt by lia.
          replace (S (length pre) - length pre)%nat with 1%nat by lia. reflexivity. }
      replace (<[length pre := x]> (pre ++ y :: y :: post)) with (pre ++ x :: y :: post).
      2:{ rewrite insert_app_r_alt by lia. rewrite Nat.sub_diag. reflexivity. }
      rewrite IH. simpl. rewrite <- app_assoc. reflexivity.
Qed.

Lemma inspect_fold visit acc :
  fold_left (λ cs c, sift c (cs ++ [c]) (length cs)) visit (rev acc)
  = rev (fold_left (λ r c, insert_desc c r) visit acc).
Proof.
  revert acc. induction visit as [|x visit IH]; intros acc; simpl.
  - reflexivity.
  - rewrite (sift_insert_desc x (rev acc) []), app_nil_r, rev_involutive. apply IH.
Qed.

Lemma inspect_rev visit :
  ContainerInspect_checkpoints visit = rev (fold_left (λ r c, insert_desc c r) visit []).
Proof. apply (inspect_fold visit []). Qed.

Lemma insert_desc_perm x r : insert_desc x r ≡ₚ x :: r.
Proof.
  induction r as [|y r IH]; simpl; [done|].
  destruct (Before _ _); [done|]. rewrite IH. apply Permutation_swap.
Qed.

Lemma insert_desc_sorted x r :
  StronglySorted newer_first r → StronglySorted newer_first (insert_desc x r).
Proof.
  induction 1 as [|y r Hr IH Hy]; simpl.
  - repeat constructor.
  - destruct (Before (CreatedAt y) (CreatedAt x)) eqn:Hb; unfold Before in Hb.
    + apply Z.ltb_lt in Hb. constructor; [by constructor|].
      constructor; [unfold newer_first; lia|].
      eapply Forall_impl; [exact Hy|]. unfold newer_first. intros; simpl in *; lia.
    + apply Z.ltb_ge in Hb. constructor; [done|].
      rewrite insert_desc_perm. constructor; [exact Hb | exact Hy].
Qed.

Lemma filter_created_at_none t r :
  Forall (λ c, CreatedAt c ≠ t) r → filter (created_at t) r = [].
Proof.
  induction 1 as [|y r Hy Hr IH]; [done|].
  by rewrite filter_cons_False.
Qed.

Lemma insert_desc_filter t x r :
  StronglySorted newer_first r →
  filter (created_at t) (insert_desc x r)
  = filter (created_at t) r ++ filter (created_at t) [x].
Proof.
  induction 1 as [|y r Hr IH Hy]; simpl.
  - reflexivity.
  - destruct (Before (CreatedAt y) (CreatedAt x)) eqn:Hb; unfold Before in Hb.
    + apply Z.ltb_lt in Hb.
      rewrite (filter_cons _ x (y :: r)), (filter_cons _ x []).
      destruct (decide (created_at t x)) as [Hx|Hx]; [|by rewrite app_nil_r].
      assert (filter (created_at t) (y :: r) = []) as ->; [|done].
      apply filter_created_at_none. constructor.
      * unfold created_at in *. lia.
      * eapply Forall_impl; [exact Hy|]. unfold newer_first, created_at in *.
        intros; simpl in *; lia.
    + rewrite !(filter_cons _ y). destruct (decide (created_at t y)); rewrite IH; done.
Qed.

Lemma fold_insert_sorted visit acc :
  StronglySorted newer_first acc →
  StronglySorted newer_first (fold_left (λ r c, insert_desc c r) visit acc).
Proof.
  revert acc. induction visit as [|x visit IH]; intros acc Hacc; simpl; [done|].
  apply IH, insert_desc_sorted, Hacc.
Qed.

Lemma fold_insert_perm visit acc :
  fold_left (λ r c, insert_desc c r) visit acc ≡ₚ acc ++ visit.
Proof.
  revert acc. induction visit as [|x visit IH]; intros acc; simpl.
  - by rewrite app_nil_r.
  - rewrite IH, insert_desc_perm. simpl. apply Permutation_middle.
Qed.

Lemma fold_insert_filter t visit acc :
  StronglySorted newer_first acc →
  filter (created_at t) (fold_left (λ r c, insert_desc c r) visit acc)
  = filter (created_at t) acc ++ filter (created_at t) visit.
Proof.
  revert acc. induction visit as [|x visit IH]; intros acc Hacc; simpl.
  - by rewrite app_nil_r.
  - rewrite IH by (by apply insert_desc_sorted).
    rewrite insert_desc_filter by done.
    rewrite <- app_assoc. f_equal. 
    change (x :: visit) with ([x] ++ visit). by rewrite filter_app.
Qed.

Lemma sorted_rev r :
  StronglySorted newer_first r → StronglySorted older_first (rev r).
Proof.
  induction 1 as [|y r Hr IH Hy]; simpl; [constructor|].
  apply StronglySorted_app_2; [|done|repeat constructor].
  intros a b Ha Hb. apply list_elem_of_singleton in Hb as ->.
  apply Forall_rev in Hy. rewrite Forall_forall in Hy. by apply Hy.
Qed.

Lemma filter_rev' t r : filter (created_at t) (rev r) = rev (filter (created_at t) r).
Proof.
  induction r as [|y r IH]; simpl; [done|].
  rewrite filter_app, IH, !filter_cons. destruct (decide _); simpl; [done|].
  by rewrite app_nil_r.
Qed.

(** C2, amended: for every order in which the registry is visited, the
    list made by container inspection holds the same checkpoints sorted by
    creation time ascending (oldest first), and the checkpoints created at
    the same instant appear in the reverse of the order in which they were
    visited. *)
Theorem inspect_lists_oldest_first (visit : list ContainerCheckpoint) :
StronglySorted older_first (ContainerInspect_checkpoints visit)
∧ ContainerInspect_checkpoints visit ≡ₚ visit
∧ ∀ t, filter (created_at t) (ContainerInspect_checkpoints visit)
       = rev (filter (created_at t) visit).
Proof.
rewrite inspect_rev. split; [|split].
- apply sorted_rev, fold_insert_sorted. constructor.
- rewrite <- Permutation_rev. apply (fold_insert_perm visit []).
- intros t. rewrite filter_rev'. f_equal. apply (fold_insert_filter t visit []). constructor.
Qed.

(** C2, as stated, fails: a registry with [cp1] (created at 100) and [cp2]
    (created at 200) is listed oldest first whichever way it is visited,
    and [cp2], [cp3] (both created at 200) visited in this order are
    listed as [cp3], [cp2]. *)
Lemma inspect_not_newest_first :
  ¬ StronglySorted newer_first (ContainerInspect_checkpoints [examples.cp1; examples.cp2])
  ∧ ¬ StronglySorted newer_first (ContainerInspect_checkpoints [examples.cp2; examples.cp1])
  ∧ ContainerInspect_checkpoints [examples.cp2; examples.cp3] = [examples.cp3; examples.cp2].
Proof.
  split; [|split]; [| |reflexivity].
  - intros Hs. apply StronglySorted_inv in Hs as [_ Hs].
    apply Forall_inv in Hs. vm_compute in Hs. by apply Hs.
  - intros Hs. apply StronglySorted_inv in Hs as [_ Hs].
    apply Forall_inv in Hs. vm_compute in Hs. by apply Hs.
Qed.

End registry.

(** ** The restore driver *)
Section restore.
Import golang execdriver native notions.
Variable H : Host.
Variable checkpoint : execdriver.Checkpoint.
Variable startCallback : bool.

Let c := Command_ checkpoint.
Let pidFile := os.Join (ImagePath checkpoint) "restore.pid".
Let vethName := GenerateRandomName H.
Let criuRestore : Event :=
  EvExec "/usr/local/sbin/criu" (execRestore_Args vethName pidFile checkpoint).

Lemma execRestore_unfold :
  execRestore H checkpoint startCallback
  = ((execRestore_body H checkpoint startCallback vethName pidFile).1,
     (execRestore_body H checkpoint startCallback vethName pidFile).2
       ++ cleanCgroups H (ID c) ++ [EvRemove pidFile]).
Proof.
  unfold execRestore. fold c pidFile vethName.
  by destruct (execRestore_body H checkpoint startCallback vethName pidFile).
Qed.

(** The body starts with the freezer tool and has no [os.Stat] and no
    [os.Remove]. *)
Lemma body_events :
  ∃ rest, (execRestore_body H checkpoint startCallback vethName pidFile).2 = criuRestore :: rest
          ∧ Forall (λ e, is_cgroup_cleanup (ID c) e = false) rest.
Proof.
  unfold execRestore_body. fold criuRestore.
  destruct (Run_ H _ _); [|eexists; split; [reflexivity|constructor]..].
  destruct (SetInterfaceMaster H _ _);
    [eexists; split; [reflexivity|repeat constructor]|].
  destruct (InterfaceUp H _);
    [eexists; split; [reflexivity|repeat constructor]|].
  destruct (ReadFile H _);
    [|eexists; split; [reflexivity|repeat constructor]].
  destruct (FindProcess H _);
    [eexists; split; [reflexivity|repeat constructor]|].
  destruct (Wait H _), startCallback;
    eexists; (split; [reflexivity|repeat constructor]).
Qed.

Lemma cleanCgroups_stat subsys :
  subsys ∈ subsystems → EvStat (cgroupPath subsys (ID c)) ∈ cleanCgroups H (ID c).
Proof.
  intros Hs. apply list_elem_of_In, in_flat_map. exists subsys.
  split; [by apply list_elem_of_In|].
  cbv zeta. destruct (Stat H (cgroupPath subsys (ID c))); left; reflexivity.
Qed.

Lemma cleanCgroups_remove path :
  EvRemove path ∈ cleanCgroups H (ID c)
  ↔ Stat H path = None ∧ ∃ subsys, subsys ∈ subsystems ∧ path = cgroupPath subsys (ID c).
Proof.
  rewrite list_elem_of_In. unfold cleanCgroups. rewrite in_flat_map. split.
  - intros (subsys & Hs & Hin). cbv zeta in Hin.
    destruct (Stat H (cgroupPath subsys (ID c))) eqn:Hstat; simpl in Hin.
    + destruct Hin as [[=]|[]].
    + destruct Hin as [[=]|[[= <-]|[]]]. split; [done|].
      exists subsys. split; [by apply list_elem_of_In|done].
  - intros (Hstat & subsys & Hs & ->). exists subsys.
    split; [by apply list_elem_of_In|]. cbv zeta. rewrite Hstat. right; left; reflexivity.
Qed.

Lemma body_ignores_Remove remove vn pf :
  execRestore_body (with_Remove H remove) checkpoint startCallback vn pf
  = execRestore_body H checkpoint startCallback vn pf.
Proof. reflexivity. Qed.

(** C3, amended: the cleanup of the cgroup directories is deferred.  On
    every run of [execRestore] the freezer tool is invoked first, and the
    eight directories are looked at when the function returns: each is
    examined with [os.Stat], is removed exactly when it exists, and the
    answer of the removal (EPERM included) changes neither the result nor
    the events of the run. *)
Theorem cgroup_cleanup_is_deferred :
  ∃ res rest,
    execRestore H checkpoint startCallback
    = (res, criuRestore :: rest ++ cleanCgroups H (ID c) ++ [EvRemove pidFile])
    ∧ Forall (λ e, is_cgroup_cleanup (ID c) e = false) rest
    ∧ (∀ subsys, subsys ∈ subsystems →
         EvStat (cgroupPath subsys (ID c)) ∈ cleanCgroups H (ID c)
         ∧ (EvRemove (cgroupPath subsys (ID c)) ∈ cleanCgroups H (ID c)
            ↔ Stat H (cgroupPath subsys (ID c)) = None))
    ∧ ∀ remove,
        execRestore (with_Remove H remove) checkpoint startCallback
        = execRestore H checkpoint startCallback.
Proof.
  destruct body_events as (rest & Hbody & Hrest).
  exists (execRestore_body H checkpoint startCallback vethName pidFile).1, rest.
  split; [|split; [exact Hrest|split]].
  - rewrite execRestore_unfold, Hbody. reflexivity.
  - intros subsys Hs. split; [by apply cleanCgroups_stat|].
    rewrite cleanCgroups_remove. split; [by intros [? _]|].
    intros Hstat. split; [done|]. by exists subsys.
  - intros remove. reflexivity.
Qed.

(** C7, amended: when the bridge refuses the veth endpoint, or the
    endpoint cannot be brought up, [execRestore] fails with exit code -1
    and that error; it neither signals nor reaps the restored process. *)
Theorem bridge_failure_leaves_process (err : error) :
  Run_ H "/usr/local/sbin/criu" (execRestore_Args vethName pidFile checkpoint) = RunOk →
  SetInterfaceMaster H vethName "docker0" = Some err
  ∨ (SetInterfaceMaster H vethName "docker0" = None ∧ InterfaceUp H vethName = Some err) →
  ∃ events,
    execRestore H checkpoint startCallback = (Done (-1, Some err), events)
    ∧ Forall (λ e, is_teardown e = false) events.
Proof.
  intros Hrun Hnet. rewrite execRestore_unfold.
  assert (Forall (λ e, is_teardown e = false) (cleanCgroups H (ID c) ++ [EvRemove pidFile]))
    as Hclean.
  { apply Forall_app. split; [|by repeat constructor].
    unfold cleanCgroups. apply Forall_forall. intros e He.
    apply list_elem_of_In in He. apply in_flat_map in He.
    destruct He as (subsys & _ & He). cbv zeta in He.
    destruct (Stat H (cgroupPath subsys (ID c)));
      repeat (destruct He as [<-|He]; [reflexivity|]); destruct He. }
  unfold execRestore_body. rewrite Hrun.
  destruct Hnet as [Hm|[Hm Hup]]; rewrite Hm; [|rewrite Hup]; simpl;
    (eexists; split; [reflexivity|]); repeat (constructor; [reflexivity|]); exact Hclean.
Qed.


End restore.

Section restore_examples.
Import golang execdriver native notions examples.

(** C3, as stated, fails: on [host_eperm] the directory of [devices]
    exists and its removal is refused with EPERM, yet the restore succeeds
    with exit code 0; and the removal comes after the freezer tool. *)
Lemma cgroup_cleanup_eperm_ignored :
  Stat host_eperm cgroup_devices_abcd = None
  ∧ Remove host_eperm cgroup_devices_abcd = Some (SysErr EPERM cgroup_devices_abcd)
  ∧ ∃ args rest,
      execRestore host_eperm checkpoint_abcd true
      = (Done (0, None), EvExec "/usr/local/sbin/criu" args :: rest)
      ∧ EvRemove cgroup_devices_abcd ∈ rest.
Proof.
  split; [reflexivity|split; [reflexivity|]].
  eexists _, _. split; [vm_compute; reflexivity|].
  apply list_elem_of_In. vm_compute. tauto.
Qed.

(** C7, as stated, fails: on [host_bridge_fails], where the bridge refuses
    the endpoint, and on [host_up_fails], where the endpoint cannot be
    brought up, the restore fails and no event of the run signals or reaps
    a process. *)
Lemma bridge_failure_no_teardown :
  (execRestore host_bridge_fails checkpoint_abcd true).1
  = Done (-1, Some (ExternalErr "no such device"))
  ∧ existsb is_teardown (execRestore host_bridge_fails checkpoint_abcd true).2 = false
  ∧ (execRestore host_up_fails checkpoint_abcd true).1
    = Done (-1, Some (ExternalErr "no such device"))
  ∧ existsb is_teardown (execRestore host_up_fails checkpoint_abcd true).2 = false.
Proof. repeat split; vm_compute; reflexivity. Qed.

Lemma bridge_failure_leaves_process_witness :
  ∃ events,
    execRestore host_bridge_fails checkpoint_abcd true
    = (Done (-1, Some (ExternalErr "no such device")), events)
    ∧ Forall (λ e, is_teardown e = false) events.
Proof.
  apply (bridge_failure_leaves_process host_bridge_fails checkpoint_abcd true);
    [reflexivity | left; reflexivity].
Defined.


End restore_examples.

(** ** The checkpoint driver *)
Section checkpoint_driver.
Import golang execdriver native notions.
Local Open Scope string_scope.
Local Open Scope list_scope.

(** C8, amended: for an active container the freezer tool is run once,
    with the four mappings of the system files before [-D], [-t] and
    [--root], and the mappings of the volumes after them, in the order in
    which the map of volumes is visited. *)
Theorem dump_arguments (H : Host) (d : driver) (checkpoint : execdriver.Checkpoint)
    (stop : bool) :
  ID (Command_ checkpoint) ∈ activeContainers d →
  ∃ res,
    Checkpoint H d checkpoint stop
    = (res,
       [EvExec "criu"
          ([ "dump"; "-v4"; "-o"; "/dev/stdout"; "--manage-cgroups"; "--evasive-devices" ]
           ++ [ "--ext-mount-map"; "/etc/resolv.conf:/etc/resolv.conf";
                "--ext-mount-map"; "/etc/hosts:/etc/hosts";
                "--ext-mount-map"; "/etc/hostname:/etc/hostname";
                "--ext-mount-map"; "/.dockerinit:/.dockerinit" ]
           ++ [ "-D"; ImagePath checkpoint;
                "-t"; itoa (ContainerPid (Command_ checkpoint));
                "--root"; Rootfs (Command_ checkpoint) ]
           ++ flat_map (λ v : string * string, ["--ext-mount-map"; v.1 +:+ ":" +:+ v.2])
                (Volumes checkpoint))]).
Proof.
  intros Hactive. unfold Checkpoint. rewrite bool_decide_eq_true_2 by done.
  destruct (CombinedOutput H "criu" (Checkpoint_cmdArgs checkpoint)) as [output [err|]];
    eexists; reflexivity.
Qed.

Lemma dump_arguments_witness :
  ∃ res,
    Checkpoint examples.host_eperm examples.driver_abcd examples.checkpoint_abcd true
    = (res,
       [EvExec "criu"
          [ "dump"; "-v4"; "-o"; "/dev/stdout"; "--manage-cgroups"; "--evasive-devices";
            "--ext-mount-map"; "/etc/resolv.conf:/etc/resolv.conf";
            "--ext-mount-map"; "/etc/hosts:/etc/hosts";
            "--ext-mount-map"; "/etc/hostname:/etc/hostname";
            "--ext-mount-map"; "/.dockerinit:/.dockerinit";
            "-D"; "/var/lib/docker/containers/abcd/checkpoints/cp1";
            "-t"; "1234";
            "--root"; "/rootfs/abcd";
            "--ext-mount-map"; "/srv/data:/data" ]]).
Proof.
  apply (dump_arguments examples.host_eperm examples.driver_abcd examples.checkpoint_abcd true).
  vm_compute. set_solver.
Defined.

(** C8, as stated, fails: the mapping of the volume [/srv/data] of
    container [abcd] comes after [-D]. *)
Lemma dump_volume_after_D :
  Checkpoint examples.host_eperm examples.driver_abcd examples.checkpoint_abcd true
  = (None, [EvExec "criu" (Checkpoint_cmdArgs examples.checkpoint_abcd)])
  ∧ ¬ maps_before_D (Checkpoint_cmdArgs examples.checkpoint_abcd).
Proof.
  split; [vm_compute; reflexivity|].
  intros Hbefore. specialize (Hbefore 20%nat 14%nat eq_refl eq_refl). lia.
Qed.

End checkpoint_driver.

(** ** The clone coordinator and the job handlers *)
Section clone_coordinator.
Import golang daemon notions.
Local Open Scope string_scope.
Local Open Scope list_scope.

Lemma replace_colons s : replace_from 0 s ":" "" = without_colons s.
Proof.
  induction s as [|ch s IH]; [reflexivity|].
  cbn [replace_from without_colons String.prefix String.length].
  destruct (ascii_dec ":" ch) as [<-|Hne].
  - replace (String.prefix "" s) with true by (by destruct s). exact IH.
  - rewrite IH. destruct (Ascii.eqb_spec ch ":"); [congruence|reflexivity].
Qed.

(** C4, amended: the image rewriter is run on the image directory of the
    checkpoint, with a temporary directory as destination and exactly two
    directives: [ip=] with the IPv4 address of the checkpoint's container,
    then [mac=] with its MAC address without the colons.  There is no
    [cgroup=] directive. *)
Theorem patchImage_runs_ip_then_mac (cp : ContainerCheckpoint) :
  let ip := "ip=" +:+ IPAddress (Container_NetworkSettings (container cp)) in
  let mac := "mac=" +:+ without_colons (MacAddress (Container_NetworkSettings (container cp))) in
  patchImage_directives cp = [ip; mac]
  ∧ ∀ E fuel tmpdir fs,
      patchImage_args cp tmpdir = [imagePath cp; tmpdir; ip; mac]
      ∧ patch_criu.main E fuel ("patch-criu" :: patchImage_args cp tmpdir) fs
        = patch_criu.directives E fuel (imagePath cp) tmpdir [ip; mac] fs.
Proof.
  intros ip mac.
  assert (∀ tmpdir, patchImage_args cp tmpdir = [imagePath cp; tmpdir; ip; mac]) as Hargs.
  { intros tmpdir. unfold patchImage_args, strings_Replace. by rewrite replace_colons. }
  split.
  - unfold patchImage_directives. by rewrite Hargs.
  - intros E fuel tmpdir fs. split; [apply Hargs|]. by rewrite Hargs.
Qed.

(** C4, as stated, fails: for [cp1] cloned from [abcd] for [ef01] the
    directives are [ip=] and [mac=], in this order, and the [cgroup=]
    directive is not among them. *)
Lemma patchImage_no_cgroup_directive :
  patchImage_directives examples.cp1_ef01 = ["ip=172.17.0.3"; "mac=0242ac110003"]
  ∧ patchImage_directives examples.cp1_ef01
    ≠ ["mac=0242ac110003"; "ip=172.17.0.3"; "cgroup=/docker/abcd:/docker/ef01"].
Proof. split; [reflexivity|discriminate]. Qed.

(** C9: with two arguments and a container of that name, the handler asks
    the container to checkpoint exactly once, with a flag that is true if
    and only if the second argument is the string [1]; the status of the
    job is that of the checkpoint, whatever the second argument. *)
Theorem stop_flag_is_second_argument (d : Daemon) (job : Job) (name arg1 : string)
    (c : Container) :
  Args job = [name; arg1] →
  Get d name = Some c →
  ∃ stop status rest,
    ContainerCheckpoint_job d job = (status, CallCheckpoint c stop :: rest)
    ∧ (stop = true ↔ arg1 = "1")
    ∧ (∀ e, e ∈ rest → ∀ c' stop', e ≠ CallCheckpoint c' stop')
    ∧ (status = StatusOK ↔ Container_Checkpoint d c stop = None).
Proof.
  intros Hargs Hget. exists (String.eqb arg1 "1").
  unfold ContainerCheckpoint_job. rewrite Hargs, Hget.
  destruct (Container_Checkpoint d c (String.eqb arg1 "1")) as [err|];
    eexists _, _; (split; [reflexivity|split; [apply String.eqb_eq|split]]).
  - intros e He. by apply elem_of_nil in He.
  - split; discriminate.
  - intros e He c' stop'. apply list_elem_of_singleton in He as ->. discriminate.
  - done.
Qed.

Lemma stop_flag_is_second_argument_witness :
  ∃ stop status rest,
    ContainerCheckpoint_job examples.daemon_abcd (mkJob "checkpoint" ["abcd"; "true"] false)
    = (status, CallCheckpoint examples.abcd stop :: rest)
    ∧ (stop = true ↔ "true" = "1")
    ∧ (∀ e, e ∈ rest → ∀ c' stop', e ≠ CallCheckpoint c' stop')
    ∧ (status = StatusOK ↔ Container_Checkpoint examples.daemon_abcd examples.abcd stop = None).
Proof.
  apply (stop_flag_is_second_argument examples.daemon_abcd
           (mkJob "checkpoint" ["abcd"; "true"] false) "abcd" "true" examples.abcd);
    reflexivity.
Defined.

(** *** [clone] only adds to the file system *)

Lemma Link_grows sdir sname ddir dname fs :
  os.files fs ⊆ os.files (os.Link sdir sname ddir dname fs).1
  ∧ os.dirs (os.Link sdir sname ddir dname fs).1 = os.dirs fs.
Proof.
  unfold os.Link. destruct (os.files fs !! (sdir, sname)); [|done].
  destruct (os.writable ddir dname fs); [done|].
  destruct (os.files fs !! (ddir, dname)) eqn:Hd; [done|].
  split; [|done]. by apply insert_subseteq.
Qed.

Lemma linkAll_grows imagePath newImagePath dirents fs :
  os.files fs ⊆ os.files (linkAll imagePath newImagePath dirents fs).1
  ∧ os.dirs (linkAll imagePath newImagePath dirents fs).1 = os.dirs fs.
Proof.
  revert fs. induction dirents as [|name rest IH]; intros fs; simpl; [done|].
  destruct (String.eqb name "restore.pid"); [apply IH|].
  pose proof (Link_grows imagePath name newImagePath name fs) as [Hf Hd].
  destruct (os.Link imagePath name newImagePath name fs) as [fs1 [e|]]; simpl in *; [done|].
  destruct (IH fs1) as [Hf' Hd']. split; [by etrans|congruence].
Qed.

Lemma MkdirAll_grows dir fs :
  os.files (os.MkdirAll dir fs).1 = os.files fs
  ∧ os.dirs fs ⊆ os.dirs (os.MkdirAll dir fs).1
  ∧ ((os.MkdirAll dir fs).2 = None → dir ∈ os.dirs (os.MkdirAll dir fs).1)
  ∧ (is_Some (os.MkdirAll dir fs).2 → (os.MkdirAll dir fs).1 = fs).
Proof.
  unfold os.MkdirAll. case_bool_decide; [by split_and!; [..|intros []]|].
  case_bool_decide; simpl.
  - split_and!; [done..|discriminate|done].
  - split_and!; [done|set_solver|set_solver|by intros []].
Qed.

(** C6, amended: when [clone] fails, the error is handed to the caller,
    which fails the job with it, and the target image directory is not
    removed: nothing that was in the file system is taken away, and unless
    the creation of the directory is what failed, the directory is still
    there. *)
Theorem failed_clone_keeps_target_directory (d : Daemon) (job : Job)
    (name checkpointID : string) (c cloned : Container) (checkpoint : ContainerCheckpoint)
    (fs fs' : os.FS) (err : error) :
  Args job = [name; checkpointID] →
  GetenvBool_clone job = true →
  Get d name = Some c →
  Checkpoints d c !! checkpointID = Some checkpoint →
  Create d c = Ok cloned →
  clone checkpoint cloned fs = (fs', Err err) →
  let target := os.Join (os.Join (Container_root cloned) "checkpoints") (ID checkpoint) in
  ContainerRestore d job fs = (fs', StatusErr (error_text err), [])
  ∧ os.files fs ⊆ os.files fs'
  ∧ os.dirs fs ⊆ os.dirs fs'
  ∧ ((os.MkdirAll target fs = (fs, Some err) ∧ fs' = fs) ∨ target ∈ os.dirs fs').
Proof.
  intros Hargs Hclone Hget Hcp Hcreate Hfail target. split.
  { unfold ContainerRestore, cloneContainer.
    by rewrite Hargs, Hget, Hcp, Hclone, Hcreate, Hfail. }
  revert Hfail. unfold clone.
  set (newCheckpoint := mkContainerCheckpoint (ID checkpoint) (NetworkSettings_ checkpoint)
                          (CreatedAt checkpoint) cloned).
  change (imagePath newCheckpoint) with target.
  pose proof (MkdirAll_grows target fs) as (Hf & Hd & Hin & Hsame).
  destruct (os.MkdirAll target fs) as [fs1 [e|]] eqn:Hmk; simpl in *.
  { intros [= <- <-]. rewrite (Hsame (mk_is_Some _ _ eq_refl)) in *.
    split_and!; [done..|]. left. done. }
  destruct (os.Readdirnames (imagePath checkpoint) fs1) as [dirents|e].
  2:{ intros [= <- <-]. split_and!; [by rewrite Hf|done|right; by apply Hin]. }
  pose proof (linkAll_grows (imagePath checkpoint) target dirents fs1) as [Hf' Hd'].
  destruct (linkAll (imagePath checkpoint) target dirents fs1) as [fs2 [e|]];
    [|intros [=]].
  simpl in *. intros [= <- <-]. split_and!.
  - by rewrite <- Hf.
  - by rewrite Hd'.
  - right. rewrite Hd'. by apply Hin.
Qed.

Lemma failed_clone_keeps_target_directory_witness :
  let target := "/var/lib/docker/containers/ef01/checkpoints/cp1" in
  let fs' := os.mkFS ∅ ({[target]} ∪ os.dirs examples.fs_no_image) ∅ in
  let err := SysErr ENOENT "/var/lib/docker/containers/abcd/checkpoints/cp1" in
  ContainerRestore examples.daemon_abcd (mkJob "restore" ["abcd"; "cp1"] true)
    examples.fs_no_image
  = (fs', StatusErr (error_text err), [])
  ∧ os.files examples.fs_no_image ⊆ os.files fs'
  ∧ os.dirs examples.fs_no_image ⊆ os.dirs fs'
  ∧ ((os.MkdirAll target examples.fs_no_image = (examples.fs_no_image, Some err)
      ∧ fs' = examples.fs_no_image)
     ∨ target ∈ os.dirs fs').
Proof.
  intros target fs' err.
  apply (failed_clone_keeps_target_directory examples.daemon_abcd
           (mkJob "restore" ["abcd"; "cp1"] true) "abcd" "cp1"
           examples.abcd examples.ef01 examples.cp1 examples.fs_no_image fs' err);
    reflexivity.
Defined.

(** C6, as stated, fails.  Restoring a clone of [cp1] when the source
    image directory cannot be listed fails the job, and the target image
    directory made for the clone is still there.  When a hard link fails
    because the name is taken, the job fails, the target image directory
    is still there and holds the link made before the failure. *)
Lemma failed_clone_target_not_removed :
  let source := "/var/lib/docker/containers/abcd/checkpoints/cp1" in
  let target := "/var/lib/docker/containers/ef01/checkpoints/cp1" in
  let job := mkJob "restore" ["abcd"; "cp1"] true in
  let r := ContainerRestore examples.daemon_abcd job examples.fs_no_image in
  let r' := ContainerRestore examples.daemon_abcd job examples.fs_link_conflict in
  r.1.2 = StatusErr (source +:+ ": no such file or directory")
  ∧ (target ∉ os.dirs examples.fs_no_image)
  ∧ (target ∈ os.dirs r.1.1)
  ∧ r'.1.2 = StatusErr (target +:+ "/netdev-8.img: file exists")
  ∧ (target ∈ os.dirs r'.1.1)
  ∧ os.files examples.fs_link_conflict !! (target, "cgroup.img") = None
  ∧ os.files r'.1.1 !! (target, "cgroup.img") = Some examples.magic.
Proof.
  split; [reflexivity|]. split; [|split; [|split; [|split; [|split]]]].
  - apply (bool_decide_unpack _). vm_compute. exact I.
  - apply (bool_decide_unpack _). vm_compute. exact I.
  - vm_compute. reflexivity.
  - apply (bool_decide_unpack _). vm_compute. exact I.
  - vm_compute. reflexivity.
  - vm_compute. reflexivity.
Qed.

End clone_coordinator.

(** ** The image rewriter *)
Section image_rewriter.
Import golang patch_criu.
Local Open Scope string_scope.
Local Open Scope list_scope.

(** *** [bytes.Index] and [copy] *)

Lemma hasPrefix_take (s p : list byte) :
  hasPrefix s p = true → take (length p) s = p ∧ (length p ≤ length s)%nat.
Proof.
  revert s. induction p as [|b p IH]; intros [|a s]; simpl; try done.
  - split; [done|lia].
  - intros [Hb Hp]%andb_prop. apply bool_decide_eq_true in Hb as ->.
    destruct (IH _ Hp) as [-> ?]. split; [done|lia].
Qed.

Lemma bytes_Index_Some (s sep : list byte) (pos : nat) :
  bytes_Index s sep = Some pos →
  take (length sep) (drop pos s) = sep ∧ (pos + length sep ≤ length s)%nat.
Proof.
  revert pos. induction s as [|a s IH]; intros pos; cbn [bytes_Index].
  - destruct (hasPrefix [] sep) eqn:Hp; [|intros [=]]. intros [= <-].
    rewrite drop_0. by apply hasPrefix_take.
  - destruct (hasPrefix (a :: s) sep) eqn:Hp.
    + intros [= <-]. rewrite drop_0. by apply hasPrefix_take.
    + destruct (bytes_Index s sep) as [n|]; [|intros [=]]. intros [= <-].
      destruct (IH n eq_refl) as [? ?]. split; [done|simpl; lia].
Qed.

Lemma copy_at_same (data src : list byte) (pos : nat) :
  take (length src) (drop pos data) = src →
  (pos + length src ≤ length data)%nat →
  copy_at data pos src = data.
Proof.
  intros Hsrc Hlen. unfold copy_at.
  rewrite (firstn_all2 (n := length data - pos) src) by lia.
  rewrite <- Hsrc at 1. rewrite <- drop_drop, take_drop. apply take_drop.
Qed.

(** Replacing an address by itself: the loop finds the same occurrence
    again and again. *)
Lemma rewriteBytes_same (E : Env) (data from : list byte) (pos : nat) :
  bytes_Index data from = Some pos →
  ∀ fuel replaced, rewriteBytes E fuel data from from replaced = Timeout.
Proof.
  intros Hpos. destruct (bytes_Index_Some _ _ _ Hpos) as [Htake Hlen].
  induction fuel as [|fuel IH]; intros replaced; simpl; rewrite Hpos.
  - destruct (Nat.leb_spec (pos + length from) (length data + slack E)); [done|lia].
  - destruct (Nat.leb_spec (pos + length from) (length data + slack E)); [|lia].
    rewrite copy_at_same by done. apply IH.
Qed.

Lemma substring_all (s : string) : String.substring 0 (String.length s) s = s.
Proof. induction s as [|ch s IH]; simpl; [done|by rewrite IH]. Qed.

Lemma SplitN2_ip (v : string) : strings_SplitN2 ("ip=" +:+ v) "=" = ["ip"; v].
Proof.
  change ("ip=" +:+ v) with (String "i" (String "p" (String "=" v))).
  unfold strings_SplitN2.
  assert (string_index (String "i" (String "p" (String "=" v))) "=" = Some 2%nat) as ->.
  { cbn. by destruct v. }
  unfold string_take, string_drop. cbn. by rewrite Nat.sub_0_r, substring_all.
Qed.

Lemma SplitN2_mac (v : string) : strings_SplitN2 ("mac=" +:+ v) "=" = ["mac"; v].
Proof.
  change ("mac=" +:+ v) with (String "m" (String "a" (String "c" (String "=" v)))).
  unfold strings_SplitN2.
  assert (string_index (String "m" (String "a" (String "c" (String "=" v)))) "="
          = Some 3%nat) as ->.
  { cbn. by destruct v. }
  unfold string_take, string_drop. cbn. by rewrite Nat.sub_0_r, substring_all.
Qed.

(** *** The record loop ends

    Every turn of the loop takes four bytes off the source, so a fuel of
    the length of the source is never used up. *)
Lemma rewriteRecords_terminates (E : Env) (patch : list byte → Result (list byte))
    (fuel : nat) (r : list byte) :
  (length r ≤ fuel)%nat → (rewriteRecords E patch fuel r).2 ≠ Timeout.
Proof.
  revert r. induction fuel as [|fuel IH]; intros r Hlen.
  - destruct r; [done|simpl in Hlen; lia].
  - destruct r as [|b0 [|b1 [|b2 [|b3 r1]]]]; try done.
    cbn [rewriteRecords binary_Read_uint32].
    unfold io_ReadFull.
    destruct (Z.to_nat _ <=? length r1)%nat; [|by destruct r1].
    destruct (patch _); [|done].
    specialize (IH (drop (Z.to_nat (uint32_decode (bigEndian E) b0 b1 b2 b3)) r1)).
    destruct (rewriteRecords E patch fuel _) as [out res]. simpl in *.
    apply IH. rewrite length_drop. lia.
Qed.

(** *** What [replaceWrite] touches *)

Lemma replaceWrite_other dir name data fs k :
  k ≠ (dir, name) →
  os.files (replaceWrite dir name data fs).1 !! k = os.files fs !! k.
Proof.
  intros Hk. unfold replaceWrite, os.WriteFile, os.Remove, os.writable.
  repeat (case_bool_decide || case_match || simplify_eq/=);
    rewrite ?lookup_insert_ne, ?lookup_delete_ne by done; done.
Qed.

Lemma replaceWrite_error dir name data fs msg :
  (replaceWrite dir name data fs).2 ≠ Some (Errorf msg).
Proof.
  unfold replaceWrite, os.WriteFile, os.writable.
  repeat (case_bool_decide || case_match || simplify_eq/=); done.
Qed.

(** *** Failing directives *)

Lemma directive_ip E fuel srcPath destPath ip fs :
  directive E fuel srcPath destPath ("ip=" +:+ ip) fs
  = rewriteIPAddress E fuel srcPath destPath ip fs.
Proof. unfold directive. by rewrite SplitN2_ip. Qed.

Lemma directive_mac E fuel srcPath destPath mac fs :
  directive E fuel srcPath destPath ("mac=" +:+ mac) fs
  = rewriteMacAddress E srcPath destPath mac fs.
Proof. unfold directive. by rewrite SplitN2_mac. Qed.

Lemma rewriteBytes_none E fuel data from to replaced :
  bytes_Index data from = None →
  rewriteBytes E fuel data from to replaced = Done (data, replaced).
Proof. intros Hnone. destruct fuel; simpl; by rewrite Hnone. Qed.

(** An [ip=] directive that ends with the message of the route file has
    written nothing but [ifaddr-8.img]. *)
Lemma route_miss_keeps_route E fuel srcPath destPath ip fs fs' :
  rewriteIPAddress E fuel srcPath destPath ip fs
  = (fs', Done (Some (Errorf "can't find old address pos in ip route dump"))) →
  os.files fs' !! (destPath, "route-8.img") = os.files fs !! (destPath, "route-8.img").
Proof.
  unfold rewriteIPAddress.
  destruct (os.ReadFile srcPath "ifaddr-8.img" fs) as [data|]; [|by intros [= <-]].
  destruct (ipAddrShowdump E data) as [dump|]; [|by intros [= <-]].
  destruct (FindSubmatch (string_of_bytes dump)) as [found|]; [|by intros [= <-]].
  destruct (net_ParseIP (parseIPv6 E) ip) as [|b parsed]; [by intros [= <-]|].
  destruct (rewriteBytes E fuel data _ _ 0) as [[data' replaced]| |];
    [|by intros [= <-]..].
  destruct (replaced <? 1)%Z; [by intros [= <-]|].
  pose proof (replaceWrite_other destPath "ifaddr-8.img" data' fs (destPath, "route-8.img"))
    as Hother.
  destruct (replaceWrite destPath "ifaddr-8.img" data' fs) as [fs1 [e|]]; simpl in Hother.
  { intros [= <- _]. by apply Hother. }
  destruct (os.ReadFile srcPath "route-8.img" fs1) as [routeData|];
    [|intros [= <- _]; by apply Hother].
  destruct (rewriteBytes E fuel routeData _ _ 0) as [[routeData' replaced']| |];
    [|by intros [=]..].
  destruct (replaced' <? 1)%Z; [intros [= <-]; by apply Hother|].
  pose proof (replaceWrite_error destPath "route-8.img" routeData' fs1) as Herr.
  destruct (replaceWrite destPath "route-8.img" routeData' fs1) as [fs2 err]; simpl in Herr.
  intros [= _ ->]. by destruct (Herr _ eq_refl).
Qed.

(** An [ip=] directive replacing the address that the image already has
    enters [rewriteBytes] with equal addresses, and does not return. *)
Lemma rewriteIPAddress_same_address E fuel srcPath destPath ip fs data dump found pos :
  os.ReadFile srcPath "ifaddr-8.img" fs = Ok data →
  ipAddrShowdump E data = Ok dump →
  FindSubmatch (string_of_bytes dump) = Some found →
  net_ParseIP (parseIPv6 E) ip ≠ [] →
  To4 (net_ParseIP (parseIPv6 E) found) = To4 (net_ParseIP (parseIPv6 E) ip) →
  bytes_Index data (To4 (net_ParseIP (parseIPv6 E) ip)) = Some pos →
  rewriteIPAddress E fuel srcPath destPath ip fs = (fs, Timeout).
Proof.
  intros Hread Hdump Hfound Hip Hsame Hpos.
  unfold rewriteIPAddress. rewrite Hread, Hdump, Hfound, Hsame.
  destruct (net_ParseIP (parseIPv6 E) ip) as [|b parsed] eqn:Hparsed; [done|].
  by rewrite (rewriteBytes_same E data _ pos Hpos).
Qed.

(** C1, amended: a directive that fails before its first write leaves the
    destination untouched.  For every invocation: an [ip=] directive whose
    old address occurs nowhere in [ifaddr-8.img] fails with the message
    of the address dump and changes nothing; an [ip=] directive that fails
    with the message of the route dump leaves the destination
    [route-8.img] as it was; a [mac=] directive whose source
    [netdev-8.img] is missing fails and changes nothing. *)
Theorem failed_directive_destination (E : Env) (fuel : nat) (srcPath destPath : string)
    (fs : os.FS) :
  (∀ ip data dump found,
     os.ReadFile srcPath "ifaddr-8.img" fs = Ok data →
     ipAddrShowdump E data = Ok dump →
     FindSubmatch (string_of_bytes dump) = Some found →
     net_ParseIP (parseIPv6 E) ip ≠ [] →
     bytes_Index data (To4 (net_ParseIP (parseIPv6 E) found)) = None →
     directive E fuel srcPath destPath ("ip=" +:+ ip) fs
     = (fs, Done (Some (Errorf "can't find old address pos in ip addr dump"))))
  ∧ (∀ ip fs',
       directive E fuel srcPath destPath ("ip=" +:+ ip) fs
       = (fs', Done (Some (Errorf "can't find old address pos in ip route dump"))) →
       os.files fs' !! (destPath, "route-8.img") = os.files fs !! (destPath, "route-8.img"))
  ∧ (∀ mac,
       os.files fs !! (srcPath, "netdev-8.img") = None →
       directive E fuel srcPath destPath ("mac=" +:+ mac) fs
       = (fs, Done (Some (SysErr ENOENT (os.Join srcPath "netdev-8.img"))))).
Proof.
  split; [|split].
  - intros ip data dump found Hread Hdump Hfound Hip Hmiss.
    rewrite directive_ip. unfold rewriteIPAddress. rewrite Hread, Hdump, Hfound.
    destruct (net_ParseIP (parseIPv6 E) ip) as [|b parsed] eqn:Hparsed; [done|].
    by rewrite rewriteBytes_none.
  - intros ip fs'. rewrite directive_ip. apply route_miss_keeps_route.
  - intros mac Hsrc. rewrite directive_mac.
    unfold rewriteMacAddress, rewriteFile, os.ReadFile. by rewrite Hsrc.
Qed.

End image_rewriter.

Section image_rewriter_examples.
Import golang patch_criu examples.
Local Open Scope string_scope.
Local Open Scope list_scope.

Lemma failed_directive_destination_witness :
  directive stale_env 1 "/src" "/dst" "ip=10.0.0.5" fs_ifaddr_miss
  = (fs_ifaddr_miss, Done (Some (Errorf "can't find old address pos in ip addr dump")))
  ∧ os.files (directive rewriter_env 1 "/src" "/dst" "ip=10.0.0.5" fs_route_miss).1
      !! ("/dst", "route-8.img")
    = os.files fs_route_miss !! ("/dst", "route-8.img")
  ∧ directive stale_env 1 "/src" "/dst" "mac=0242ac110003" fs_ifaddr_miss
    = (fs_ifaddr_miss, Done (Some (SysErr ENOENT "/src/netdev-8.img"))).
Proof.
  split; [|split].
  - apply (proj1 (failed_directive_destination stale_env 1 "/src" "/dst" fs_ifaddr_miss)
             "10.0.0.5" (magic ++ [xac; x11; x00; x03; x10])
             (bytes_of_string "2: eth0    inet 172.17.0.2/16 scope global eth0")
             "172.17.0.2");
      [reflexivity | reflexivity | reflexivity | discriminate | reflexivity].
  - apply (proj1 (proj2 (failed_directive_destination rewriter_env 1 "/src" "/dst"
                           fs_route_miss)) "10.0.0.5").
    vm_compute. reflexivity.
  - apply (proj2 (proj2 (failed_directive_destination stale_env 1 "/src" "/dst"
                           fs_ifaddr_miss)) "0242ac110003").
    reflexivity.
Defined.

(** C1, as stated, fails.  On [fs_route_miss] the old address 172.17.0.2
    is found in [ifaddr-8.img] and not in [route-8.img]: the [ip=]
    directive fails, the rewriter exits with status 1, and the destination
    [ifaddr-8.img] is no longer the file that was there.  On [fs_netdev]
    the directive [mac=zz] fails on the hex digits, the rewriter exits
    with status 1, and the destination [netdev-8.img] is cut down to the
    magic header. *)
Lemma failed_ip_directive_rewrites_ifaddr :
  let r := main rewriter_env 1 ["patch-criu"; "/src"; "/dst"; "ip=10.0.0.5"] fs_route_miss in
  let r' := main eth0_env 1 ["patch-criu"; "/src"; "/dst"; "mac=zz"] fs_netdev in
  r.2 = Done 1
  ∧ (directive rewriter_env 1 "/src" "/dst" "ip=10.0.0.5" fs_route_miss).2
    = Done (Some (Errorf "can't find old address pos in ip route dump"))
  ∧ os.files fs_route_miss !! ("/dst", "ifaddr-8.img")
    = Some (magic ++ [xc0; xa8; x00; x07; x10])
  ∧ os.files r.1 !! ("/dst", "ifaddr-8.img") = Some (magic ++ [x0a; x00; x00; x05; x10])
  ∧ r'.2 = Done 1
  ∧ (directive eth0_env 1 "/src" "/dst" "mac=zz" fs_netdev).2
    = Done (Some (ExternalErr "encoding/hex: invalid byte"))
  ∧ os.files fs_netdev !! ("/dst", "netdev-8.img")
    = Some (magic ++ [x06; x00; x00; x00; x02; x42; xac; x11; x00; x01])
  ∧ os.files r'.1 !! ("/dst", "netdev-8.img") = Some magic.
Proof. repeat split; vm_compute; reflexivity. Qed.

(** A [mac=] directive that succeeds: the device [eth0] of [fs_netdev]
    gets the address 02:42:ac:11:00:03. *)
Lemma mac_rewrite_example :
  let r := main eth0_env 1 ["patch-criu"; "/src"; "/dst"; "mac=0242ac110003"] fs_netdev in
  r.2 = Done 0
  ∧ os.files r.1 !! ("/dst", "netdev-8.img")
    = Some (magic ++ [x06; x00; x00; x00; x02; x42; xac; x11; x00; x03]).
Proof. split; vm_compute; reflexivity. Qed.

(** The image directory [fs_rewritten] is what the directive [ip=10.0.0.5]
    makes of an image taken at 172.17.0.2. *)
Lemma first_ip_rewrite :
  main rewriter_env 1 ["patch-criu"; "/img"; "/img"; "ip=10.0.0.5"]
    (os.mkFS
       (list_to_map
          [ (("/img", "ifaddr-8.img"), magic ++ [xac; x11; x00; x02; x10]);
            (("/img", "route-8.img"), magic ++ [xac; x11; x00; x02]) ])
       {[ "/img" ]} ∅)
  = (fs_rewritten, Done 0).
Proof. vm_compute. reflexivity. Qed.

(** C5 fails on the code: applied a second time, the directive
    [ip=10.0.0.5] finds 10.0.0.5 as the old address, and [rewriteBytes]
    replaces it by itself for ever: whatever the fuel, the run of the
    rewriter does not end. *)
Theorem second_ip_rewrite_never_returns :
  ∀ fuel : nat,
    main rewriter_env fuel ["patch-criu"; "/img"; "/img"; "ip=10.0.0.5"] fs_rewritten
    = (fs_rewritten, Timeout).
Proof.
  intros fuel. unfold main, directives.
  pose proof (directive_ip rewriter_env fuel "/img" "/img" "10.0.0.5" fs_rewritten) as Hip.
  change ("ip=" +:+ "10.0.0.5") with "ip=10.0.0.5" in Hip. rewrite Hip. clear Hip.
  rewrite (rewriteIPAddress_same_address rewriter_env fuel "/img" "/img" "10.0.0.5"
             fs_rewritten (magic ++ [x0a; x00; x00; x05; x10])
             (bytes_of_string "2: eth0    inet 10.0.0.5/16 scope global eth0")
             "10.0.0.5" 4);
    [reflexivity | reflexivity | reflexivity | reflexivity | discriminate
    | reflexivity | reflexivity].
Qed.

End image_rewriter_examples.

(** ** [rewriteBytes] *)
Section rewrite_bytes.
Import golang patch_criu measures.
Implicit Types (data from to pre post : list byte).

Lemma weight_bound c l : (weight c l < 2 ^ length l)%nat.
Proof.
  induction l as [|x l IH]; simpl; [lia|].
  case_bool_decide; lia.
Qed.

(** Changing the first byte [c] after a common prefix into another byte
    lowers the weight, whatever follows. *)
Lemma weight_drops c b pre post post' :
  b ≠ c → length post = length post' →
  (weight c (pre ++ b :: post') < weight c (pre ++ c :: post))%nat.
Proof.
  intros Hb Hlen. induction pre as [|x pre IH]; simpl.
  - rewrite bool_decide_eq_false_2, bool_decide_eq_true_2 by done.
    pose proof (weight_bound c post'). rewrite Hlen. lia.
  - rewrite !length_app. simpl. rewrite Hlen. lia.
Qed.

(** Two different lists of the same length split at their first
    difference. *)
Lemma first_difference from to :
  length from = length to → from ≠ to →
  ∃ common a b f t,
    from = common ++ a :: f ∧ to = common ++ b :: t ∧ a ≠ b ∧ length f = length t.
Proof.
  revert to. induction from as [|x from IH]; intros [|y to] Hlen Hne; simplify_eq/=.
  destruct (decide (x = y)) as [->|Hxy].
  - destruct (IH to) as (common & a & b & f & t & -> & -> & Hab & Hft); [done|congruence|].
    by exists (y :: common), a, b, f, t.
  - by exists [], x, y, from, to.
Qed.

(** Where [bytes.Index] finds [from], the data splits around it. *)
Lemma bytes_Index_split data from pos :
  bytes_Index data from = Some pos →
  data = take pos data ++ from ++ drop (pos + length from) data
  ∧ (pos + length from ≤ length data)%nat.
Proof.
  intros Hpos. destruct (bytes_Index_Some _ _ _ Hpos) as [Htake Hlen]. split; [|done].
  rewrite <- Htake at 1. rewrite <- drop_drop, take_drop. by rewrite take_drop.
Qed.

Lemma copy_at_fits data pos src :
  (pos + length src ≤ length data)%nat →
  copy_at data pos src = take pos data ++ src ++ drop (pos + length src) data.
Proof.
  intros Hlen. unfold copy_at. by rewrite (firstn_all2 (n := length data - pos) src) by lia.
Qed.

Lemma copy_at_length data pos src :
  (pos ≤ length data)%nat → length (copy_at data pos src) = length data.
Proof.
  intros Hpos. unfold copy_at. rewrite !length_app, !length_take, length_drop. lia.
Qed.

(** A loop that finds [from] and leaves the data as it is goes on for
    ever. *)
Lemma rewriteBytes_stuck (E : Env) data from to pos :
  bytes_Index data from = Some pos →
  copy_at data pos to = data →
  (pos + length to ≤ length data + slack E)%nat →
  ∀ fuel replaced, rewriteBytes E fuel data from to replaced = Timeout.
Proof.
  intros Hpos Hcopy Hfit.
  induction fuel as [|fuel IH]; intros replaced; simpl; rewrite Hpos;
    destruct (Nat.leb_spec (pos + length to) (length data + slack E)); try lia; [done|].
  rewrite Hcopy. apply IH.
Qed.

(** What a run of [rewriteBytes] that returns has done. *)
Lemma rewriteBytes_returns (E : Env) from to fuel :
  ∀ data replaced data' replaced',
    rewriteBytes E fuel data from to replaced = Done (data', replaced') →
    length data' = length data
    ∧ bytes_Index data' from = None
    ∧ replaced ≤ replaced'
    ∧ (replaced' = replaced ↔ bytes_Index data from = None).
Proof.
  induction fuel as [|fuel IH]; intros data replaced data' replaced'; simpl.
  - destruct (bytes_Index data from) as [pos|] eqn:Hpos.
    + by destruct (_ <=? _)%nat.
    + intros [= <- <-]. split_and!; [done|done|lia|done].
  - destruct (bytes_Index data from) as [pos|] eqn:Hpos.
    + destruct (_ <=? _)%nat; [|done]. intros Hrun.
      destruct (IH _ _ _ _ Hrun) as (Hlen & Hnone & Hle & _).
      destruct (bytes_Index_Some _ _ _ Hpos) as [_ Hfit].
      rewrite copy_at_length in Hlen by lia.
      split_and!; [done|done|lia|]. split; [lia|done].
    + intros [= <- <-]. split_and!; [done|done|lia|done].
Qed.

(** With patterns of one length that differ, every replacement lowers the
    weight of the data at the byte where they first differ: the loop
    ends. *)
Lemma rewriteBytes_ends (E : Env) common a b f t :
  a ≠ b → length f = length t →
  ∀ fuel data replaced,
    (weight a data ≤ fuel)%nat →
    ∃ data' replaced',
      rewriteBytes E fuel data (common ++ a :: f) (common ++ b :: t) replaced
      = Done (data', replaced').
Proof.
  intros Hab Hft.
  assert (∀ data pos, bytes_Index data (common ++ a :: f) = Some pos →
            (pos + length (common ++ b :: t) ≤ length data + slack E)%nat
            ∧ (weight a (copy_at data pos (common ++ b :: t)) < weight a data)%nat) as Hstep.
  { intros data pos Hpos. destruct (bytes_Index_split _ _ _ Hpos) as [Hsplit Hfit].
    assert (length (common ++ b :: t) = length (common ++ a :: f)) as Hlen.
    { rewrite !length_app. simpl. lia. }
    split; [lia|]. rewrite copy_at_fits by lia. rewrite Hsplit at 3. rewrite Hlen.
    rewrite <- !(app_assoc common), !(app_assoc (take pos data)). simpl.
    apply weight_drops; [done|]. rewrite !length_app. lia. }
  induction fuel as [|fuel IH]; intros data replaced Hw; simpl.
  - destruct (bytes_Index data _) as [pos|] eqn:Hpos; [|by eauto].
    destruct (Hstep _ _ Hpos). lia.
  - destruct (bytes_Index data _) as [pos|] eqn:Hpos; [|by eauto].
    destruct (Hstep _ _ Hpos) as [Hfit Hlt].
    destruct (Nat.leb_spec (pos + length (common ++ b :: t)) (length data + slack E));
      [|lia].
    apply IH. lia.
Qed.

(** X1: [rewriteBytes] with two different patterns of one length returns,
    given fuel for [2 ^ len(data)] turns; the data keeps its length, holds
    no occurrence of [from] any more, and the count is zero exactly when
    [from] did not occur. *)
Theorem rewriteBytes_terminates (E : Env) data from to (fuel : nat) :
  length from = length to →
  from ≠ to →
  (2 ^ length data ≤ fuel)%nat →
  ∃ data' replaced,
    rewriteBytes E fuel data from to 0 = Done (data', replaced)
    ∧ length data' = length data
    ∧ bytes_Index data' from = None
    ∧ (replaced < 1 ↔ bytes_Index data from = None).
Proof.
  intros Hlen Hne Hfuel.
  destruct (first_difference from to Hlen Hne) as (common & a & b & f & t & -> & -> & Hab & Hft).
  pose proof (weight_bound a data) as Hw.
  destruct (rewriteBytes_ends E common a b f t Hab Hft fuel data 0) as (data' & replaced & Hrun);
    [lia|].
  exists data', replaced. split; [done|].
  destruct (rewriteBytes_returns _ _ _ _ _ _ _ _ Hrun) as (? & ? & ? & Hiff).
  split_and!; [done..|]. rewrite <- Hiff. lia.
Qed.

Lemma copy_at_0_twice data src :
  copy_at (copy_at data 0 src) 0 src = copy_at data 0 src.
Proof.
  unfold copy_at at 1. rewrite copy_at_length by lia. unfold copy_at. simpl.
  rewrite !Nat.sub_0_r. f_equal.
  destruct (Nat.le_gt_cases (length src) (length data)) as [Hle|Hgt].
  - rewrite (firstn_all2 (n := length data) src) by lia. by rewrite drop_app_length.
  - rewrite (drop_ge data) by lia. rewrite app_nil_r. apply drop_ge.
    rewrite length_take. lia.
Qed.

(** With an empty [from], [bytes.Index] answers 0 every time. *)
Lemma rewriteBytes_empty_from (E : Env) data to :
  (length to ≤ length data + slack E)%nat →
  ∀ fuel replaced, rewriteBytes E fuel data [] to replaced = Timeout.
Proof.
  intros Hfit [|fuel] replaced; simpl;
    (replace (bytes_Index data []) with (Some 0%nat) by (by destruct data));
    simpl; destruct (Nat.leb_spec (length to) (length data + slack E)); try lia; [done|].
  apply (rewriteBytes_stuck E _ [] to 0).
  - by destruct (copy_at data 0 to).
  - apply copy_at_0_twice.
  - rewrite copy_at_length by lia. simpl. lia.
Qed.

(** With an empty [to], [copy] writes nothing. *)
Lemma rewriteBytes_empty_to (E : Env) data from pos :
  bytes_Index data from = Some pos →
  ∀ fuel replaced, rewriteBytes E fuel data from [] replaced = Timeout.
Proof.
  intros Hpos. destruct (bytes_Index_Some _ _ _ Hpos) as [_ Hfit].
  apply (rewriteBytes_stuck E data from [] pos Hpos).
  - unfold copy_at. simpl. rewrite firstn_nil. simpl. rewrite Nat.add_0_r. apply take_drop.
  - simpl. lia.
Qed.

End rewrite_bytes.

(** ** [rewriteIPAddress] *)
Section rewrite_ip.
Import golang patch_criu.
Local Open Scope string_scope.
Local Open Scope list_scope.

(** X2: when the address found in the dump is one that [net.ParseIP]
    rejects (the expression accepts 999.17.0.2 and 172..0.2), the old
    address is empty, [bytes.Index] finds it at 0 in every turn, and the
    directive does not return. *)
Theorem unparsable_old_address_hangs (E : Env) (fuel : nat) (srcPath destPath ip : string)
    (fs : os.FS) (data dump : list byte) (found : string) :
  os.ReadFile srcPath "ifaddr-8.img" fs = Ok data →
  ipAddrShowdump E data = Ok dump →
  FindSubmatch (string_of_bytes dump) = Some found →
  To4 (net_ParseIP (parseIPv6 E) found) = [] →
  net_ParseIP (parseIPv6 E) ip ≠ [] →
  (length (To4 (net_ParseIP (parseIPv6 E) ip)) ≤ length data + slack E)%nat →
  rewriteIPAddress E fuel srcPath destPath ip fs = (fs, Timeout).
Proof.
  intros Hread Hdump Hfound Hold Hip Hfit.
  unfold rewriteIPAddress. rewrite Hread, Hdump, Hfound, Hold.
  destruct (net_ParseIP (parseIPv6 E) ip) as [|b parsed] eqn:Hparsed; [done|].
  by rewrite rewriteBytes_empty_from.
Qed.

(** X3: when the new address parses and is not an IPv4 address, [To4]
    gives nil, every replacement copies nothing, and the directive does
    not return once the old address is found; no error is raised for the
    address. *)
Theorem non_ipv4_new_address_hangs (E : Env) (fuel : nat) (srcPath destPath ip : string)
    (fs : os.FS) (data dump : list byte) (found : string) (pos : nat) :
  os.ReadFile srcPath "ifaddr-8.img" fs = Ok data →
  ipAddrShowdump E data = Ok dump →
  FindSubmatch (string_of_bytes dump) = Some found →
  net_ParseIP (parseIPv6 E) ip ≠ [] →
  To4 (net_ParseIP (parseIPv6 E) ip) = [] →
  bytes_Index data (To4 (net_ParseIP (parseIPv6 E) found)) = Some pos →
  rewriteIPAddress E fuel srcPath destPath ip fs = (fs, Timeout).
Proof.
  intros Hread Hdump Hfound Hip Hnew Hpos.
  unfold rewriteIPAddress. rewrite Hread, Hdump, Hfound.
  destruct (net_ParseIP (parseIPv6 E) ip) as [|b parsed] eqn:Hparsed; [done|].
  rewrite Hnew. by rewrite (rewriteBytes_empty_to E data _ pos Hpos).
Qed.

Lemma replaceWrite_ok dir name data fs fs' :
  replaceWrite dir name data fs = (fs', None) →
  os.files fs' !! (dir, name) = Some data.
Proof.
  unfold replaceWrite, os.WriteFile.
  destruct (os.writable dir name _); [done|]. intros [= <-]. simpl.
  apply lookup_insert_eq.
Qed.

(** X4: an [ip=] directive that succeeds has found the old address in both
    source files, and has left in the destination two files of the
    lengths of the sources in which the old address occurs no more. *)
Theorem rewriteIPAddress_success (E : Env) (fuel : nat) (srcPath destPath ip : string)
    (fs fs' : os.FS) :
  rewriteIPAddress E fuel srcPath destPath ip fs = (fs', Done None) →
  ∃ data routeData dump found data' routeData',
    let old := To4 (net_ParseIP (parseIPv6 E) found) in
    os.ReadFile srcPath "ifaddr-8.img" fs = Ok data
    ∧ os.ReadFile srcPath "route-8.img" fs = Ok routeData
    ∧ ipAddrShowdump E data = Ok dump
    ∧ FindSubmatch (string_of_bytes dump) = Some found
    ∧ bytes_Index data old ≠ None
    ∧ bytes_Index routeData old ≠ None
    ∧ os.files fs' !! (destPath, "ifaddr-8.img") = Some data'
    ∧ os.files fs' !! (destPath, "route-8.img") = Some routeData'
    ∧ length data' = length data
    ∧ length routeData' = length routeData
    ∧ bytes_Index data' old = None
    ∧ bytes_Index routeData' old = None.
Proof.
  unfold rewriteIPAddress.
  destruct (os.ReadFile srcPath "ifaddr-8.img" fs) as [data|] eqn:Hread; [|done].
  destruct (ipAddrShowdump E data) as [dump|] eqn:Hdump; [|done].
  destruct (FindSubmatch (string_of_bytes dump)) as [found|] eqn:Hfound; [|done].
  destruct (net_ParseIP (parseIPv6 E) ip) as [|b parsed]; [done|].
  destruct (rewriteBytes E fuel data _ _ 0) as [[data' replaced]| |] eqn:Hrun; [|done..].
  destruct (Z.ltb_spec replaced 1) as [|Hrep]; [done|].
  destruct (replaceWrite destPath "ifaddr-8.img" data' fs) as [fs1 [e|]] eqn:Hw1; [done|].
  assert (os.ReadFile srcPath "route-8.img" fs1 = os.ReadFile srcPath "route-8.img" fs)
    as Hsame.
  { unfold os.ReadFile.
    pose proof (replaceWrite_other destPath "ifaddr-8.img" data' fs (srcPath, "route-8.img"))
      as Hother.
    rewrite Hw1 in Hother. simpl in Hother. by rewrite Hother by congruence. }
  rewrite Hsame.
  destruct (os.ReadFile srcPath "route-8.img" fs) as [routeData|] eqn:Hread2; [|done].
  destruct (rewriteBytes E fuel routeData _ _ 0) as [[routeData' replaced']| |] eqn:Hrun2;
    [|done..].
  destruct (Z.ltb_spec replaced' 1) as [|Hrep']; [done|].
  destruct (replaceWrite destPath "route-8.img" routeData' fs1) as [fs2 [e|]] eqn:Hw2;
    intros [= <-].
  destruct (rewriteBytes_returns _ _ _ _ _ _ _ _ Hrun) as (Hlen & Hnone & _ & Hiff).
  destruct (rewriteBytes_returns _ _ _ _ _ _ _ _ Hrun2) as (Hlen2 & Hnone2 & _ & Hiff2).
  exists data, routeData, dump, found, data', routeData'. cbv zeta.
  split_and!; try done.
  - intros Hn. apply Hiff in Hn. lia.
  - intros Hn. apply Hiff2 in Hn. lia.
  - pose proof (replaceWrite_other destPath "route-8.img" routeData' fs1
                  (destPath, "ifaddr-8.img")) as Hother.
    rewrite Hw2 in Hother. simpl in Hother. rewrite Hother by congruence.
    by apply (replaceWrite_ok _ _ _ _ _ Hw1).
  - by apply (replaceWrite_ok _ _ _ _ _ Hw2).
Qed.

End rewrite_ip.

(** ** Records *)
Section records.
Import golang patch_criu framing.
Local Open Scope string_scope.
Local Open Scope list_scope.
Local Open Scope Z_scope.

Lemma Z_of_byte_of_Z (z : Z) : Z_of_byte (byte_of_Z z) = z mod 256.
Proof.
  unfold Z_of_byte, byte_of_Z.
  pose proof (Z.mod_pos_bound z 256 eq_refl) as Hz.
  destruct (Byte.of_N (Z.to_N (z mod 256))) as [b|] eqn:Hb.
  - apply Byte.to_of_N in Hb. rewrite Hb. apply Z2N.id. lia.
  - apply Byte.of_N_None_iff in Hb. lia.
Qed.

Lemma lor_shiftl_low (hi lo n : Z) :
  0 ≤ n → 0 ≤ lo < 2 ^ n → Z.lor (Z.shiftl hi n) lo = hi * 2 ^ n + lo.
Proof.
  intros Hn Hlo. rewrite <- Z.shiftl_mul_pow2 by done. symmetry.
  apply Z.add_nocarry_lor. apply Z.bits_inj'. intros i Hi.
  rewrite Z.land_spec, Z.bits_0.
  destruct (Z.lt_ge_cases i n) as [Hlt|Hge].
  - by rewrite Z.shiftl_spec_low.
  - rewrite <- (Z.mod_small lo (2 ^ n)) by done.
    rewrite Z.mod_pow2_bits_high by lia. apply andb_false_r.
Qed.

Lemma uint32_decode_encode (bigEndian : bool) (v : Z) (r : list byte) :
  0 ≤ v < 2 ^ 32 →
  binary_Read_uint32 bigEndian (uint32_encode bigEndian v ++ r) = Ok (v, r).
Proof.
  intros Hv.
  assert (Z.lor (Z.shiftl (Z_of_byte (byte_of_Z (Z.shiftr v 24))) 24)
            (Z.lor (Z.shiftl (Z_of_byte (byte_of_Z (Z.shiftr v 16))) 16)
               (Z.lor (Z.shiftl (Z_of_byte (byte_of_Z (Z.shiftr v 8))) 8)
                  (Z_of_byte (byte_of_Z v)))) = v) as Hsum.
  { rewrite !Z_of_byte_of_Z, !Z.shiftr_div_pow2 by lia.
    change (2 ^ 8) with 256. change (2 ^ 16) with 65536. change (2 ^ 24) with 16777216.
    change (2 ^ 32) with 4294967296 in Hv.
    rewrite (lor_shiftl_low _ (v mod 256) 8);
      [|lia|change (2 ^ 8) with 256; Z.to_euclidean_division_equations; lia].
    change (2 ^ 8) with 256.
    rewrite (lor_shiftl_low _ _ 16);
      [|lia|change (2 ^ 16) with 65536; Z.to_euclidean_division_equations; lia].
    change (2 ^ 16) with 65536.
    rewrite (lor_shiftl_low _ _ 24);
      [|lia|change (2 ^ 24) with 16777216; Z.to_euclidean_division_equations; lia].
    change (2 ^ 24) with 16777216.
    Z.to_euclidean_division_equations; lia. }
  destruct bigEndian; simpl; by rewrite Hsum.
Qed.

Lemma read_frame (E : Env) (body rest : list byte) :
  Z.of_nat (length body) < 2 ^ 32 →
  binary_Read_uint32 (bigEndian E) (frame (bigEndian E) body ++ rest)
  = Ok (Z.of_nat (length body), body ++ rest).
Proof.
  intros Hlen. unfold frame. rewrite <- app_assoc.
  rewrite Z.mod_small by lia. apply uint32_decode_encode. lia.
Qed.

(** One turn of the record loop on a whole record. *)
Lemma rewriteRecords_frame (E : Env) patch fuel body out rest :
  Z.of_nat (length body) < 2 ^ 32 →
  patch body = Ok out →
  rewriteRecords E patch (S fuel) (frame (bigEndian E) body ++ rest)
  = (frame (bigEndian E) out ++ (rewriteRecords E patch fuel rest).1,
     (rewriteRecords E patch fuel rest).2).
Proof.
  intros Hlen Hpatch.
  destruct (frame (bigEndian E) body ++ rest) as [|b0 l] eqn:Hl.
  { unfold frame, uint32_encode in Hl. by destruct (bigEndian E). }
  cbn [rewriteRecords]. rewrite <- Hl, read_frame by done.
  unfold io_ReadFull. rewrite Nat2Z.id.
  destruct (Nat.leb_spec (length body) (length (body ++ rest))) as [_|Hgt];
    [|rewrite length_app in Hgt; lia].
  rewrite take_app_length, drop_app_length, Hpatch.
  by destruct (rewriteRecords E patch fuel rest).
Qed.

(** The loop on a run of whole records, followed by [rest]. *)
Lemma rewriteRecords_frames (E : Env) patch fuel bodies outs rest :
  Forall (λ body, Z.of_nat (length body) < 2 ^ 32) bodies →
  Forall2 (λ body out, patch body = Ok out) bodies outs →
  rewriteRecords E patch (length bodies + fuel) (frames (bigEndian E) bodies ++ rest)
  = (frames (bigEndian E) outs ++ (rewriteRecords E patch fuel rest).1,
     (rewriteRecords E patch fuel rest).2).
Proof.
  intros Hlen Hpatch. revert Hlen.
  induction Hpatch as [|body out bodies outs Hp _ IH]; intros Hlen.
  - simpl. by destruct (rewriteRecords E patch fuel rest).
  - apply Forall_cons in Hlen as [Hb Hlen].
    change (frames (bigEndian E) (body :: bodies))
      with (frame (bigEndian E) body ++ frames (bigEndian E) bodies).
    change (frames (bigEndian E) (out :: outs))
      with (frame (bigEndian E) out ++ frames (bigEndian E) outs).
    change (length (body :: bodies) + fuel)%nat with (S (length bodies + fuel)).
    rewrite <- !app_assoc. rewrite (rewriteRecords_frame E patch _ body out) by done.
    rewrite (IH Hlen). reflexivity.
Qed.

Lemma frames_length (be : bool) bodies : (length bodies ≤ length (frames be bodies))%nat.
Proof.
  induction bodies as [|body bodies IH]; [done|].
  change (frames be (body :: bodies)) with (frame be body ++ frames be bodies).
  rewrite length_app. unfold frame at 1. rewrite length_app.
  assert (length (uint32_encode be (Z.of_nat (length body) mod 2 ^ 32)) = 4%nat) as ->
    by (by destruct be).
  simpl. lia.
Qed.

Lemma rewriteRecords_cut_short (E : Env) patch fuel tail :
  cut_short (bigEndian E) tail →
  ∃ e, (e = EOF ∨ e = ErrUnexpectedEOF)
       ∧ rewriteRecords E patch fuel tail = ([], Done (Some e)).
Proof.
  intros [Hlen|(n & part & -> & Hn & Hpart)].
  - exists ErrUnexpectedEOF. split; [by right|].
    destruct tail as [|b0 [|b1 [|b2 [|b3 tail]]]]; simpl in Hlen; try lia;
      by destruct fuel.
  - assert (rewriteRecords E patch fuel (uint32_encode (bigEndian E) n ++ part)
            = match io_ReadFull (Z.to_nat n) part with
              | Err e => ([], Done (Some e))
              | Ok _ => rewriteRecords E patch fuel (uint32_encode (bigEndian E) n ++ part)
              end) as ->.
    { destruct (uint32_encode (bigEndian E) n ++ part) as [|b0 l] eqn:Hl.
      { unfold uint32_encode in Hl. by destruct (bigEndian E). }
      destruct fuel; cbn [rewriteRecords]; rewrite <- Hl, uint32_decode_encode by done;
        by destruct (io_ReadFull (Z.to_nat n) part) as [[? ?]|]. }
    unfold io_ReadFull.
    destruct (Nat.leb_spec (Z.to_nat n) (length part)); [lia|].
    destruct part; eauto.
Qed.

(** [rewriteFile] on a source that can be read and a destination that can
    be written. *)
Lemma rewriteFile_written (E : Env) patch srcPath destPath name fs src :
  os.ReadFile srcPath name fs = Ok src →
  destPath ∈ os.dirs fs →
  destPath ∉ os.readonly fs →
  (4 ≤ length src)%nat →
  rewriteFile E patch srcPath destPath name fs
  = (written destPath name
       (take 4 src ++ (rewriteRecords E patch (length src) (drop 4 src)).1) fs,
     (rewriteRecords E patch (length src) (drop 4 src)).2).
Proof.
  intros Hread Hdir Hro Hlen. unfold rewriteFile. rewrite Hread.
  assert (os.dirs (os.Remove destPath name fs).1 = os.dirs fs
          ∧ os.readonly (os.Remove destPath name fs).1 = os.readonly fs
          ∧ ∀ data, <[(destPath, name) := data]> (os.files (os.Remove destPath name fs).1)
                    = <[(destPath, name) := data]> (os.files fs)) as (Hd & Hr & Hf).
  { unfold os.Remove. rewrite bool_decide_eq_false_2 by done.
    destruct (os.files fs !! (destPath, name)); simpl; split_and!; try done.
    intros data. apply insert_delete_eq. }
  unfold os.writable. rewrite Hd, Hr.
  rewrite bool_decide_eq_true_2, bool_decide_eq_false_2 by done.
  destruct (Nat.ltb_spec (length src) 4); [lia|].
  destruct (rewriteRecords E patch (length src) (drop 4 src)) as [out res]. simpl.
  unfold written, os.with_files. by rewrite Hf, Hd, Hr.
Qed.

(** [rewriteFile] on a header and whole records, followed by [tail]. *)
Lemma rewriteFile_frames (E : Env) patch srcPath destPath name fs header bodies outs tail :
  os.ReadFile srcPath name fs = Ok (header ++ frames (bigEndian E) bodies ++ tail) →
  length header = 4%nat →
  destPath ∈ os.dirs fs →
  destPath ∉ os.readonly fs →
  Forall (λ body, Z.of_nat (length body) < 2 ^ 32) bodies →
  Forall2 (λ body out, patch body = Ok out) bodies outs →
  ∃ fuel,
    rewriteFile E patch srcPath destPath name fs
    = (written destPath name
         (header ++ frames (bigEndian E) outs ++ (rewriteRecords E patch fuel tail).1) fs,
       (rewriteRecords E patch fuel tail).2).
Proof.
  intros Hread Hheader Hdir Hro Hlen Hpatch.
  rewrite (rewriteFile_written E patch _ _ _ _ _ Hread Hdir Hro)
    by (rewrite length_app; lia).
  rewrite take_app_length', drop_app_length' by done.
  pose proof (frames_length (bigEndian E) bodies) as Hfl.
  remember (length (header ++ frames (bigEndian E) bodies ++ tail)) as n eqn:Hn.
  assert (length bodies ≤ n)%nat as Hle by (subst n; rewrite !length_app; lia).
  exists (n - length bodies)%nat.
  pose proof (rewriteRecords_frames E patch (n - length bodies) bodies outs tail Hlen Hpatch)
    as Hrr.
  replace (length bodies + (n - length bodies))%nat with n in Hrr by lia.
  by rewrite Hrr.
Qed.

Lemma rewriteRecords_nil (E : Env) patch fuel : rewriteRecords E patch fuel [] = ([], Done None).
Proof. by destruct fuel. Qed.

End records.

(** ** [rewriteMacAddress] *)
Section rewrite_mac.
Import golang patch_criu framing.
Local Open Scope string_scope.
Local Open Scope list_scope.
Local Open Scope Z_scope.

(** X5: on a source made of a four-byte header and whole records, with a
    destination that can be written, [rewriteMacAddress] writes the header
    and, record by record, the device encoded again, the device [eth0]
    with the address of the directive and every other device as decoded. *)
Theorem rewriteMacAddress_records (E : Env) (srcPath destPath mac : string) (fs : os.FS)
    (header macHex : list byte) (bodies outs : list (list byte)) :
  os.ReadFile srcPath "netdev-8.img" fs = Ok (header ++ frames (bigEndian E) bodies) →
  length header = 4%nat →
  destPath ∈ os.dirs fs →
  destPath ∉ os.readonly fs →
  hex_DecodeString mac = Ok macHex →
  Forall (λ body, Z.of_nat (length body) < 2 ^ 32) bodies →
  Forall2
    (λ body out,
       ∃ device,
         UnmarshalNetDevice E body = Ok device
         ∧ MarshalNetDevice E
             (if bool_decide (Name device = Some "eth0")
              then mkNetDeviceEntry (Name device) macHex (netOther device)
              else device)
           = Ok out)
    bodies outs →
  rewriteMacAddress E srcPath destPath mac fs
  = (written destPath "netdev-8.img" (header ++ frames (bigEndian E) outs) fs, Done None).
Proof.
  intros Hread Hheader Hdir Hro Hhex Hlen Hdev.
  rewrite <- (app_nil_r (frames (bigEndian E) bodies)) in Hread.
  destruct (rewriteFile_frames E (patchMac E mac) _ _ _ _ _ bodies outs [] Hread Hheader
              Hdir Hro Hlen) as (fuel & Hrun).
  { eapply Forall2_impl; [exact Hdev|]. intros body out (device & Hun & Hm).
    unfold patchMac. rewrite Hun, Hhex. by case_bool_decide. }
  unfold rewriteMacAddress. rewrite Hrun, rewriteRecords_nil. simpl.
  by rewrite app_nil_r.
Qed.

(** X6: the hex digits of the directive are decoded only when a device
    named [eth0] is met.  With a codec that encodes a decoded device as it
    was, a source without such a device is copied byte for byte, whatever
    the value of the directive. *)
Theorem rewriteMacAddress_without_eth0 (E : Env) (srcPath destPath mac : string)
    (fs : os.FS) (header : list byte) (bodies : list (list byte)) :
  os.ReadFile srcPath "netdev-8.img" fs = Ok (header ++ frames (bigEndian E) bodies) →
  length header = 4%nat →
  destPath ∈ os.dirs fs →
  destPath ∉ os.readonly fs →
  Forall
    (λ body,
       Z.of_nat (length body) < 2 ^ 32
       ∧ ∃ device,
           UnmarshalNetDevice E body = Ok device
           ∧ Name device ≠ Some "eth0"
           ∧ MarshalNetDevice E device = Ok body)
    bodies →
  rewriteMacAddress E srcPath destPath mac fs
  = (written destPath "netdev-8.img" (header ++ frames (bigEndian E) bodies) fs, Done None).
Proof.
  intros Hread Hheader Hdir Hro Hdev.
  rewrite <- (app_nil_r (frames (bigEndian E) bodies)) in Hread.
  destruct (rewriteFile_frames E (patchMac E mac) _ _ _ _ _ bodies bodies [] Hread Hheader
              Hdir Hro) as (fuel & Hrun).
  { eapply Forall_impl; [exact Hdev|]. by intros body [? _]. }
  { apply Forall_Forall2_diag. eapply Forall_impl; [exact Hdev|].
    intros body (_ & device & Hun & Hname & Hm).
    unfold patchMac. rewrite Hun. by rewrite bool_decide_eq_false_2. }
  unfold rewriteMacAddress. rewrite Hrun, rewriteRecords_nil. simpl.
  by rewrite app_nil_r.
Qed.

(** X7: a source that ends inside a record is an error, [io.EOF] or
    [io.ErrUnexpectedEOF], for [rewriteMacAddress] as for
    [rewriteCgroupPaths]; the destination then holds the header and the
    records that were whole. *)
Theorem truncated_image_is_an_error (E : Env) (srcPath destPath : string) (fs : os.FS)
    (header tail : list byte) (bodies outs : list (list byte)) :
  length header = 4%nat →
  destPath ∈ os.dirs fs →
  destPath ∉ os.readonly fs →
  Forall (λ body, Z.of_nat (length body) < 2 ^ 32) bodies →
  cut_short (bigEndian E) tail →
  (∀ mac,
     os.ReadFile srcPath "netdev-8.img" fs = Ok (header ++ frames (bigEndian E) bodies ++ tail) →
     Forall2 (λ body out, patchMac E mac body = Ok out) bodies outs →
     ∃ e, (e = EOF ∨ e = ErrUnexpectedEOF)
          ∧ rewriteMacAddress E srcPath destPath mac fs
            = (written destPath "netdev-8.img" (header ++ frames (bigEndian E) outs) fs,
               Done (Some e)))
  ∧ (∀ fromPattern toPattern,
       os.ReadFile srcPath "cgroup.img" fs = Ok (header ++ frames (bigEndian E) bodies ++ tail) →
       Forall2 (λ body out, patchCgroup E fromPattern toPattern body = Ok out) bodies outs →
       ∃ e, (e = EOF ∨ e = ErrUnexpectedEOF)
            ∧ rewriteCgroupPaths E srcPath destPath fromPattern toPattern fs
              = (written destPath "cgroup.img" (header ++ frames (bigEndian E) outs) fs,
                 Done (Some e))).
Proof.
  intros Hheader Hdir Hro Hlen Htail. split.
  - intros mac Hread Hpatch.
    destruct (rewriteFile_frames E (patchMac E mac) _ _ _ _ _ bodies outs tail Hread Hheader
                Hdir Hro Hlen Hpatch) as (fuel & Hrun).
    destruct (rewriteRecords_cut_short E (patchMac E mac) fuel tail Htail) as (e & He & Hcut).
    exists e. split; [done|]. unfold rewriteMacAddress. rewrite Hrun, Hcut. simpl.
    by rewrite app_nil_r.
  - intros fromPattern toPattern Hread Hpatch.
    destruct (rewriteFile_frames E (patchCgroup E fromPattern toPattern) _ _ _ _ _ bodies outs
                tail Hread Hheader Hdir Hro Hlen Hpatch) as (fuel & Hrun).
    destruct (rewriteRecords_cut_short E (patchCgroup E fromPattern toPattern) fuel tail Htail)
      as (e & He & Hcut).
    exists e. split; [done|]. unfold rewriteCgroupPaths. rewrite Hrun, Hcut. simpl.
    by rewrite app_nil_r.
Qed.

End rewrite_mac.

(** ** What the rewriter may write *)
Section confinement.
Import golang patch_criu framing.
Local Open Scope string_scope.
Local Open Scope list_scope.
Local Open Scope Z_scope.

Lemma confined_refl dir names fs : confined dir names fs fs.
Proof. by split_and!. Qed.

Lemma confined_trans dir names fs1 fs2 fs3 :
  confined dir names fs1 fs2 → confined dir names fs2 fs3 → confined dir names fs1 fs3.
Proof.
  intros (Hd & Hr & Hf) (Hd' & Hr' & Hf'). split_and!; [congruence..|].
  intros d n Hdn. by rewrite Hf', Hf.
Qed.

Lemma confined_mono dir names names' fs fs' :
  names ⊆ names' → confined dir names fs fs' → confined dir names' fs fs'.
Proof.
  intros Hsub (Hd & Hr & Hf). split_and!; [done..|].
  intros d n [Hdn|Hn]; apply Hf; [by left|right]. intros Hin. by apply Hn, Hsub.
Qed.

Lemma sublist_names (names names' : list string) :
  Forall (λ n, n ∈ names') names → names ⊆ names'.
Proof. intros Hall n Hn. by apply (proj1 (Forall_forall _ _) Hall). Qed.

Lemma confined_files dir name fs m :
  (∀ k, k ≠ (dir, name) → m !! k = os.files fs !! k) →
  confined dir [name] fs (os.with_files fs m).
Proof.
  intros Hm. split_and!; [done..|]. intros d n Hdn. apply Hm.
  intros [= -> ->]. destruct Hdn as [?|Hn]; [done|]. apply Hn. by left.
Qed.

Lemma Remove_confined dir name fs : confined dir [name] fs (os.Remove dir name fs).1.
Proof.
  unfold os.Remove. case_bool_decide; [apply confined_refl|].
  destruct (os.files fs !! (dir, name)); [|apply confined_refl].
  apply confined_files. intros k Hk. by apply lookup_delete_ne.
Qed.

Lemma written_confined dir name data fs : confined dir [name] fs (written dir name data fs).
Proof. apply confined_files. intros k Hk. by apply lookup_insert_ne. Qed.

Lemma replaceWrite_confined dir name data fs :
  confined dir [name] fs (replaceWrite dir name data fs).1.
Proof.
  unfold replaceWrite, os.WriteFile.
  destruct (os.writable dir name _); simpl; [apply Remove_confined|].
  eapply confined_trans; [apply Remove_confined|]. apply written_confined.
Qed.

Lemma rewriteFile_confined (E : Env) patch srcPath destPath name fs :
  confined destPath [name] fs (rewriteFile E patch srcPath destPath name fs).1.
Proof.
  unfold rewriteFile. destruct (os.ReadFile srcPath name fs); [|apply confined_refl].
  destruct (os.writable destPath name _); [apply Remove_confined|].
  assert (∀ data, confined destPath [name] fs
                    (os.with_files (os.Remove destPath name fs).1
                       (<[(destPath, name) := data]> (os.files (os.Remove destPath name fs).1))))
    as Hput.
  { intros data. eapply confined_trans; [apply Remove_confined|]. apply written_confined. }
  destruct (_ <? _)%nat; [apply Hput|].
  destruct (rewriteRecords E patch _ _). apply Hput.
Qed.

Lemma rewriteIPAddress_confined (E : Env) fuel srcPath destPath ip fs :
  confined destPath ["ifaddr-8.img"; "route-8.img"] fs
    (rewriteIPAddress E fuel srcPath destPath ip fs).1.
Proof.
  unfold rewriteIPAddress.
  destruct (os.ReadFile srcPath "ifaddr-8.img" fs) as [data|]; [|apply confined_refl].
  destruct (ipAddrShowdump E data) as [dump|]; [|apply confined_refl].
  destruct (FindSubmatch (string_of_bytes dump)) as [found|]; [|apply confined_refl].
  destruct (net_ParseIP (parseIPv6 E) ip) as [|b parsed]; [apply confined_refl|].
  destruct (rewriteBytes E fuel data _ _ 0) as [[data' replaced]| |];
    [|apply confined_refl..].
  destruct (replaced <? 1); [apply confined_refl|].
  assert (confined destPath ["ifaddr-8.img"; "route-8.img"] fs
            (replaceWrite destPath "ifaddr-8.img" data' fs).1) as H1.
  { eapply confined_mono; [|apply replaceWrite_confined].
    apply sublist_names. repeat constructor. }
  destruct (replaceWrite destPath "ifaddr-8.img" data' fs) as [fs1 [e|]]; [done|].
  simpl in H1.
  destruct (os.ReadFile srcPath "route-8.img" fs1) as [routeData|]; [|done].
  destruct (rewriteBytes E fuel routeData _ _ 0) as [[routeData' replaced']| |]; [|done..].
  destruct (replaced' <? 1); [done|].
  assert (confined destPath ["ifaddr-8.img"; "route-8.img"] fs1
            (replaceWrite destPath "route-8.img" routeData' fs1).1) as H2.
  { eapply confined_mono; [|apply replaceWrite_confined].
    apply sublist_names. repeat constructor. }
  destruct (replaceWrite destPath "route-8.img" routeData' fs1) as [fs2 err].
  by eapply confined_trans.
Qed.

Lemma directive_confined (E : Env) fuel srcPath destPath spec fs :
  confined destPath image_files fs (directive E fuel srcPath destPath spec fs).1.
Proof.
  unfold directive. destruct (strings_SplitN2 spec "=") as [|key value]; [apply confined_refl|].
  destruct (String.eqb key "ip").
  { destruct value; [apply confined_refl|].
    eapply confined_mono; [|apply rewriteIPAddress_confined].
    apply sublist_names. unfold image_files. repeat constructor. }
  destruct (String.eqb key "mac").
  { destruct value; [apply confined_refl|].
    eapply confined_mono; [|apply rewriteFile_confined].
    apply sublist_names. unfold image_files. repeat constructor. }
  destruct (String.eqb key "cgroup"); [|apply confined_refl].
  destruct value as [|v ?]; [apply confined_refl|].
  destruct (strings_SplitN2 v ":") as [|old [|new ?]]; try apply confined_refl.
  eapply confined_mono; [|apply rewriteFile_confined].
  apply sublist_names. unfold image_files. repeat constructor.
Qed.

Lemma directives_confined (E : Env) fuel srcPath destPath specs fs :
  confined destPath image_files fs (directives E fuel srcPath destPath specs fs).1.
Proof.
  revert fs. induction specs as [|spec specs IH]; intros fs; simpl; [apply confined_refl|].
  pose proof (directive_confined E fuel srcPath destPath spec fs) as Hd.
  destruct (directive E fuel srcPath destPath spec fs) as [fs1 [[e|]| |]]; try done.
  eapply confined_trans; [exact Hd|apply IH].
Qed.

Lemma rewriter_confined_to (E : Env) fuel srcPath destPath fs specs :
  confined destPath image_files fs (directives E fuel srcPath destPath specs fs).1.
Proof. apply directives_confined. Qed.

(** X8: whatever its directives and however it ends, the rewriter creates
    and removes no directory, and changes no file but [netdev-8.img],
    [ifaddr-8.img], [route-8.img] and [cgroup.img] of the destination
    directory; with a destination other than the source, the source image
    is left as it was. *)
Theorem rewriter_writes_destination_only (E : Env) (fuel : nat) (Args : list string)
    (fs : os.FS) :
  os.dirs (main E fuel Args fs).1 = os.dirs fs
  ∧ ∀ destPath dir name,
      Args !! 2%nat = Some destPath →
      dir ≠ destPath ∨ name ∉ image_files →
      os.files (main E fuel Args fs).1 !! (dir, name) = os.files fs !! (dir, name).
Proof.
  unfold main. destruct Args as [|prog [|srcPath [|destPath specs]]]; try done.
  destruct (directives_confined E fuel srcPath destPath specs fs) as (Hd & _ & Hf).
  split; [done|]. intros ? dir name [= <-]. apply Hf.
Qed.

(** *** The loop over the directives *)

Lemma directives_app (E : Env) fuel srcPath destPath specs specs' fs :
  directives E fuel srcPath destPath (specs ++ specs') fs
  = match directives E fuel srcPath destPath specs fs with
    | (fs1, Done status) =>
        if status =? 0 then directives E fuel srcPath destPath specs' fs1
        else (fs1, Done status)
    | other => other
    end.
Proof.
  revert fs. induction specs as [|spec specs IH]; intros fs; simpl.
  - by destruct (directives E fuel srcPath destPath specs' fs).
  - by destruct (directive E fuel srcPath destPath spec fs) as [fs1 [[e|]| |]].
Qed.

(** X9: the directives are applied in order up to the first that fails;
    the rewriter then exits with status 1, the directives after it are not
    looked at, and what the directives before it wrote is not taken
    back. *)
Theorem first_failing_directive_ends_the_run (E : Env) (fuel : nat)
    (prog srcPath destPath spec : string) (before after : list string)
    (fs fs1 fs2 : os.FS) (err : error) :
  main E fuel (prog :: srcPath :: destPath :: before) fs = (fs1, Done 0) →
  directive E fuel srcPath destPath spec fs1 = (fs2, Done (Some err)) →
  main E fuel (prog :: srcPath :: destPath :: before ++ spec :: after) fs = (fs2, Done 1).
Proof.
  unfold main. intros Hbefore Hspec.
  rewrite directives_app, Hbefore. simpl. by rewrite Hspec.
Qed.

Lemma SplitN2_without_sep (s : string) :
  string_index s "=" = None → strings_SplitN2 s "=" = [s].
Proof. intros Hs. unfold strings_SplitN2. by rewrite Hs. Qed.

(** X10: a directive without [=] is looked up by its whole text: [ip],
    [mac] and [cgroup] then index a value that is not there and the
    rewriter panics; any other text is reported as an unknown key.  The
    file system is not touched. *)
Theorem directive_without_value (E : Env) (fuel : nat) (srcPath destPath spec : string)
    (fs : os.FS) :
  string_index spec "=" = None →
  directive E fuel srcPath destPath spec fs
  = (fs, if bool_decide (spec ∈ ["ip"; "mac"; "cgroup"])
         then Panic
         else Done (Some (Errorf ("unkown key: " +:+ spec)))).
Proof.
  intros Hs. unfold directive. rewrite SplitN2_without_sep by done.
  destruct (String.eqb_spec spec "ip") as [->|Hip]; [done|].
  destruct (String.eqb_spec spec "mac") as [->|Hmac]; [done|].
  destruct (String.eqb_spec spec "cgroup") as [->|Hcg]; [done|].
  rewrite bool_decide_eq_false_2; [done|].
  intros Hin. repeat (apply elem_of_cons in Hin as [->|Hin]; [done|]).
  by apply elem_of_nil in Hin.
Qed.

End confinement.

(** ** [rewriteCgroupPaths] *)
Section rewrite_cgroup.
Import golang patch_criu cgroup_tree.
Local Open Scope string_scope.
Local Open Scope list_scope.
Local Open Scope Z_scope.

Lemma CgroupDirEntry_nested_ind (P : CgroupDirEntry → Prop) :
  (∀ name children other, Forall P children → P (mkCgroupDirEntry name children other)) →
  ∀ dir, P dir.
Proof.
  intros Hstep. fix IH 1. intros [name children other]. apply Hstep.
  induction children as [|child children IHc]; constructor; [apply IH|exact IHc].
Qed.

Lemma dir_names_rewrite (fromPattern toPattern : string) (dir : CgroupDirEntry) :
  dir_names (rewriteCgroupDirEntry dir fromPattern toPattern)
  = List.map (λ name, strings_Replace name fromPattern toPattern) (dir_names dir).
Proof.
  induction dir as [name children other IH] using CgroupDirEntry_nested_ind.
  cbn [rewriteCgroupDirEntry dir_names List.map]. f_equal.
  induction IH as [|child children Hchild _ IHc]; [done|].
  cbn [List.map flat_map]. by rewrite List.map_app, Hchild, IHc.
Qed.

Lemma replace_from_absent (s old new : string) :
  string_index s old = None → old ≠ EmptyString → replace_from 0 s old new = s.
Proof.
  intros Hs Hold. induction s as [|c s IH]; [done|].
  cbn [string_index] in Hs. cbn [replace_from].
  destruct (String.prefix old (String c s)); [done|].
  destruct (string_index s old); [done|]. by rewrite IH.
Qed.

Lemma strings_Replace_absent (s old new : string) :
  string_index s old = None → strings_Replace s old new = s.
Proof.
  intros Hs. destruct old as [|a old].
  - by destruct s.
  - by apply replace_from_absent.
Qed.

Lemma rewriteCgroupDirEntry_absent (fromPattern toPattern : string) (dir : CgroupDirEntry) :
  Forall (λ name, string_index name fromPattern = None) (dir_names dir) →
  rewriteCgroupDirEntry dir fromPattern toPattern = dir.
Proof.
  induction dir as [name children other IH] using CgroupDirEntry_nested_ind.
  cbn [rewriteCgroupDirEntry dir_names]. intros Hnames.
  apply Forall_cons in Hnames as [Hname Hnames].
  rewrite strings_Replace_absent by done. f_equal.
  induction IH as [|child children Hchild _ IHc]; [done|].
  cbn [flat_map] in Hnames. apply Forall_app in Hnames as [Hc Hcs].
  cbn [List.map]. by rewrite Hchild, IHc.
Qed.

(** X11: for a record that decodes, [rewriteCgroupPaths] encodes an entry in
    which every path of every set and every directory name of every
    controller, at every depth, has gone through [strings.Replace], in
    the order of the entry; when the pattern occurs in none of them, the
    entry is encoded as it was decoded. *)
Theorem patchCgroup_renames (E : Env) (fromPattern toPattern : string) (buf : list byte)
    (entry : CgroupEntry) :
  UnmarshalCgroup E buf = Ok entry →
  ∃ entry',
    patchCgroup E fromPattern toPattern buf = MarshalCgroup E entry'
    ∧ entry_names entry'
      = List.map (λ name, strings_Replace name fromPattern toPattern) (entry_names entry)
    ∧ (Forall (λ name, string_index name fromPattern = None) (entry_names entry) →
       entry' = entry).
Proof.
  intros Hun. unfold patchCgroup. rewrite Hun. cbv zeta.
  eexists. split; [reflexivity|]. destruct entry as [sets controllers].
  unfold entry_names. cbn [Sets Controllers]. clear Hun. split.
  - rewrite List.map_app. f_equal.
    + induction sets as [|set sets IH]; [done|].
      cbn [List.map flat_map Ctls]. rewrite List.map_app, IH. f_equal.
      rewrite !List.map_map. reflexivity.
    + induction controllers as [|controller controllers IH]; [done|].
      cbn [List.map flat_map Dirs]. rewrite List.map_app, IH. f_equal.
      induction (Dirs controller) as [|dir dirs IHd]; [done|].
      cbn [List.map flat_map]. by rewrite List.map_app, dir_names_rewrite, IHd.
  - intros [Hsets Hcontrollers]%Forall_app. f_equal.
    + induction sets as [|[id ctls] sets IH]; [done|].
      cbn [flat_map Ctls] in Hsets. apply Forall_app in Hsets as [Hctls Hsets].
      cbn [List.map setId Ctls]. rewrite IH by done. do 2 f_equal.
      induction ctls as [|[name path] ctls IHc]; [done|].
      cbn [List.map Path] in Hctls. apply Forall_cons in Hctls as [Hpath Hctls].
      cbn [List.map ctlName Path]. by rewrite IHc, strings_Replace_absent.
    + induction controllers as [|[names dirs] controllers IH]; [done|].
      cbn [flat_map Dirs] in Hcontrollers.
      apply Forall_app in Hcontrollers as [Hdirs Hcontrollers].
      cbn [List.map Cnames Dirs]. rewrite IH by done. do 2 f_equal.
      induction dirs as [|dir dirs IHd]; [done|].
      cbn [flat_map] in Hdirs. apply Forall_app in Hdirs as [Hdir Hdirs].
      cbn [List.map]. by rewrite IHd, rewriteCgroupDirEntry_absent.
Qed.

Lemma prefix_empty (s : string) : String.prefix EmptyString s = true.
Proof. by destruct s. Qed.

Lemma string_index_at (c : ascii) (a b : string) :
  string_index a (String c EmptyString) = None →
  string_index (a +:+ String c b) (String c EmptyString) = Some (String.length a).
Proof.
  induction a as [|x a IH]; intros Ha.
  - change (EmptyString +:+ String c b) with (String c b).
    cbn [string_index String.prefix]. destruct (ascii_dec c c); [|done].
    by rewrite prefix_empty.
  - change (String x a +:+ String c b) with (String x (a +:+ String c b)).
    cbn [string_index String.prefix] in Ha |- *.
    destruct (ascii_dec c x); [by rewrite prefix_empty in Ha|].
    destruct (string_index a (String c EmptyString)) eqn:Hidx; [done|].
    by rewrite IH.
Qed.

Lemma string_take_app (a b : string) : string_take (String.length a) (a +:+ b) = a.
Proof.
  unfold string_take. induction a as [|x a IH]; [by destruct b|].
  change (String x a +:+ b) with (String x (a +:+ b)). cbn. by rewrite IH.
Qed.

Lemma string_drop_app (c : ascii) (a b : string) :
  string_drop (String.length a + 1) (a +:+ String c b) = b.
Proof.
  unfold string_drop. induction a as [|x a IH].
  - change (EmptyString +:+ String c b) with (String c b). cbn.
    by rewrite Nat.sub_0_r, substring_all.
  - change (String x a +:+ String c b) with (String x (a +:+ String c b)).
    cbn [String.length Nat.add Nat.sub String.substring]. exact IH.
Qed.

Lemma SplitN2_at (c : ascii) (a b : string) :
  string_index a (String c EmptyString) = None →
  strings_SplitN2 (a +:+ String c b) (String c EmptyString) = [a; b].
Proof.
  intros Ha. unfold strings_SplitN2. rewrite string_index_at by done.
  cbn [String.length]. by rewrite string_take_app, string_drop_app.
Qed.

(** X12: a [cgroup=] directive is cut at its first colon: the text before
    it is the old pattern, all the text after it, further colons
    included, the new one.  Without a colon the directive is refused and
    the file system is not touched. *)
Theorem cgroup_directive (E : Env) (fuel : nat) (srcPath destPath : string) (fs : os.FS) :
  (∀ old new,
     string_index old ":" = None →
     directive E fuel srcPath destPath ("cgroup=" +:+ old +:+ ":" +:+ new) fs
     = rewriteCgroupPaths E srcPath destPath old new fs)
  ∧ (∀ value,
       string_index value ":" = None →
       directive E fuel srcPath destPath ("cgroup=" +:+ value) fs
       = (fs, Done (Some (Errorf "invalid cgroup= parameter")))).
Proof.
  assert (∀ v, strings_SplitN2 ("cgroup=" +:+ v) "=" = ["cgroup"; v]) as Hsplit.
  { intros v. by apply (SplitN2_at "=" "cgroup" v). }
  split.
  - intros old new Hold. unfold directive. rewrite Hsplit. cbn [String.eqb Ascii.eqb Bool.eqb].
    change (":" +:+ new) with (String ":" new).
    by rewrite (SplitN2_at ":" old new Hold).
  - intros value Hvalue. unfold directive. rewrite Hsplit. cbn [String.eqb Ascii.eqb Bool.eqb].
    unfold strings_SplitN2. by rewrite Hvalue.
Qed.

End rewrite_cgroup.

(** ** More on the registry and the job handlers *)
Section job_handlers.
Import golang daemon notions.
Local Open Scope string_scope.
Local Open Scope list_scope.
Local Open Scope Z_scope.

Lemma NoDup_fmap_eq {A B} (f : A → B) (l : list A) (x y : A) :
  NoDup (f <$> l) → x ∈ l → y ∈ l → f x = f y → x = y.
Proof.
  induction l as [|a l IH]; intros Hnd Hx Hy Hf; [by apply elem_of_nil in Hx|].
  rewrite fmap_cons in Hnd. apply NoDup_cons in Hnd as [Ha Hnd].
  apply elem_of_cons in Hx as [->|Hx]; apply elem_of_cons in Hy as [->|Hy]; try done.
  - destruct Ha. rewrite Hf. by apply list_elem_of_fmap_2.
  - destruct Ha. rewrite <- Hf. by apply list_elem_of_fmap_2.
  - by apply IH.
Qed.

(** X13: when no two checkpoints of the registry were created at the same
    instant, the list made by container inspection does not depend on
    the order in which the registry is visited. *)
Theorem inspect_order_independent (visit visit' : list ContainerCheckpoint) :
  visit ≡ₚ visit' →
  NoDup (CreatedAt <$> visit) →
  ContainerInspect_checkpoints visit = ContainerInspect_checkpoints visit'.
Proof.
  intros Hperm Hnd. rewrite !inspect_rev.
  assert (∀ v, fold_left (λ r c, insert_desc c r) v [] ≡ₚ v) as Hp.
  { intros v. apply (fold_insert_perm v []). }
  apply StronglySorted_unique_strong with (R := older_first).
  - intros x1 x2 Hx1 Hx2 H12 H21. unfold older_first in *.
    apply (NoDup_fmap_eq CreatedAt visit); [done| | |lia].
    + rewrite <- (Hp visit). by rewrite Permutation_rev.
    + rewrite Hperm, <- (Hp visit'). by rewrite Permutation_rev.
  - apply sorted_rev, fold_insert_sorted. constructor.
  - apply sorted_rev, fold_insert_sorted. constructor.
  - by rewrite <- !Permutation_rev, !Hp.
Qed.

(** X14: the handler of the checkpoint job asks a container to checkpoint
    exactly when it has two arguments and the first names a container,
    and it logs the event exactly when the job succeeds. *)
Theorem checkpoint_job_calls (d : Daemon) (job : Job) :
  ((∃ c stop, CallCheckpoint c stop ∈ (ContainerCheckpoint_job d job).2)
   ↔ ∃ name arg1 c, Args job = [name; arg1] ∧ Get d name = Some c)
  ∧ ((∃ c, LogEvent c "checkpoint" ∈ (ContainerCheckpoint_job d job).2)
     ↔ (ContainerCheckpoint_job d job).1 = StatusOK).
Proof.
  unfold ContainerCheckpoint_job.
  destruct (Args job) as [|name [|arg1 [|? ?]]] eqn:Hargs; simpl;
    try (split; split; [intros (? & ? & []%elem_of_nil) | intros (? & ? & ? & ? & ?); done
                       | intros (? & []%elem_of_nil) | done]).
  destruct (Get d name) as [c|] eqn:Hget; simpl.
  2:{ split; split; [intros (? & ? & []%elem_of_nil) | intros (? & ? & ? & [= <- <-] & ?); congruence
                    | intros (? & []%elem_of_nil) | done]. }
  destruct (Container_Checkpoint d c _) as [err|]; simpl; split; split.
  - intros _. by exists name, arg1, c.
  - intros _. eexists _, _. by left.
  - intros (c' & Hin). apply list_elem_of_singleton in Hin. done.
  - done.
  - intros _. by exists name, arg1, c.
  - intros _. eexists _, _. by left.
  - done.
  - intros _. exists c. right. by left.
Qed.

(** X15: whatever the job, a restore is asked of a container only with a
    checkpoint that belongs to it and bears the identifier asked for,
    provided every registry holds the checkpoints of its container under
    their identifiers.  With [clone] set the container is the one the
    runtime has just created, otherwise the one named; the event is
    logged exactly when the job succeeds. *)
Theorem restore_job_calls (d : Daemon) (job : Job) (fs : os.FS) :
  (∀ c id cp, Checkpoints d c !! id = Some cp → container cp = c ∧ ID cp = id) →
  let calls := (ContainerRestore d job fs).2 in
  (∀ c cp b,
     CallRestore c cp b ∈ calls →
     container cp = c ∧ b = GetenvBool_clone job
     ∧ ∃ name original,
         Args job = [name; ID cp] ∧ Get d name = Some original
         ∧ if GetenvBool_clone job then Create d original = Ok c else c = original)
  ∧ ((∃ c, LogEvent c "restore" ∈ calls) ↔ (ContainerRestore d job fs).1.2 = StatusOK).
Proof.
  intros Hreg. unfold ContainerRestore.
  destruct (Args job) as [|name [|checkpointID [|? ?]]] eqn:Hargs; simpl;
    try (split; [intros ? ? ? []%elem_of_nil | split; [intros (? & []%elem_of_nil) | done]]).
  destruct (Get d name) as [c|] eqn:Hget; simpl;
    [|split; [intros ? ? ? []%elem_of_nil | split; [intros (? & []%elem_of_nil) | done]]].
  destruct (Checkpoints d c !! checkpointID) as [checkpoint|] eqn:Hcp; simpl;
    [|split; [intros ? ? ? []%elem_of_nil | split; [intros (? & []%elem_of_nil) | done]]].
  destruct (Hreg _ _ _ Hcp) as [Hc Hid].
  destruct (GetenvBool_clone job) eqn:Hclone.
  - unfold cloneContainer. destruct (Create d c) as [cloned|err] eqn:Hcreate; simpl;
      [|split; [intros ? ? ? []%elem_of_nil | split; [intros (? & []%elem_of_nil) | done]]].
    destruct (clone checkpoint cloned fs) as [fs1 [checkpoint'|err]] eqn:Hcl; simpl;
      [|split; [intros ? ? ? []%elem_of_nil | split; [intros (? & []%elem_of_nil) | done]]].
    assert (container checkpoint' = cloned ∧ ID checkpoint' = checkpointID) as [Hc' Hid'].
    { revert Hcl. unfold clone. destruct (os.MkdirAll _ _) as [? [?|]]; [done|].
      destruct (os.Readdirnames _ _); [|done].
      destruct (linkAll _ _ _ _) as [? [?|]]; [done|]. by intros [= _ <-]. }
    destruct (Container_Restore d cloned checkpoint' true fs1) as [fs2 [err|]]; simpl.
    + split; [|split; [intros (? & Hin); by apply list_elem_of_singleton in Hin|done]].
      intros c0 cp b Hin. apply list_elem_of_singleton in Hin as [= -> -> ->].
      split_and!; [done..|]. exists name, c. by rewrite Hid'.
    + split; [|split; [done|intros _; exists cloned; right; by left]].
      intros c0 cp b Hin. apply elem_of_cons in Hin as [[= -> -> ->]|Hin].
      * split_and!; [done..|]. exists name, c. by rewrite Hid'.
      * by apply list_elem_of_singleton in Hin.
  - destruct (Container_Restore d c checkpoint false fs) as [fs2 [err|]]; simpl.
    + split; [|split; [intros (? & Hin); by apply list_elem_of_singleton in Hin|done]].
      intros c0 cp b Hin. apply list_elem_of_singleton in Hin as [= -> -> ->].
      split_and!; [done..|]. exists name, c. by rewrite Hid.
    + split; [|split; [done|intros _; exists c; right; by left]].
      intros c0 cp b Hin. apply elem_of_cons in Hin as [[= -> -> ->]|Hin].
      * split_and!; [done..|]. exists name, c. by rewrite Hid.
      * by apply list_elem_of_singleton in Hin.
Qed.

End job_handlers.

(** ** More on the clone coordinator *)
Section clone_and_patch.
Import golang daemon notions framing.
Local Open Scope string_scope.
Local Open Scope list_scope.
Local Open Scope Z_scope.

(** The names [Readdirnames] lists are those of the files of the
    directory, each once. *)
Lemma Readdirnames_names dir fs names :
  os.Readdirnames dir fs = Ok names →
  NoDup names ∧ ∀ name, name ∈ names ↔ is_Some (os.files fs !! (dir, name)).
Proof.
  unfold os.Readdirnames. case_bool_decide; [|done]. intros [= <-]. split.
  - apply NoDup_fmap_2_strong; [|apply NoDup_filter, NoDup_elements].
    intros [d1 n1] [d2 n2] [H1 _]%list_elem_of_filter [H2 _]%list_elem_of_filter Hn.
    simpl in *. congruence.
  - intros name. rewrite list_elem_of_fmap. split.
    + intros ([d n] & -> & [Hd Hin]%list_elem_of_filter). simpl in *. subst d.
      by apply elem_of_dom, elem_of_elements.
    + intros Hsome. exists (dir, name). split; [done|].
      apply list_elem_of_filter. split; [done|]. by apply elem_of_elements, elem_of_dom.
Qed.

(** What a loop of hard links that succeeds has made. *)
Lemma linkAll_links imagePath newImagePath dirents fs fs' :
  linkAll imagePath newImagePath dirents fs = (fs', None) →
  (∀ name, name ∈ dirents → name ≠ "restore.pid" →
     ∃ data, os.files fs' !! (imagePath, name) = Some data
             ∧ os.files fs' !! (newImagePath, name) = Some data)
  ∧ (∀ d n, d ≠ newImagePath ∨ n ∉ dirents ∨ n = "restore.pid" →
       os.files fs' !! (d, n) = os.files fs !! (d, n)).
Proof.
  revert fs. induction dirents as [|name rest IH]; intros fs; simpl.
  - intros [= <-]. split; [by intros ? []%elem_of_nil|done].
  - destruct (String.eqb_spec name "restore.pid") as [->|Hname].
    + intros Hrest. destruct (IH _ Hrest) as [Hl Ho]. split.
      * intros n [->|Hn]%elem_of_cons Hne; [done|by apply Hl].
      * intros d n Hdn. apply Ho. destruct Hdn as [?|[Hn|?]]; [by left| |by right; right].
        right; left. intros Hin. apply Hn. by right.
    + pose proof (linkAll_grows imagePath newImagePath rest) as Hgrow.
      unfold os.Link.
      destruct (os.files fs !! (imagePath, name)) as [data|] eqn:Hsrc; [|done].
      destruct (os.writable newImagePath name fs); [done|].
      destruct (os.files fs !! (newImagePath, name)) eqn:Hdst; [done|].
      set (fs1 := os.with_files fs (<[(newImagePath, name) := data]> (os.files fs))).
      intros Hrest. destruct (IH _ Hrest) as [Hl Ho]. specialize (Hgrow fs1).
      rewrite Hrest in Hgrow. destruct Hgrow as [Hsub _]. simpl in Hsub. split.
      * intros n [->|Hn]%elem_of_cons Hne; [|by apply Hl].
        exists data. split; apply (lookup_weaken (os.files fs1)); try done.
        -- simpl. rewrite lookup_insert_ne; [done|]. intros [= Heq]. congruence.
        -- simpl. apply lookup_insert_eq.
      * intros d n Hdn.
        destruct (decide ((d, n) = (newImagePath, name))) as [[= -> ->]|Hk].
        { destruct Hdn as [?|[Hn|?]]; [done| |done]. destruct Hn. by left. }
        rewrite Ho.
        -- simpl. by rewrite lookup_insert_ne.
        -- destruct Hdn as [?|[Hn|?]]; [by left| |by right; right].
           right; left. intros Hin. apply Hn. by right.
Qed.

(** X16: a clone that succeeds gives the checkpoint with its identifier, its
    time of creation and its network settings, bound to the target
    container, and has linked into the target image directory every file of
    the source image directory but [restore.pid], with the same content;
    every file that was there before is still there. *)
Theorem clone_links_the_image (cp cp' : ContainerCheckpoint) (forContainer : Container)
    (fs fs' : os.FS) :
  clone cp forContainer fs = (fs', Ok cp') →
  cp' = mkContainerCheckpoint (ID cp) (NetworkSettings_ cp) (CreatedAt cp) forContainer
  ∧ imagePath cp' ∈ os.dirs fs'
  ∧ (∀ name data,
       os.files fs !! (imagePath cp, name) = Some data →
       name ≠ "restore.pid" →
       os.files fs' !! (imagePath cp', name) = Some data)
  ∧ os.files fs' !! (imagePath cp', "restore.pid")
    = os.files fs !! (imagePath cp', "restore.pid")
  ∧ os.files fs ⊆ os.files fs'.
Proof.
  unfold clone.
  set (newCheckpoint := mkContainerCheckpoint (ID cp) (NetworkSettings_ cp) (CreatedAt cp)
                          forContainer).
  pose proof (MkdirAll_grows (imagePath newCheckpoint) fs) as (Hf & Hd & Hin & _).
  destruct (os.MkdirAll (imagePath newCheckpoint) fs) as [fs1 [e|]]; [done|]. simpl in *.
  destruct (os.Readdirnames (imagePath cp) fs1) as [dirents|] eqn:Hread; [|done].
  pose proof (linkAll_grows (imagePath cp) (imagePath newCheckpoint) dirents fs1) as [Hsub Hdirs].
  destruct (linkAll (imagePath cp) (imagePath newCheckpoint) dirents fs1) as [fs2 [e|]] eqn:Hlink;
    [done|].
  intros [= <- <-]. simpl in *.
  destruct (linkAll_links _ _ _ _ _ Hlink) as [Hlinks Hother].
  destruct (Readdirnames_names _ _ _ Hread) as [_ Hnames].
  split_and!; [done| | | |by rewrite <- Hf].
  - rewrite Hdirs. by apply Hin.
  - intros name data Hsrc Hname. rewrite <- Hf in Hsrc.
    destruct (Hlinks name) as (data' & Hs & Ht); [by apply Hnames|done|].
    rewrite (lookup_weaken _ _ _ _ Hsrc Hsub) in Hs. congruence.
  - rewrite Hother, Hf; [done|]. by right; right.
Qed.

(** *** [patchImage] *)

Lemma Rmdir_files dir fs : os.files (os.Rmdir dir fs).1 = os.files fs.
Proof.
  unfold os.Rmdir. repeat case_bool_decide; try done.
  by destruct (filter _ _).
Qed.

Lemma renameAll_error tmpdir imagePath dirents fs msg :
  (renameAll tmpdir imagePath dirents fs).2 ≠ Some (Errorf msg).
Proof.
  revert fs. induction dirents as [|name rest IH]; intros fs; simpl; [done|].
  unfold os.Rename, os.writable.
  destruct (os.files fs !! (tmpdir, name)); [|done].
  repeat case_bool_decide; done.
Qed.

(** X17: [patchImage] lets the rewriter write into a temporary directory
    and moves the files afterwards: when the rewriter fails, or does not
    return, no file of the image directory has changed. *)
Theorem patchImage_failure_keeps_the_image (E : patch_criu.Env) (fuel : nat)
    (tmpdir : string) (cp : ContainerCheckpoint) (fs fs' : os.FS)
    (res : Run (option error)) :
  tmpdir ≠ imagePath cp →
  patchImage E fuel tmpdir cp fs = (fs', res) →
  res = Timeout ∨ (∃ msg, res = Done (Some (Errorf msg))) →
  ∀ name, os.files fs' !! (imagePath cp, name) = os.files fs !! (imagePath cp, name).
Proof.
  intros Htmp Hrun Hres name. revert Hrun. unfold patchImage.
  pose proof (MkdirAll_grows tmpdir fs) as (Hf & _).
  destruct (os.MkdirAll tmpdir fs) as [fs1 [e|]] eqn:Hmk; simpl in Hf.
  { intros [= <- <-]. by rewrite Hf. }
  pose proof (rewriter_confined_to E fuel (imagePath cp) tmpdir fs1) as Hconf.
  specialize (Hconf (patchImage_directives cp)).
  change (patchImage_directives cp) with (drop 2 (patchImage_args cp "")) in Hconf.
  change (patch_criu.main E fuel ("patch-criu" :: patchImage_args cp tmpdir) fs1)
    with (patch_criu.directives E fuel (imagePath cp) tmpdir
            (drop 2 (patchImage_args cp "")) fs1).
  destruct (patch_criu.directives E fuel (imagePath cp) tmpdir _ fs1)
    as [fs2 [status| |]]; simpl in Hconf; destruct Hconf as (_ & _ & Hfiles).
  - destruct (status =? 0).
    + destruct (os.Readdirnames tmpdir fs2) as [dirents|e] eqn:Hread.
      * pose proof (renameAll_error tmpdir (imagePath cp) dirents fs2) as Herr.
        destruct (renameAll tmpdir (imagePath cp) dirents fs2) as [fs3 err]. simpl in *.
        intros [= <- <-]. destruct Hres as [Hres|[msg Hres]]; [done|].
        injection Hres as Hres. by destruct (Herr msg).
      * intros [= <- <-]. destruct Hres as [Hres|[msg Hres]]; [done|].
        injection Hres as Hres. subst e. revert Hread. unfold os.Readdirnames.
        by case_bool_decide.
    + intros [= <- <-]. simpl. rewrite Rmdir_files, Hfiles, Hf; [done|by left].
  - intros [= <- <-]. simpl. rewrite Rmdir_files, Hfiles, Hf; [done|by left].
  - intros [= <- <-]. rewrite Hfiles, Hf; [done|by left].
Qed.

(** What a loop of renamings that succeeds has made. *)
Lemma renameAll_moves tmpdir imagePath dirents fs fs' :
  tmpdir ≠ imagePath →
  NoDup dirents →
  renameAll tmpdir imagePath dirents fs = (fs', None) →
  os.dirs fs' = os.dirs fs
  ∧ os.readonly fs' = os.readonly fs
  ∧ (dirents ≠ [] → tmpdir ∉ os.readonly fs)
  ∧ (∀ n, n ∈ dirents →
       os.files fs' !! (imagePath, n) = os.files fs !! (tmpdir, n)
       ∧ os.files fs' !! (tmpdir, n) = None)
  ∧ (∀ d n, n ∉ dirents ∨ (d ≠ tmpdir ∧ d ≠ imagePath) →
       os.files fs' !! (d, n) = os.files fs !! (d, n)).
Proof.
  intros Htmp. revert fs. induction dirents as [|name rest IH]; intros fs Hnd; simpl.
  - intros [= <-]. split_and!; try done. by intros ? []%elem_of_nil.
  - apply NoDup_cons in Hnd as [Hname Hnd]. unfold os.Rename.
    destruct (os.files fs !! (tmpdir, name)) as [data|] eqn:Hsrc; [|done].
    case_bool_decide as Hro; [done|].
    destruct (os.writable imagePath name fs); [done|].
    set (fs1 := os.with_files fs
                  (<[(imagePath, name) := data]> (delete (tmpdir, name) (os.files fs)))).
    intros Hrest. destruct (IH fs1 Hnd Hrest) as (Hd & Hr & _ & Hin & Hout).
    split_and!; [done|done|done| |].
    + intros n [->|Hn]%elem_of_cons.
      * rewrite !Hout by (by left). simpl.
        rewrite lookup_insert_eq, lookup_insert_ne, lookup_delete_eq by congruence. done.
      * destruct (Hin n Hn) as [-> ->]. split; [|done]. simpl.
        rewrite lookup_insert_ne, lookup_delete_ne; [done| |]; intros [= ?]; set_solver.
    + intros d n Hdn. rewrite Hout.
      * simpl. rewrite lookup_insert_ne, lookup_delete_ne; [done| |];
          intros [= -> ->]; destruct Hdn as [Hn|[? ?]]; try done; apply Hn; by left.
      * destruct Hdn as [Hn|?]; [left|by right]. intros ?. apply Hn. by right.
Qed.

(** X18: when [patchImage] succeeds with a temporary directory that did not
    exist before, every file the rewriter left in the temporary directory
    has taken the place of the file of that name in the image directory,
    the other files of the image directory are as they were, and the
    temporary directory is empty and removed. *)
Theorem patchImage_moves_the_files (E : patch_criu.Env) (fuel : nat)
    (tmpdir : string) (cp : ContainerCheckpoint) (fs fs' : os.FS) :
  tmpdir ≠ imagePath cp →
  tmpdir ∉ os.dirs fs →
  patchImage E fuel tmpdir cp fs = (fs', Done None) →
  let rewritten :=
    (patch_criu.main E fuel ("patch-criu" :: patchImage_args cp tmpdir)
       (os.MkdirAll tmpdir fs).1).1 in
  (tmpdir ∉ os.dirs fs')
  ∧ ∀ name,
      os.files fs' !! (tmpdir, name) = None
      ∧ os.files fs' !! (imagePath cp, name)
        = match os.files rewritten !! (tmpdir, name) with
          | Some data => Some data
          | None => os.files fs !! (imagePath cp, name)
          end.
Proof.
  intros Htmp Hfresh Hrun. cbv zeta. revert Hrun. unfold patchImage.
  pose proof (MkdirAll_grows tmpdir fs) as (Hf & _ & Hin & _).
  assert ((os.MkdirAll tmpdir fs).2 = None → tmpdir ∉ os.readonly (os.MkdirAll tmpdir fs).1)
    as Hrw.
  { unfold os.MkdirAll. rewrite bool_decide_eq_false_2 by done. by case_bool_decide. }
  destruct (os.MkdirAll tmpdir fs) as [fs1 [e|]] eqn:Hmk; [intros [=]|].
  cbn [fst]. simpl in Hf, Hin, Hrw. specialize (Hin eq_refl). specialize (Hrw eq_refl).
  pose proof (rewriter_confined_to E fuel (imagePath cp) tmpdir fs1
                (drop 2 (patchImage_args cp ""))) as Hconf.
  change (patch_criu.main E fuel ("patch-criu" :: patchImage_args cp tmpdir) fs1)
    with (patch_criu.directives E fuel (imagePath cp) tmpdir
            (drop 2 (patchImage_args cp "")) fs1).
  destruct (patch_criu.directives E fuel (imagePath cp) tmpdir _ fs1)
    as [fs2 [status| |]]; [|simpl; intros [=]..].
  simpl in Hconf. destruct Hconf as (Hd2 & Hr2 & Hf2).
  destruct (status =? 0); [|simpl; intros [=]].
  destruct (os.Readdirnames tmpdir fs2) as [dirents|e] eqn:Hread; [|simpl; intros [=]].
  destruct (Readdirnames_names _ _ _ Hread) as [Hnd Hnames].
  destruct (renameAll tmpdir (imagePath cp) dirents fs2) as [fs3 [e|]] eqn:Hren;
    [simpl; intros [=]|].
  destruct (renameAll_moves _ _ _ _ _ Htmp Hnd Hren) as (Hd3 & Hr3 & _ & Hmoved & Hkept).
  simpl. intros [= <-].
  assert (∀ name, os.files fs3 !! (tmpdir, name) = None) as Hempty.
  { intros name. destruct (decide (name ∈ dirents)) as [Hn|Hn]; [by apply Hmoved|].
    rewrite Hkept by (by left). apply eq_None_not_Some. by rewrite <- Hnames. }
  assert (filter (λ k : string * string, k.1 = tmpdir) (elements (dom (os.files fs3))) = [])
    as Hnone.
  { destruct (filter _ _) as [|[d n] l] eqn:Hfl; [done|].
    assert ((d, n) ∈ filter (λ k : string * string, k.1 = tmpdir)
                       (elements (dom (os.files fs3)))) as Hk by (rewrite Hfl; by left).
    apply list_elem_of_filter in Hk as [Hk1 Hk2]. simpl in Hk1. subst d.
    apply elem_of_elements, elem_of_dom in Hk2. rewrite Hempty in Hk2. by destruct Hk2. }
  split.
  - unfold os.Rmdir. rewrite Hd3, Hd2, Hr3, Hr2.
    rewrite bool_decide_eq_true_2, bool_decide_eq_false_2 by done.
    rewrite Hnone. simpl. apply not_elem_of_difference. right. by apply elem_of_singleton.
  - intros name. rewrite Rmdir_files. cbn [fst]. split; [apply Hempty|].
    destruct (decide (name ∈ dirents)) as [Hn|Hn].
    + destruct (Hmoved name Hn) as [-> _].
      apply Hnames in Hn as [data Hdata]. by rewrite Hdata.
    + rewrite Hkept by (by left).
      assert (os.files fs2 !! (tmpdir, name) = None) as ->.
      { apply eq_None_not_Some. by rewrite <- Hnames. }
      rewrite Hf2 by (by left). by rewrite Hf.
Qed.

End clone_and_patch.

(** ** The driver: active containers, [execRestore], [Terminate], [getEnv] *)
Section driver_lifecycle.
Import golang execdriver native notions native_lifecycle.
Local Open Scope string_scope.
Local Open Scope list_scope.
Local Open Scope Z_scope.

(** X19: [Checkpoint] runs the freezer tool exactly when the container is
    in the map of active containers; otherwise it fails without running
    anything, as it does for a container that [cleanContainer] has just
    taken off the map.  The flag [stop] changes nothing. *)
Theorem Checkpoint_needs_active_container (H : Host) (d : driver)
    (checkpoint : execdriver.Checkpoint) (stop : bool) :
  let id := ID (Command_ checkpoint) in
  (id ∉ activeContainers d →
   Checkpoint H d checkpoint stop
   = (Some (Errorf ("active container for " +:+ id +:+ " does not exist")), []))
  ∧ (∀ removeAll,
       Checkpoint H (cleanContainer removeAll d id).1 checkpoint stop
       = (Some (Errorf ("active container for " +:+ id +:+ " does not exist")), []))
  ∧ (Checkpoint H (activate d id) checkpoint stop).2
    = [EvExec "criu" (Checkpoint_cmdArgs checkpoint)]
  ∧ Checkpoint H d checkpoint stop = Checkpoint H d checkpoint (negb stop).
Proof.
  intros id. unfold Checkpoint. fold id. split_and!.
  - intros Hid. by rewrite bool_decide_eq_false_2.
  - intros removeAll. rewrite bool_decide_eq_false_2; [done|]. simpl.
    intros [_ Hid]%elem_of_difference. apply Hid. by apply elem_of_singleton.
  - rewrite bool_decide_eq_true_2
      by (simpl; apply elem_of_union; left; by apply elem_of_singleton).
    by destruct (CombinedOutput H "criu" _) as [? [?|]].
  - done.
Qed.

(** X20: when the freezer tool fails, [execRestore] returns its exit
    status, or -1 when it could not be run, together with the error, and
    has done nothing else than its deferred cleanup: the network of the
    host is not touched, the pidfile is not read, no process is waited
    for. *)
Theorem failed_freezer_tool_ends_restore (H : Host) (checkpoint : execdriver.Checkpoint)
    (startCallback : bool) :
  Run_ H "/usr/local/sbin/criu"
    (execRestore_Args (GenerateRandomName H)
       (os.Join (ImagePath checkpoint) "restore.pid") checkpoint) ≠ RunOk →
  ∃ code err,
    execRestore H checkpoint startCallback
    = (Done (code, Some err),
       restoreCommand H checkpoint
       :: cleanCgroups H (ID (Command_ checkpoint))
       ++ [EvRemove (os.Join (ImagePath checkpoint) "restore.pid")])
    ∧ match Run_ H "/usr/local/sbin/criu"
              (execRestore_Args (GenerateRandomName H)
                 (os.Join (ImagePath checkpoint) "restore.pid") checkpoint) with
      | RunExitError status => code = status
      | RunError e => code = -1 ∧ err = e
      | RunOk => False
      end.
Proof.
  intros Hrun. rewrite execRestore_unfold. unfold execRestore_body, restoreCommand.
  destruct (Run_ H _ _); [done|eexists _, _; split; [reflexivity|done]..].
Qed.



(** X22: the volumes of a checkpoint reach the freezer tool when the
    container is dumped, one external mount map each, and are left out
    when it is restored: [execRestore] does the same whatever they are. *)
Theorem restore_leaves_volumes_out (H : Host) (c : Command) (img : string)
    (volumes volumes' : list (string * string)) (startCallback : bool) :
  (∀ host guest, (host, guest) ∈ volumes →
     ∃ i, Checkpoint_cmdArgs (mkCheckpoint c img volumes) !! i = Some "--ext-mount-map"
          ∧ Checkpoint_cmdArgs (mkCheckpoint c img volumes) !! S i
            = Some (host +:+ ":" +:+ guest))
  ∧ execRestore H (mkCheckpoint c img volumes) startCallback
    = execRestore H (mkCheckpoint c img volumes') startCallback.
Proof.
  split; [|reflexivity].
  intros host guest Hv. unfold Checkpoint_cmdArgs. cbn [Volumes].
  match goal with |- context [?pre ++ flat_map ?f volumes] =>
    set (prefix := pre); set (g := f) end.
  assert (∃ k, flat_map g volumes !! k = Some "--ext-mount-map"
               ∧ flat_map g volumes !! S k = Some (host +:+ ":" +:+ guest)) as (k & Hk & Hk').
  { clear prefix. induction volumes as [|v vs IH]; [by apply elem_of_nil in Hv|].
    apply elem_of_cons in Hv as [<-|Hv].
    - by exists 0%nat.
    - destruct (IH Hv) as (k & Hk & Hk'). by exists (S (S k)). }
  exists (length prefix + k)%nat. split.
  - by rewrite lookup_app_r, Nat.add_comm, Nat.add_sub by lia.
  - replace (S (length prefix + k)) with (length prefix + S k)%nat by lia.
    by rewrite lookup_app_r, Nat.add_comm, Nat.add_sub by lia.
Qed.

(** X23: [Terminate] takes the container off the map of active containers
    exactly when it has read a recorded start time and the start time of
    the process; it sends signal 9 exactly when the two are equal.  When
    neither the state nor the file [start] exists it reports success and
    leaves the container on the map; once the container is off the map a
    checkpoint of it is refused. *)
Theorem Terminate_cleans_after_start_times (T : ProcessTable) (H : Host)
    (removeAll : string → option error) (d : driver) (id : string) (pid : Z) :
  let d' := (Terminate T H removeAll d id pid).1.1 in
  let steps := (Terminate T H removeAll d id pid).2 in
  let path := os.Join (os.Join (root d) id) "container.json" in
  (StepRemoveAll path ∈ steps
   ↔ ∃ recorded current,
       recorded_start T d id = Some recorded ∧ GetProcessStartTime T pid = Ok current)
  ∧ (StepKill pid 9 ∈ steps
     ↔ ∃ recorded,
         recorded_start T d id = Some recorded ∧ GetProcessStartTime T pid = Ok recorded)
  ∧ (StepRemoveAll path ∈ steps →
     activeContainers d' = activeContainers d ∖ {[id]}
     ∧ ∀ checkpoint stop,
         ID (Command_ checkpoint) = id → (Checkpoint H d' checkpoint stop).2 = [])
  ∧ (StepRemoveAll path ∉ steps → d' = d)
  ∧ (GetState_InitStartTime T (os.Join (root d) id) = NotExist →
     ReadFile_start T (os.Join (os.Join (root d) id) "start") = NotExist →
     Terminate T H removeAll d id pid = (d, None, [])).
Proof.
  intros d' steps path. subst d' steps. unfold Terminate, recorded_start. fold path.
  assert (∀ checkpoint stop,
            ID (Command_ checkpoint) = id →
            (Checkpoint H (cleanContainer removeAll d id).1 checkpoint stop).2 = [])
    as Hrefused.
  { intros checkpoint stop Hid. unfold Checkpoint.
    rewrite bool_decide_eq_false_2; [done|]. rewrite Hid. simpl.
    intros [_ Hin]%elem_of_difference. apply Hin. by apply elem_of_singleton. }
  assert (∀ initStartTime,
    let run :=
      match GetProcessStartTime T pid with
      | Ok currentStartTime =>
          if String.eqb initStartTime currentStartTime
          then ((cleanContainer removeAll d id).1, Kill_ H pid 9,
                [StepKill pid 9; StepWait4 pid; StepRemoveAll path])
          else ((cleanContainer removeAll d id).1, None, [StepRemoveAll path])
      | Err e => (d, Some e, [])
      end in
    (StepRemoveAll path ∈ run.2
     ↔ ∃ recorded current,
         Some initStartTime = Some recorded ∧ GetProcessStartTime T pid = Ok current)
    ∧ (StepKill pid 9 ∈ run.2
       ↔ ∃ recorded,
           Some initStartTime = Some recorded ∧ GetProcessStartTime T pid = Ok recorded)
    ∧ (StepRemoveAll path ∈ run.2 →
       activeContainers run.1.1 = activeContainers d ∖ {[id]}
       ∧ ∀ checkpoint stop,
           ID (Command_ checkpoint) = id → (Checkpoint H run.1.1 checkpoint stop).2 = [])
    ∧ (StepRemoveAll path ∉ run.2 → run.1.1 = d)) as Hknown.
  { intros initStartTime.
    destruct (GetProcessStartTime T pid) as [current|e] eqn:Hcur; cbn [fst snd].
    - destruct (String.eqb_spec initStartTime current) as [->|Hdiff]; cbn [fst snd];
        split_and!.
      + split; [intros _; by eexists _, _|intros _; do 2 right; by left].
      + split; [intros _; by eexists|intros _; by left].
      + done.
      + intros Hnot. destruct Hnot. do 2 right. by left.
      + split; [intros _; by eexists _, _|intros _; by left].
      + split; [intros Hin; by apply list_elem_of_singleton in Hin|].
        intros (recorded & [= <-] & [= ->]). done.
      + done.
      + intros Hnot. destruct Hnot. by left.
    - split_and!.
      + split; [by intros ?%elem_of_nil|by intros (? & ? & _ & ?)].
      + split; [by intros ?%elem_of_nil|by intros (? & _ & ?)].
      + by intros ?%elem_of_nil.
      + done. }
  assert (∀ res : option error,
    (StepRemoveAll path ∈ (d, res, @nil TerminateStep).2
     ↔ ∃ recorded current : string,
         @None string = Some recorded ∧ GetProcessStartTime T pid = Ok current)
    ∧ (StepKill pid 9 ∈ (d, res, @nil TerminateStep).2
       ↔ ∃ recorded : string,
           @None string = Some recorded ∧ GetProcessStartTime T pid = Ok recorded)
    ∧ (StepRemoveAll path ∈ (d, res, @nil TerminateStep).2 →
       activeContainers d = activeContainers d ∖ {[id]}
       ∧ ∀ checkpoint stop,
           ID (Command_ checkpoint) = id → (Checkpoint H d checkpoint stop).2 = [])
    ∧ (StepRemoveAll path ∉ (d, res, @nil TerminateStep).2 → d = d)) as Hunknown.
  { intros res. cbn [snd]. split_and!.
    - split; [by intros ?%elem_of_nil|by intros (? & ? & ? & _)].
    - split; [by intros ?%elem_of_nil|by intros (? & ? & _)].
    - by intros ?%elem_of_nil.
    - done. }
  destruct (GetState_InitStartTime T _) as [initStartTime| |e].
  - destruct (Hknown initStartTime) as (? & ? & ? & ?). by split_and!.
  - destruct (ReadFile_start T _) as [data| |e].
    + destruct (Hknown data) as (? & ? & ? & ?). by split_and!.
    + destruct (Hunknown None) as (? & ? & ? & ?). by split_and!.
    + destruct (Hunknown (Some e)) as (? & ? & ? & ?). by split_and!.
  - destruct (Hunknown (Some e)) as (? & ? & ? & ?). by split_and!.
Qed.

Lemma append_cons (c : ascii) (a b : string) : String c a +:+ b = String c (a +:+ b).
Proof. reflexivity. Qed.

Lemma strings_Split_no_equals (s : string) :
  no_equals s = true → strings_Split s "=" = [s].
Proof.
  induction s as [|c s IH]; [done|]. simpl.
  destruct (Ascii.eqb c "="); [done|]. simpl. intros Hs. by rewrite IH.
Qed.

Lemma strings_Split_first (a rest : string) :
  no_equals a = true →
  strings_Split (a +:+ String "=" rest) "=" = a :: strings_Split rest "=".
Proof.
  induction a as [|c a IH]; [done|]. rewrite append_cons. simpl.
  destruct (Ascii.eqb c "="); [done|]. simpl. intros Ha. by rewrite IH.
Qed.

Lemma getEnv_skip (key : string) (before env : list string) :
  Forall (λ kv, pair_name kv ≠ key) before →
  getEnv key (before ++ env) = getEnv key env.
Proof.
  induction 1 as [|kv before Hkv _ IH]; [done|]. simpl.
  unfold pair_name in Hkv. destruct (strings_Split kv "=") as [|part0 parts] eqn:Hsplit.
  - by destruct kv as [|c kv]; simpl in Hsplit;
      [|destruct (Ascii.eqb c "="); [|destruct (strings_Split kv "=")]].
  - by apply String.eqb_neq in Hkv as ->.
Qed.

(** X24: [getEnv] answers with the first pair whose text before its first
    [=] is the key, and returns what stands between that [=] and the next
    one: a value that contains [=] is cut there. *)
Theorem getEnv_first_pair (key value rest : string) (before after : list string) :
  no_equals key = true →
  no_equals value = true →
  rest = EmptyString ∨ (∃ rest', rest = String "=" rest') →
  Forall (λ kv, pair_name kv ≠ key) before →
  getEnv key (before ++ (key +:+ String "=" (value +:+ rest)) :: after) = Done value.
Proof.
  intros Hkey Hvalue Hrest Hbefore. rewrite getEnv_skip by done. simpl.
  rewrite strings_Split_first by done. rewrite String.eqb_refl.
  destruct Hrest as [->|[rest' ->]].
  - assert (value +:+ "" = value) as ->; [|by rewrite strings_Split_no_equals].
    clear. induction value as [|c v IH]; [done|]. by rewrite append_cons, IH.
  - by rewrite strings_Split_first.
Qed.

(** X25: a pair that is the key alone, without [=], makes [getEnv] panic
    when no earlier pair has that name: [parts[1]] is out of range. *)
Theorem getEnv_key_alone_panics (key : string) (before after : list string) :
  no_equals key = true →
  Forall (λ kv, pair_name kv ≠ key) before →
  getEnv key (before ++ key :: after) = Panic.
Proof.
  intros Hkey Hbefore. rewrite getEnv_skip by done. simpl.
  by rewrite strings_Split_no_equals, String.eqb_refl.
Qed.

End driver_lifecycle.

(** ** The result of [execRestore] *)
Section restore_outcome.
Import golang execdriver native native_lifecycle.
Local Open Scope string_scope.
Local Open Scope list_scope.
Local Open Scope Z_scope.


End restore_outcome.

(** ** The properties on concrete inputs *)
Section scenario_checks.
Import golang execdriver daemon native notions examples framing cgroup_tree scenarios native_lifecycle.
Import patch_criu.
Local Open Scope string_scope.
Local Open Scope list_scope.
Local Open Scope Z_scope.

Lemma run_with_result {A B : Type} (run : A * B) (res : B) :
  run.2 = res → run = (run.1, res).
Proof. destruct run. simpl. congruence. Qed.

Lemma rewriteBytes_terminates_witness :
  ∃ data' replaced,
    rewriteBytes rewriter_env 16 [x01; x01; x01; x02] [x01; x01; x02] [x01; x02; x09] 0
    = Done (data', replaced)
    ∧ length data' = length [x01; x01; x01; x02]
    ∧ bytes_Index data' [x01; x01; x02] = None
    ∧ (replaced < 1 ↔ bytes_Index [x01; x01; x01; x02] [x01; x01; x02] = None).
Proof.
  apply (rewriteBytes_terminates rewriter_env [x01; x01; x01; x02] [x01; x01; x02]
           [x01; x02; x09] 16); [reflexivity | discriminate | simpl; lia].
Defined.

Lemma unparsable_old_address_hangs_witness :
  rewriteIPAddress odd_env 1000 "/src" "/dst" "10.0.0.5" fs_route_miss
  = (fs_route_miss, Timeout).
Proof.
  apply (unparsable_old_address_hangs odd_env 1000 "/src" "/dst" "10.0.0.5" fs_route_miss
           (magic ++ [xac; x11; x00; x02; x10])
           (bytes_of_string "2: eth0    inet 999.17.0.2/16 scope global eth0")
           "999.17.0.2");
    [reflexivity | reflexivity | reflexivity | reflexivity | discriminate | simpl; lia].
Defined.

Lemma non_ipv4_new_address_hangs_witness :
  rewriteIPAddress v6_env 1000 "/src" "/dst" "::1" fs_route_miss = (fs_route_miss, Timeout).
Proof.
  apply (non_ipv4_new_address_hangs v6_env 1000 "/src" "/dst" "::1" fs_route_miss
           (magic ++ [xac; x11; x00; x02; x10])
           (bytes_of_string "2: eth0    inet 172.17.0.2/16 scope global eth0")
           "172.17.0.2" 4);
    [reflexivity | reflexivity | reflexivity | discriminate | reflexivity | reflexivity].
Defined.

Lemma rewriteIPAddress_success_witness :
  ∃ data routeData dump found data' routeData',
    let old := To4 (net_ParseIP (parseIPv6 rewriter_env) found) in
    let fs' := (rewriteIPAddress rewriter_env 8 "/img" "/out" "10.0.0.5" fs_taken).1 in
    os.ReadFile "/img" "ifaddr-8.img" fs_taken = Ok data
    ∧ os.ReadFile "/img" "route-8.img" fs_taken = Ok routeData
    ∧ ipAddrShowdump rewriter_env data = Ok dump
    ∧ FindSubmatch (string_of_bytes dump) = Some found
    ∧ bytes_Index data old ≠ None
    ∧ bytes_Index routeData old ≠ None
    ∧ os.files fs' !! ("/out", "ifaddr-8.img") = Some data'
    ∧ os.files fs' !! ("/out", "route-8.img") = Some routeData'
    ∧ length data' = length data
    ∧ length routeData' = length routeData
    ∧ bytes_Index data' old = None
    ∧ bytes_Index routeData' old = None.
Proof.
  apply (rewriteIPAddress_success rewriter_env 8 "/img" "/out" "10.0.0.5" fs_taken
           (rewriteIPAddress rewriter_env 8 "/img" "/out" "10.0.0.5" fs_taken).1).
  apply run_with_result. vm_compute. reflexivity.
Defined.

Lemma rewriteMacAddress_records_witness :
  rewriteMacAddress eth0_env "/src" "/dst" "0242ac110003" fs_netdev
  = (written "/dst" "netdev-8.img"
       (magic ++ frames false [[x02; x42; xac; x11; x00; x03]]) fs_netdev,
     Done None).
Proof.
  apply (rewriteMacAddress_records eth0_env "/src" "/dst" "0242ac110003" fs_netdev magic
           [x02; x42; xac; x11; x00; x03] [[x02; x42; xac; x11; x00; x02]]
           [[x02; x42; xac; x11; x00; x03]]).
  - reflexivity.
  - reflexivity.
  - apply (bool_decide_unpack _). vm_compute. exact I.
  - apply (bool_decide_unpack _). vm_compute. exact I.
  - reflexivity.
  - repeat constructor.
  - constructor; [|constructor].
    exists (mkNetDeviceEntry (Some "eth0") [x02; x42; xac; x11; x00; x02] []).
    split; reflexivity.
Defined.

Lemma rewriteMacAddress_without_eth0_witness :
  rewriteMacAddress lo_env "/src" "/dst" "zz" fs_netdev
  = (written "/dst" "netdev-8.img"
       (magic ++ frames false [[x02; x42; xac; x11; x00; x02]]) fs_netdev,
     Done None).
Proof.
  apply (rewriteMacAddress_without_eth0 lo_env "/src" "/dst" "zz" fs_netdev magic
           [[x02; x42; xac; x11; x00; x02]]).
  - reflexivity.
  - reflexivity.
  - apply (bool_decide_unpack _). vm_compute. exact I.
  - apply (bool_decide_unpack _). vm_compute. exact I.
  - constructor; [|constructor]. split; [reflexivity|].
    exists (mkNetDeviceEntry (Some "lo") [x02; x42; xac; x11; x00; x02] []).
    split; [reflexivity|]. split; [discriminate|reflexivity].
Defined.

Lemma truncated_image_is_an_error_witness :
  ∃ e, (e = EOF ∨ e = ErrUnexpectedEOF)
       ∧ rewriteMacAddress eth0_env "/src" "/dst" "0242ac110003" fs_truncated
         = (written "/dst" "netdev-8.img" (magic ++ frames false []) fs_truncated,
            Done (Some e)).
Proof.
  refine (proj1 (truncated_image_is_an_error eth0_env "/src" "/dst" fs_truncated magic
                   [x06; x00; x00; x00; x02; x42; xac] [] [] _ _ _ _ _)
            "0242ac110003" _ _).
  - reflexivity.
  - apply (bool_decide_unpack _). vm_compute. exact I.
  - apply (bool_decide_unpack _). vm_compute. exact I.
  - constructor.
  - right. exists 6, [x02; x42; xac]. split; [reflexivity|]. simpl. lia.
  - reflexivity.
  - constructor.
Defined.

Lemma first_failing_directive_ends_the_run_witness :
  let fs1 :=
    written "/dst" "netdev-8.img" (magic ++ frames false [[x02; x42; xac; x11; x00; x03]])
      fs_netdev in
  main eth0_env 8
    ("patch-criu" :: "/src" :: "/dst" :: ["mac=0242ac110003"] ++ "mac=zz" :: ["ip=10.0.0.5"])
    fs_netdev
  = (written "/dst" "netdev-8.img" magic fs1, Done 1).
Proof.
  intros fs1.
  apply (first_failing_directive_ends_the_run eth0_env 8 "patch-criu" "/src" "/dst" "mac=zz"
           ["mac=0242ac110003"] ["ip=10.0.0.5"] fs_netdev fs1
           (written "/dst" "netdev-8.img" magic fs1)
           (ExternalErr "encoding/hex: invalid byte"));
    vm_compute; reflexivity.
Defined.

Lemma directive_without_value_witness :
  directive rewriter_env 1 "/src" "/dst" "ip" fs_route_miss = (fs_route_miss, Panic)
  ∧ directive rewriter_env 1 "/src" "/dst" "route" fs_route_miss
    = (fs_route_miss, Done (Some (Errorf "unkown key: route"))).
Proof.
  split.
  - exact (directive_without_value rewriter_env 1 "/src" "/dst" "ip" fs_route_miss eq_refl).
  - exact (directive_without_value rewriter_env 1 "/src" "/dst" "route" fs_route_miss eq_refl).
Defined.

Lemma patchCgroup_renames_witness :
  ∃ entry',
    patchCgroup cgroup_env "abcd" "ef01" (bytes_of_string "/docker/abcd")
    = MarshalCgroup cgroup_env entry'
    ∧ entry_names entry'
      = List.map (λ name, strings_Replace name "abcd" "ef01")
          (entry_names (entry_of "/docker/abcd"))
    ∧ (Forall (λ name, string_index name "abcd" = None)
         (entry_names (entry_of "/docker/abcd")) →
       entry' = entry_of "/docker/abcd").
Proof.
  apply (patchCgroup_renames cgroup_env "abcd" "ef01" (bytes_of_string "/docker/abcd")
           (entry_of "/docker/abcd")).
  reflexivity.
Defined.

Lemma cgroup_directive_witness :
  directive cgroup_env 1 "/src" "/dst" "cgroup=abcd:ef01:x" fs_route_miss
  = rewriteCgroupPaths cgroup_env "/src" "/dst" "abcd" "ef01:x" fs_route_miss
  ∧ directive cgroup_env 1 "/src" "/dst" "cgroup=abcd" fs_route_miss
    = (fs_route_miss, Done (Some (Errorf "invalid cgroup= parameter"))).
Proof.
  split.
  - exact (proj1 (cgroup_directive cgroup_env 1 "/src" "/dst" fs_route_miss)
             "abcd" "ef01:x" eq_refl).
  - exact (proj2 (cgroup_directive cgroup_env 1 "/src" "/dst" fs_route_miss)
             "abcd" eq_refl).
Defined.

Lemma inspect_order_independent_witness :
  ContainerInspect_checkpoints [cp1; cp2] = ContainerInspect_checkpoints [cp2; cp1].
Proof.
  apply (inspect_order_independent [cp1; cp2] [cp2; cp1]).
  - apply perm_swap.
  - apply (bool_decide_unpack _). vm_compute. exact I.
Defined.

Lemma daemon_own_registry (c : Container) (id : string) (cp : ContainerCheckpoint) :
  Checkpoints daemon_own c !! id = Some cp → container cp = c ∧ ID cp = id.
Proof.
  simpl. intros Hcp.
  apply lookup_insert_Some in Hcp as [[<- <-]|[_ Hcp]]; [done|].
  apply lookup_insert_Some in Hcp as [[<- <-]|[_ Hcp]]; [done|].
  by rewrite lookup_empty in Hcp.
Qed.

Lemma restore_job_calls_witness :
  let job := mkJob "restore" ["abcd"; "cp1"] false in
  let calls := (ContainerRestore daemon_own job fs_no_image).2 in
  (∀ c cp b,
     CallRestore c cp b ∈ calls →
     container cp = c ∧ b = GetenvBool_clone job
     ∧ ∃ name original,
         Args job = [name; ID cp] ∧ Get daemon_own name = Some original
         ∧ if GetenvBool_clone job then Create daemon_own original = Ok c else c = original)
  ∧ ((∃ c, LogEvent c "restore" ∈ calls)
     ↔ (ContainerRestore daemon_own job fs_no_image).1.2 = StatusOK).
Proof.
  intros job.
  apply (restore_job_calls daemon_own job fs_no_image). exact daemon_own_registry.
Defined.

Lemma clone_links_the_image_witness :
  let fs' := (clone cp1 ef01 fs_image).1 in
  cp1_ef01 = mkContainerCheckpoint (ID cp1) (NetworkSettings_ cp1) (CreatedAt cp1) ef01
  ∧ imagePath cp1_ef01 ∈ os.dirs fs'
  ∧ (∀ name data,
       os.files fs_image !! (imagePath cp1, name) = Some data →
       name ≠ "restore.pid" →
       os.files fs' !! (imagePath cp1_ef01, name) = Some data)
  ∧ os.files fs' !! (imagePath cp1_ef01, "restore.pid")
    = os.files fs_image !! (imagePath cp1_ef01, "restore.pid")
  ∧ os.files fs_image ⊆ os.files fs'.
Proof.
  intros fs'.
  apply (clone_links_the_image cp1 cp1_ef01 ef01 fs_image fs').
  apply run_with_result. vm_compute. reflexivity.
Defined.

Lemma patchImage_failure_keeps_the_image_witness :
  (patchImage rewriter_env 8 "/tmp/docker-patchcriu-1" cp1_ef01 fs_cloned).2
  = Done (Some (Errorf "patch-criu exit status 1"))
  ∧ ∀ name,
      os.files (patchImage rewriter_env 8 "/tmp/docker-patchcriu-1" cp1_ef01 fs_cloned).1
        !! (imagePath cp1_ef01, name)
      = os.files fs_cloned !! (imagePath cp1_ef01, name).
Proof.
  split; [vm_compute; reflexivity|].
  apply (patchImage_failure_keeps_the_image rewriter_env 8 "/tmp/docker-patchcriu-1" cp1_ef01
           fs_cloned _ (Done (Some (Errorf "patch-criu exit status 1")))).
  - discriminate.
  - apply run_with_result. vm_compute. reflexivity.
  - right. by exists "patch-criu exit status 1".
Defined.

Lemma patchImage_moves_the_files_witness :
  let tmpdir := "/tmp/docker-patchcriu-1" in
  let fs' := (patchImage eth0_env 8 tmpdir cp1_ef01 fs_cloned).1 in
  let rewritten :=
    (patch_criu.main eth0_env 8 ("patch-criu" :: patchImage_args cp1_ef01 tmpdir)
       (os.MkdirAll tmpdir fs_cloned).1).1 in
  (tmpdir ∉ os.dirs fs')
  ∧ ∀ name,
      os.files fs' !! (tmpdir, name) = None
      ∧ os.files fs' !! (imagePath cp1_ef01, name)
        = match os.files rewritten !! (tmpdir, name) with
          | Some data => Some data
          | None => os.files fs_cloned !! (imagePath cp1_ef01, name)
          end.
Proof.
  intros tmpdir fs'.
  apply (patchImage_moves_the_files eth0_env 8 tmpdir cp1_ef01 fs_cloned fs').
  - discriminate.
  - apply (bool_decide_unpack _). vm_compute. exact I.
  - apply run_with_result. vm_compute. reflexivity.
Defined.

Lemma failed_freezer_tool_ends_restore_witness :
  ∃ code err,
    execRestore host_criu_fails checkpoint_abcd true
    = (Done (code, Some err),
       restoreCommand host_criu_fails checkpoint_abcd
       :: cleanCgroups host_criu_fails (execdriver.ID (Command_ checkpoint_abcd))
       ++ [EvRemove (os.Join (ImagePath checkpoint_abcd) "restore.pid")])
    ∧ code = 1.
Proof.
  apply (failed_freezer_tool_ends_restore host_criu_fails checkpoint_abcd true).
  discriminate.
Defined.

Lemma getEnv_first_pair_witness :
  getEnv "OPTS" ["PATH=/bin"; "OPTS=a=b"; "OPTS=c"] = Done "a".
Proof.
  apply (getEnv_first_pair "OPTS" "a" "=b" ["PATH=/bin"] ["OPTS=c"]).
  - reflexivity.
  - reflexivity.
  - right. by exists "b".
  - constructor; [vm_compute; discriminate|constructor].
Defined.

Lemma getEnv_key_alone_panics_witness :
  getEnv "TERM" ["PATH=/bin"; "TERM"; "TERM=xterm"] = Panic.
Proof.
  apply (getEnv_key_alone_panics "TERM" ["PATH=/bin"] ["TERM=xterm"]).
  - reflexivity.
  - constructor; [vm_compute; discriminate|constructor].
Defined.

End scenario_checks.
